(** * Katube downloader: job runner and download pipeline

    A shallow embedding of [src/simple_pipeline.py], of
    [GCPUploader.upload_file] from [src/gcp_uploader.py] and of the job
    tracking code of [app.py]: the job records, the two background runners
    and the routes that read and clean the registry.

    Python dictionaries are insertion-ordered association lists of dynamically
    typed values; Python code that touches the outside world (file system,
    object store, YouTube, the clock) runs in a state-and-exception monad in
    which a raised exception keeps every effect performed before it.  The
    collaborators whose sources are not part of the pipeline itself
    ([YouTubeDownloader], [YouTubeChannelScanner], the storage client, the
    operating system) are oracles: functions of the number of external calls
    made so far, so that they may answer differently at every call. *)

From Stdlib Require Import ZArith Ascii String List Bool Lia.
From Stdlib Require Import PrimFloat FloatOps SpecFloat Uint63.
From stdpp Require Import gmap strings list pretty.

Set Warnings "-register-all".

Local Open Scope string_scope.
Local Open Scope list_scope.
Local Open Scope Z_scope.

(** ** Python values and dictionaries *)

Inductive value : Type :=
| VNone
| VBool (b : bool)
| VInt (z : Z)
| VStr (s : string)
| VList (l : list value)
| VDict (d : list (string * value)).

Abbreviation dict := (list (string * value)).

(** [d.get(k)] *)
Fixpoint dget (k : string) (d : dict) : option value :=
  match d with
  | [] => None
  | (k', v) :: d' => if String.eqb k k' then Some v else dget k d'
  end.

(** [d[k] = v]: an existing key keeps its position, a new key goes last. *)
Fixpoint dset (k : string) (v : value) (d : dict) : dict :=
  match d with
  | [] => [(k, v)]
  | (k', v') :: d' =>
      if String.eqb k k' then (k, v) :: d' else (k', v') :: dset k v d'
  end.

(** [d.update(kvs)] *)
Definition dupdate (d kvs : dict) : dict :=
  fold_left (fun acc kv => dset (fst kv) (snd kv) acc) kvs d.

(** [d.get(k, default)] *)
Definition dget_or (k : string) (dflt : value) (d : dict) : value :=
  match dget k d with Some v => v | None => dflt end.

(** Python truthiness, as used by [if x:] and [if not x:]. *)
Definition truthy (v : value) : bool :=
  match v with
  | VNone => false
  | VBool b => b
  | VInt z => negb (z =? 0)
  | VStr s => negb (String.eqb s "")
  | VList l => match l with [] => false | _ => true end
  | VDict d => match d with [] => false | _ => true end
  end.

(** ** Strings and paths *)

Definition lower_ascii (c : Ascii.ascii) : Ascii.ascii :=
  let n := Ascii.nat_of_ascii c in
  if ((65 <=? n)%nat && (n <=? 90)%nat) then Ascii.ascii_of_nat (n + 32) else c.

(** [s.lower()], on the ASCII letters (the patterns it is matched against are
    ASCII). *)
Fixpoint lower (s : string) : string :=
  match s with
  | EmptyString => EmptyString
  | String c s' => String (lower_ascii c) (lower s')
  end.

(** [sub in s] *)
Fixpoint contains (sub s : string) : bool :=
  String.prefix sub s
  || match s with
     | EmptyString => false
     | String _ s' => contains sub s'
     end.

(** [any(pattern in s for pattern in patterns)] *)
Definition any_in (patterns : list string) (s : string) : bool :=
  existsb (fun p => contains p s) patterns.

(** [Path.name]: the part after the last slash. *)
Fixpoint path_name_from (acc s : string) : string :=
  match s with
  | EmptyString => acc
  | String c s' =>
      if Ascii.eqb c "/"%char then path_name_from s' s' else path_name_from acc s'
  end.

Definition path_name (p : string) : string := path_name_from p p.

(** [Path.parent] of a path with a slash in it. *)
Definition path_parent (p : string) : string :=
  String.substring 0 (String.length p - String.length (path_name p) - 1) p.

(** [s.endswith(suffix)] *)
Definition ends_with (suffix s : string) : bool :=
  String.prefix (String.rev suffix) (String.rev s).

(** [s.split(sep)[-1]] when [sep] occurs in [s]: what follows its last
    occurrence. *)
Fixpoint after_last (sep s : string) : option string :=
  match s with
  | EmptyString => None
  | String _ s' =>
      match after_last sep s' with
      | Some rest => Some rest
      | None =>
          if String.prefix sep s
          then Some (String.substring (String.length sep) (String.length s) s)
          else None
      end
  end.

(** [s.split(c)[0]] *)
Fixpoint before_first (c : ascii) (s : string) : string :=
  match s with
  | EmptyString => EmptyString
  | String c' s' => if Ascii.eqb c c' then EmptyString else String c' (before_first c s')
  end.

(** [s[-n:]] for a positive [n] *)
Definition last_chars (n : nat) (s : string) : string :=
  String.substring (String.length s - n) n s.

(** [dir / name] *)
Definition path_join (dir name : string) : string := dir +:+ "/" +:+ name.

(** ** Exceptions and state *)

Inductive exc (A : Type) : Type :=
| Ok (a : A)
| Raise (msg : string).

Arguments Ok {A} a.
Arguments Raise {A} msg.

(** A computation over a state [S]: its outcome and the state it leaves,
    which is kept when the outcome is an exception. *)
Definition M (S A : Type) : Type := S -> exc A * S.

Definition ret {S A} (a : A) : M S A := fun s => (Ok a, s).

Definition bind {S A B} (m : M S A) (k : A -> M S B) : M S B :=
  fun s =>
    match m s with
    | (Ok a, s') => k a s'
    | (Raise e, s') => (Raise e, s')
    end.

Definition raise {S A} (msg : string) : M S A := fun s => (Raise msg, s).

(** [try: m  except Exception as e: h(str(e))] *)
Definition try_catch {S A} (m : M S A) (h : string -> M S A) : M S A :=
  fun s =>
    match m s with
    | (Ok a, s') => (Ok a, s')
    | (Raise e, s') => h e s'
    end.

Definition gets {S A} (f : S -> A) : M S A := fun s => (Ok (f s), s).
Definition modify {S} (f : S -> S) : M S unit := fun s => (Ok tt, f s).

(** [if c: m] *)
Definition when {S} (c : bool) (m : M S unit) : M S unit :=
  if c then m else ret tt.

Notation "x <- c1 ;; c2" := (bind c1 (fun x => c2))
  (at level 100, c1 at next level, right associativity).
Notation "c1 ;; c2" := (bind c1 (fun _ => c2))
  (at level 100, right associativity).

(** Local variables of a function that are mutated in place (Python lists):
    a computation over [L * S] sees them; an exception inside keeps the
    mutations made before it. *)
Definition lift {L S A} (m : M S A) : M (L * S) A :=
  fun ls => let (r, s') := m (snd ls) in (r, (fst ls, s')).

Definition get_local {L S} : M (L * S) L := fun ls => (Ok (fst ls), ls).

Definition modify_local {L S} (f : L -> L) : M (L * S) unit :=
  fun ls => (Ok tt, (f (fst ls), snd ls)).

(** Runs [m] with fresh locals [l0]; the locals die with the frame when an
    exception leaves it. *)
Definition with_locals {L S A} (l0 : L) (m : M (L * S) A) : M S A :=
  fun s => let (r, ls) := m (l0, s) in (r, snd ls).

(** [for x in xs: body x] *)
Fixpoint for_each {S A} (xs : list A) (body : A -> M S unit) : M S unit :=
  match xs with
  | [] => ret tt
  | x :: xs' => body x ;; for_each xs' body
  end.

(** [enumerate(xs)], counting from [i]. *)
Fixpoint enumerate_from {A} (i : nat) (xs : list A) : list (nat * A) :=
  match xs with
  | [] => []
  | x :: xs' => (i, x) :: enumerate_from (S i) xs'
  end.

Definition enumerate {A} (xs : list A) : list (nat * A) := enumerate_from 0 xs.

(** [xs[:n]] for a Python integer [n] (a negative [n] counts from the end). *)
Definition slice_to {A} (xs : list A) (n : Z) : list A :=
  if 0 <=? n then firstn (Z.to_nat n) xs
  else firstn (Z.to_nat (Z.of_nat (length xs) + n)) xs.

(** ** The outside world *)

(** What the pipeline did to the outside world, in the order it did it. *)
Inductive event : Type :=
| EvDownload (url path : string)
| EvUpload (local remote : string) (stored : bool)
| EvUnlink (path : string) (removed : bool)
| EvCallback (url : string) (success : value) (total index : nat).

(** The state a run works on: the local files (path to size in bytes), the
    objects of the bucket (key to attached metadata), the number of external
    calls made so far, the trace of effects, the two fields of the
    [SimpleDownloadPipeline] object, and the caller's own state, which is all a
    progress callback can touch. *)
Record world (U : Type) : Type := World {
  files : gmap string Z;
  bucket : gmap string dict;
  tick : nat;
  log : list event;
  current_session : option string;
  session_dir : option string;
  user : U }.

Arguments World {U}.
Arguments files {U}.
Arguments bucket {U}.
Arguments tick {U}.
Arguments log {U}.
Arguments current_session {U}.
Arguments session_dir {U}.
Arguments user {U}.

(** What [YouTubeDownloader.get_video_info] returns: a dictionary read with
    [.get('title', 'Unknown')], [.get('id', 'unknown')], [.get('duration', 0)]. *)
Record video_info : Type := VideoInfo {
  vi_title : option string;
  vi_id : option string;
  vi_duration : option Z }.

(** The collaborators.  Each answer depends on the number of external calls
    made before it and on the arguments of the call. *)
Record env : Type := Env {
  output_base_dir : string;
  youtube_get_video_info : nat -> string -> exc video_info;
  (** the path of the audio file, and its size when the file was written *)
  youtube_download : nat -> string -> option string -> exc (string * option Z);
  scanner_scan_channel : nat -> string -> exc (option string);
  scanner_get_video_urls : nat -> string -> exc (list string);
  gcs_available : bool;
  gcs_bucket_name : string;
  (** [blob.upload_from_filename]: [Some e] when it raises [e] *)
  gcs_upload_error : nat -> string -> string -> option string;
  (** [datetime.now()] in the given format *)
  os_now : nat -> string -> string;
  (** [time.time()] *)
  os_time : nat -> Z;
  os_mkdir_error : nat -> string -> option string;
  (** [open(path, 'w')] and the writes: the size written, or the error *)
  os_write : nat -> string -> exc Z;
  os_unlink_error : nat -> string -> option string;
  (** [SimpleDownloadPipeline(...)]: [Some e] when the constructor raises *)
  pipeline_init_error : nat -> option string }.

Section Pipeline.

Context {U : Type}.
Variable E : env.

Abbreviation W := (world U).

Definition set_files (f : gmap string Z) (w : W) : W :=
  World f (bucket w) (tick w) (log w) (current_session w) (session_dir w) (user w).
Definition set_bucket (b : gmap string dict) (w : W) : W :=
  World (files w) b (tick w) (log w) (current_session w) (session_dir w) (user w).
Definition next_tick (w : W) : W :=
  World (files w) (bucket w) (S (tick w)) (log w) (current_session w) (session_dir w) (user w).
Definition emit (ev : event) (w : W) : W :=
  World (files w) (bucket w) (tick w) (log w ++ [ev]) (current_session w) (session_dir w) (user w).
Definition set_current_session (s : option string) (w : W) : W :=
  World (files w) (bucket w) (tick w) (log w) s (session_dir w) (user w).
Definition set_session_dir (d : option string) (w : W) : W :=
  World (files w) (bucket w) (tick w) (log w) (current_session w) d (user w).
Definition set_user (u : U) (w : W) : W :=
  World (files w) (bucket w) (tick w) (log w) (current_session w) (session_dir w) u.

(** *** Operating system *)

Definition now (format : string) : M W string :=
  fun w => (Ok (os_now E (tick w) format), next_tick w).

Definition time_time : M W Z :=
  fun w => (Ok (os_time E (tick w)), next_tick w).

Definition mkdir (path : string) : M W unit :=
  fun w =>
    match os_mkdir_error E (tick w) path with
    | Some e => (Raise e, next_tick w)
    | None => (Ok tt, next_tick w)
    end.

(** [path.exists()] *)
Definition path_exists (path : string) : M W bool :=
  fun w =>
    match files w !! path with
    | Some _ => (Ok true, w)
    | None => (Ok false, w)
    end.

(** [path.stat().st_size] *)
Definition stat_size (path : string) : M W Z :=
  fun w =>
    match files w !! path with
    | Some size => (Ok size, w)
    | None => (Raise ("[Errno 2] No such file or directory: " +:+ path), w)
    end.

(** [with open(path, 'w') as f: ...] *)
Definition write_file (path : string) : M W unit :=
  fun w =>
    match os_write E (tick w) path with
    | Ok size => (Ok tt, next_tick (set_files (<[path := size]> (files w)) w))
    | Raise e => (Raise e, next_tick w)
    end.

(** [path.unlink()] *)
Definition unlink (path : string) : M W unit :=
  fun w =>
    match files w !! path with
    | None => (Raise ("[Errno 2] No such file or directory: " +:+ path), w)
    | Some _ =>
        match os_unlink_error E (tick w) path with
        | Some e => (Raise e, next_tick (emit (EvUnlink path false) w))
        | None =>
            (Ok tt, next_tick (emit (EvUnlink path true)
                                 (set_files (delete path (files w)) w)))
        end
    end.

(** *** YouTube *)

Definition get_video_info (url : string) : M W video_info :=
  fun w => (youtube_get_video_info E (tick w) url, next_tick w).

Definition downloader_download (url : string) (custom_filename : option string)
  : M W string :=
  fun w =>
    match youtube_download E (tick w) url custom_filename with
    | Ok (path, written) =>
        let w1 := match written with
                  | Some size => set_files (<[path := size]> (files w)) w
                  | None => w
                  end in
        (Ok path, next_tick (emit (EvDownload url path) w1))
    | Raise e => (Raise e, next_tick w)
    end.

Definition scan_channel (channel_url : string) : M W (option string) :=
  fun w => (scanner_scan_channel E (tick w) channel_url, next_tick w).

Definition get_video_urls (video_list_path : string) : M W (list string) :=
  fun w => (scanner_get_video_urls E (tick w) video_list_path, next_tick w).

(** *** [GCPUploader] *)

(** [blob = bucket.blob(remote_path); blob.metadata = metadata;
    blob.upload_from_filename(str(local_path))] *)
Definition blob_upload_from_filename (local_path remote_path : string)
    (metadata : option dict) : M W unit :=
  fun w =>
    match gcs_upload_error E (tick w) local_path remote_path with
    | Some e => (Raise e, next_tick (emit (EvUpload local_path remote_path false) w))
    | None =>
        let md := match metadata with Some d => d | None => [] end in
        (Ok tt, next_tick (emit (EvUpload local_path remote_path true)
                             (set_bucket (<[remote_path := md]> (bucket w)) w)))
    end.

Definition is_available : M W bool := ret (gcs_available E).

Definition upload_file (local_path remote_path : string) (metadata : option dict)
  : M W dict :=
  available <- is_available ;;
  if negb available then
    ret [("success", VBool false); ("error", VStr "GCP uploader not available")]
  else
    present <- path_exists local_path ;;
    if negb present then
      ret [("success", VBool false);
           ("error", VStr ("Local file not found: " +:+ local_path))]
    else
      try_catch
        (blob_upload_from_filename local_path remote_path metadata ;;
         size <- stat_size local_path ;;
         ret [("success", VBool true);
              ("local_path", VStr local_path);
              ("remote_path", VStr remote_path);
              ("bucket", VStr (gcs_bucket_name E));
              ("size", VInt size);
              ("public_url",
               VStr ("gs://" +:+ gcs_bucket_name E +:+ "/" +:+ remote_path))])
        (fun e =>
           ret [("success", VBool false);
                ("error", VStr e);
                ("local_path", VStr local_path);
                ("remote_path", VStr remote_path)]).

(** *** [SimpleDownloadPipeline] *)

Definition create_session (session_name : option string) : M W string :=
  name <- match session_name with
          | None =>
              timestamp <- now "%Y%m%d_%H%M%S" ;;
              ret ("download_session_" +:+ timestamp)
          | Some n => ret n
          end ;;
  modify (set_current_session (Some name)) ;;
  let dir := path_join (output_base_dir E) name in
  modify (set_session_dir (Some dir)) ;;
  mkdir dir ;;
  for_each ["downloads"; "metadata"] (fun subdir => mkdir (path_join dir subdir)) ;;
  ret dir.

Definition no_session : string := "No active session. Call create_session() first.".

(** Lines 171-183: the local copies are removed; an error here is logged and
    swallowed.  The local variable is the [result] dictionary. *)
Definition cleanup_local_files (audio_path metadata_file : string)
  : M (dict * W) unit :=
  try_catch
    (audio_present <- lift (path_exists audio_path) ;;
     when audio_present (lift (unlink audio_path)) ;;
     metadata_present <- lift (path_exists metadata_file) ;;
     when metadata_present (lift (unlink metadata_file)) ;;
     modify_local (dset "local_files_cleaned" (VBool true)))
    (fun cleanup_error => ret tt).

(** The two object keys of a video. *)
Definition audio_remote_path (session_name audio_path : string) : string :=
  "youtube_downloads/" +:+ session_name +:+ "/downloads/" +:+ path_name audio_path.

Definition metadata_remote_path (session_name metadata_file : string) : string :=
  "youtube_downloads/" +:+ session_name +:+ "/metadata/" +:+ path_name metadata_file.

(** Lines 138-187: the body of [if immediate_upload and
    self.gcp_uploader.is_available():]. *)
Definition upload_immediately (video_id video_title : string) (duration : Z)
    (audio_path metadata_file : string) : M (dict * W) unit :=
  cs <- lift (gets current_session) ;;
  let session_name := default "unknown_session" cs in
  upload_time <- lift (now "isoformat") ;;
  upload_result <-
    lift (upload_file audio_path (audio_remote_path session_name audio_path)
            (Some [("video_id", VStr video_id);
                   ("title", VStr video_title);
                   ("duration", VStr (pretty duration));
                   ("session_name", VStr session_name);
                   ("upload_time", VStr upload_time)])) ;;
  if truthy (dget_or "success" (VBool false) upload_result) then
    metadata_upload <-
      lift (upload_file metadata_file
              (metadata_remote_path session_name metadata_file) None) ;;
    if truthy (dget_or "success" (VBool false) metadata_upload) then
      modify_local (dset "uploaded_to_gcp" (VBool true)) ;;
      modify_local (dset "gcp_audio_url" (dget_or "public_url" VNone upload_result)) ;;
      modify_local
        (dset "gcp_metadata_url" (dget_or "public_url" VNone metadata_upload)) ;;
      cleanup_local_files audio_path metadata_file
    else ret tt
  else ret tt.

Definition download_single_video (url : string) (custom_filename : option string)
    (immediate_upload : bool) : M W dict :=
  sd <- gets session_dir ;;
  match sd with
  | None => raise no_session
  | Some sdir =>
    try_catch
      (video_info <- get_video_info url ;;
       let video_title := default "Unknown" (vi_title video_info) in
       let video_id := default "unknown" (vi_id video_info) in
       let duration := default 0 (vi_duration video_info) in
       audio_path <- downloader_download url custom_filename ;;
       download_time <- now "isoformat" ;;
       present <- path_exists audio_path ;;
       file_size <- (if present then stat_size audio_path else ret 0) ;;
       let metadata :=
         [("video_id", VStr video_id);
          ("title", VStr video_title);
          ("url", VStr url);
          ("duration", VInt duration);
          ("download_time", VStr download_time);
          ("audio_file", VStr (path_name audio_path));
          ("file_size", VInt file_size)] in
       let metadata_file :=
         path_join (path_join sdir "metadata") (video_id +:+ "_metadata.json") in
       write_file metadata_file ;;
       let result :=
         [("success", VBool true);
          ("video_id", VStr video_id);
          ("title", VStr video_title);
          ("url", VStr url);
          ("audio_path", VStr audio_path);
          ("metadata_path", VStr metadata_file);
          ("file_size", dget_or "file_size" VNone metadata);
          ("duration", VInt duration);
          ("uploaded_to_gcp", VBool false);
          ("local_files_cleaned", VBool false)] in
       available <- is_available ;;
       with_locals result
         (when (immediate_upload && available)
            (upload_immediately video_id video_title duration audio_path
               metadata_file) ;;
          get_local))
      (fun e =>
         ret [("success", VBool false); ("url", VStr url); ("error", VStr e)])
  end.

(** [d[k]]: a missing key raises [KeyError]. *)
Definition item {S} (k : string) (d : dict) : M S value :=
  match dget k d with
  | Some v => ret v
  | None => raise ("'" +:+ k +:+ "'")
  end.

(** A progress callback gets [(video_url, success, total_videos,
    current_index)] and works on its owner's state only. *)
Definition callback : Type := string -> value -> nat -> nat -> M U unit.

(** [if progress_callback: progress_callback(url, success, total, index)] *)
Definition call_progress (progress_callback : option callback) (video_url : string)
    (success : value) (total index : nat) : M W unit :=
  match progress_callback with
  | None => ret tt
  | Some f =>
      fun w =>
        let w1 := emit (EvCallback video_url success total index) w in
        let (r, u') := f video_url success total index (user w1) in
        (r, set_user u' w1)
  end.

(** Lines 246-273: one turn of the loop over [enumerate(video_urls)].  The
    locals are [(downloaded_videos, failed_videos)]. *)
Definition process_one_video (progress_callback : option callback) (total : nat)
    (i : nat) (video_url : string) : M ((list dict * list dict) * W) unit :=
  try_catch
    (result <- lift (download_single_video video_url None true) ;;
     success <- item "success" result ;;
     (if truthy success then
        modify_local (fun l => (fst l ++ [result], snd l)) ;;
        _ <- item "title" result ;;
        ret tt
      else
        modify_local (fun l => (fst l, snd l ++ [result]))) ;;
     lift (call_progress progress_callback video_url success total (i + 1)))
    (fun e =>
       modify_local
         (fun l =>
            (fst l,
             snd l ++ [[("success", VBool false); ("url", VStr video_url);
                        ("error", VStr e)]])) ;;
       lift (call_progress progress_callback video_url (VBool false) total (i + 1))).

(** Lines 291-303: the text file with the URL list. *)
Definition write_video_list (video_list_file : string)
    (downloaded_videos failed_videos : list dict) : M W unit :=
  write_file video_list_file ;;
  _ <- now "%Y-%m-%d %H:%M:%S" ;;
  for_each downloaded_videos
    (fun video => _ <- item "url" video ;; _ <- item "title" video ;; ret tt) ;;
  for_each failed_videos (fun video => _ <- item "url" video ;; ret tt).

Definition channel_failure (e : string) : dict :=
  [("success", VBool false); ("error", VStr e);
   ("downloaded_count", VInt 0); ("failed_count", VInt 0)].

Definition download_channel_videos (channel_url : string) (max_videos : Z)
    (progress_callback : option callback) : M W dict :=
  sd <- gets session_dir ;;
  match sd with
  | None => raise no_session
  | Some sdir =>
    try_catch
      (video_list_path <- scan_channel channel_url ;;
       match video_list_path with
       | None => ret (channel_failure "Channel scan failed")
       | Some list_path =>
         video_urls <- get_video_urls list_path ;;
         match video_urls with
         | [] => ret (channel_failure "No videos found in channel")
         | _ =>
           let video_urls :=
             if max_videos <? Z.of_nat (length video_urls)
             then slice_to video_urls max_videos else video_urls in
           lists <-
             with_locals ([], [])
               (for_each (enumerate video_urls)
                  (fun iu =>
                     process_one_video progress_callback (length video_urls)
                       (fst iu) (snd iu)) ;;
                get_local) ;;
           let downloaded_videos := fst lists in
           let failed_videos := snd lists in
           scan_time <- now "isoformat" ;;
           let channel_summary :=
             [("channel_url", VStr channel_url);
              ("scan_time", VStr scan_time);
              ("total_videos_found", VInt (Z.of_nat (length video_urls)));
              ("downloaded_count", VInt (Z.of_nat (length downloaded_videos)));
              ("failed_count", VInt (Z.of_nat (length failed_videos)));
              ("downloaded_videos", VList (map VDict downloaded_videos));
              ("failed_videos", VList (map VDict failed_videos))] in
           let summary_file :=
             path_join (path_join sdir "metadata") "channel_summary.json" in
           write_file summary_file ;;
           let video_list_file := path_join sdir "video_urls.txt" in
           write_video_list video_list_file downloaded_videos failed_videos ;;
           ret [("success", VBool true);
                ("channel_url", VStr channel_url);
                ("total_videos", VInt (Z.of_nat (length video_urls)));
                ("downloaded_count", VInt (Z.of_nat (length downloaded_videos)));
                ("failed_count", VInt (Z.of_nat (length failed_videos)));
                ("summary_file", VStr summary_file);
                ("video_list_file", VStr video_list_file);
                ("downloaded_videos", VList (map VDict downloaded_videos));
                ("failed_videos", VList (map VDict failed_videos))]
         end
       end)
      (fun e => ret (channel_failure e))
  end.

Definition channel_patterns : list string :=
  ["/channel/"; "/c/"; "/user/"; "/@"; "/playlist?"].

(** [any(pattern in url.lower() for pattern in [...])] *)
Definition is_channel_url (url : string) : bool :=
  any_in channel_patterns (lower url).

Definition unknown_failure (e : string) : dict :=
  [("success", VBool false); ("error", VStr e); ("type", VStr "unknown");
   ("downloaded_count", VInt 0); ("failed_count", VInt 0)].

(** Lines 345-392: the [try] block of [process_url]. *)
Definition process_url_body (start_time : Z) (url : string)
    (custom_filename : option string) (max_videos : Z)
    (progress_callback : option callback) : M W dict :=
  session_dir <- create_session None ;;
  result <-
    (if is_channel_url url then
       result <- download_channel_videos url max_videos progress_callback ;;
       ret (dset "type" (VStr "channel") result)
     else
       result <- download_single_video url custom_filename true ;;
       let result := dset "type" (VStr "video") result in
       success <- item "success" result ;;
       if truthy success then
         ret (dupdate result [("downloaded_count", VInt 1);
                              ("failed_count", VInt 0);
                              ("total_videos", VInt 1)])
       else
         ret (dupdate result [("downloaded_count", VInt 0);
                              ("failed_count", VInt 1);
                              ("total_videos", VInt 1)])) ;;
  end_time <- time_time ;;
  let processing_time := end_time - start_time in
  cs <- gets current_session ;;
  let result :=
    dupdate result
      [("session_name", match cs with Some n => VStr n | None => VNone end);
       ("session_dir", VStr session_dir);
       ("processing_time", VInt processing_time)] in
  write_file (path_join session_dir "download_results.json") ;;
  ret result.

Definition process_url (url : string) (custom_filename : option string)
    (max_videos : Z) (progress_callback : option callback) : M W dict :=
  start_time <- time_time ;;
  try_catch
    (process_url_body start_time url custom_filename max_videos progress_callback)
    (fun e => ret (unknown_failure e)).

(** [dir.glob('*' + suffix)]: the files directly in [dir] with that suffix. *)
Definition glob (dir suffix : string) : M W (list (string * Z)) :=
  gets (fun w =>
          List.filter (fun pz => String.eqb (path_parent (fst pz)) dir
                            && ends_with suffix (path_name (fst pz)))
            (map_to_list (files w))).

Definition file_entry (kind : string) (pz : string * Z) : value :=
  VDict [("path", VStr (fst pz)); ("name", VStr (path_name (fst pz)));
         ("size", VInt (snd pz)); ("type", VStr kind)].

Definition get_download_summary : M W dict :=
  sd <- gets session_dir ;;
  match sd with
  | None => ret [("error", VStr "No active session")]
  | Some sdir =>
      audio_files <- glob (path_join sdir "downloads") ".flac" ;;
      metadata_files <- glob (path_join sdir "metadata") ".json" ;;
      text_files <- glob sdir ".txt" ;;
      available <- is_available ;;
      ret [("session_dir", VStr sdir);
           ("audio_files", VList (map (file_entry "audio") audio_files));
           ("metadata_files", VList (map (file_entry "metadata") metadata_files));
           ("text_files", VList (map (file_entry "text") text_files));
           ("total_files",
            VInt (Z.of_nat (length audio_files + length metadata_files
                            + length text_files)));
           ("total_audio_size", VInt (foldr Z.add 0 (map snd audio_files)));
           ("ready_for_gcp_upload", VBool true);
           ("gcp_available", VBool available)]
  end.

(** [SimpleDownloadPipeline(...)]: a new pipeline object has no session. *)
Definition new_pipeline : M W unit :=
  fun w =>
    match pipeline_init_error E (tick w) with
    | Some e => (Raise e, next_tick w)
    | None =>
        (Ok tt, next_tick (set_session_dir None (set_current_session None w)))
    end.

(** A computation on the caller's state, run from the pipeline's world. *)
Definition lift_user {A} (m : M U A) : M W A :=
  fun w => let (r, u') := m (user w) in (r, set_user u' w).

End Pipeline.

(** ** [app.py]: job records and the two background runners *)

Module App.

Record JobStatus : Type := Job {
  job_id : string;
  url : string;
  status : string;
  progress : Z;
  message : string;
  start_time : string;
  end_time : option string;
  results : option dict;
  error : option string }.

(** [JobStatus(job_id, url)], created at time [t]. *)
Definition new_job (id job_url t : string) : JobStatus :=
  Job id job_url "waiting" 0 "Iniciando processamento..." t None None None.

(** The three assignments of [JobStatus.update], one at a time. *)
Definition set_status (s : string) (j : JobStatus) : JobStatus :=
  Job (job_id j) (url j) s (progress j) (message j) (start_time j) (end_time j)
    (results j) (error j).
Definition set_progress (p : Z) (j : JobStatus) : JobStatus :=
  Job (job_id j) (url j) (status j) p (message j) (start_time j) (end_time j)
    (results j) (error j).
Definition set_message (m : string) (j : JobStatus) : JobStatus :=
  Job (job_id j) (url j) (status j) (progress j) m (start_time j) (end_time j)
    (results j) (error j).
Definition set_end_time (t : string) (j : JobStatus) : JobStatus :=
  Job (job_id j) (url j) (status j) (progress j) (message j) (start_time j) (Some t)
    (results j) (error j).
Definition set_results (r : dict) (j : JobStatus) : JobStatus :=
  Job (job_id j) (url j) (status j) (progress j) (message j) (start_time j)
    (end_time j) (Some r) (error j).
Definition set_error (e : string) (j : JobStatus) : JobStatus :=
  Job (job_id j) (url j) (status j) (progress j) (message j) (start_time j)
    (end_time j) (results j) (Some e).

Definition update (new_status : string) (new_progress : Z) (new_message : string)
    (j : JobStatus) : JobStatus :=
  set_message new_message (set_progress new_progress (set_status new_status j)).

Definition complete (now_ : string) (r : dict) (j : JobStatus) : JobStatus :=
  set_results r
    (set_end_time now_
       (set_message "Processamento concluído com sucesso!"
          (set_progress 100 (set_status "completed" j)))).

Definition fail (now_ : string) (e : string) (j : JobStatus) : JobStatus :=
  set_error e
    (set_end_time now_
       (set_message ("Erro: " +:+ e) (set_progress 0 (set_status "failed" j)))).

Definition terminal (j : JobStatus) : bool :=
  String.eqb (status j) "completed" || String.eqb (status j) "failed".

(** What happens to the registry, in order: the lock is taken or released, or
    a job record is written (the record as the write leaves it). *)
Inductive job_event : Type :=
| Acquired
| Released
| Wrote (j : JobStatus).

(** The module-level state: [active_jobs], [job_lock], and the journal of
    what was done to them. *)
Record app_state : Type := AppState {
  active_jobs : gmap string JobStatus;
  job_lock : bool;
  journal : list job_event }.

Definition record_event (ev : job_event) (s : app_state) : app_state :=
  AppState (active_jobs s) (job_lock s) (journal s ++ [ev]).

(** [with job_lock: m] *)
Definition with_job_lock {A} (m : M app_state A) : M app_state A :=
  fun s =>
    let s1 := record_event Acquired (AppState (active_jobs s) true (journal s)) in
    let (r, s2) := m s1 in
    (r, record_event Released (AppState (active_jobs s2) false (journal s2))).

(** [job_id in active_jobs] *)
Definition job_known (id : string) : M app_state bool :=
  gets (fun s => bool_decide (is_Some (active_jobs s !! id))).

(** A method call or an attribute assignment on [active_jobs[id]]; the record
    is shared with the registry, which sees the change. *)
Definition on_job (id : string) (f : JobStatus -> JobStatus) : M app_state unit :=
  fun s =>
    match active_jobs s !! id with
    | Some j =>
        (Ok tt,
         record_event (Wrote (f j))
           (AppState (<[id := f j]> (active_jobs s)) (job_lock s) (journal s)))
    | None => (Raise ("'" +:+ id +:+ "'"), s)
    end.

(** *** Progress arithmetic *)

Definition float_of_nat (n : nat) : float :=
  PrimFloat.of_uint63 (Uint63.of_Z (Z.of_nat n)).

(** [int(x)]: truncation towards zero of a finite float. *)
Definition int_of_float (x : float) : Z :=
  match Prim2SF x with
  | S754_finite negative m e =>
      let magnitude :=
        match e with
        | Z0 => Z.pos m
        | Zpos p => Z.pos m * 2 ^ Zpos p
        | Zneg p => Z.pos m / 2 ^ Zpos p
        end in
      if negative then - magnitude else magnitude
  | _ => 0
  end.

(** [int((current_index / total_videos) * scale)] in binary64 arithmetic. *)
Definition scaled (current_index total_videos scale : nat) : Z :=
  int_of_float
    (PrimFloat.mul
       (PrimFloat.div (float_of_nat current_index) (float_of_nat total_videos))
       (float_of_nat scale)).

(** [video_url.split('watch?v=')[-1].split('&')[0] if 'watch?v=' in video_url
    else video_url[-11:]] *)
Definition video_id_of (video_url : string) : string :=
  match after_last "watch?v=" video_url with
  | Some rest => before_first "&"%char rest
  | None => last_chars 11 video_url
  end.

(** *** [process_channel_background] *)

(** Lines 226-247: the progress callback of [process_channel_background]. *)
Definition channel_progress_callback (id : string) : callback (U := app_state) :=
  fun video_url success total_videos current_index =>
    with_job_lock
      (known <- job_known id ;;
       when known
         (let video_id := video_id_of video_url in
          let status_text :=
            "📹 Vídeo " +:+ pretty current_index +:+ "/" +:+ pretty total_videos
              +:+ " processado" in
          if (total_videos =? 0)%nat then raise "division by zero"
          else
            let progress_percent := Z.min 90 (scaled current_index total_videos 90) in
            on_job id
              (update "processing" progress_percent
                 ("Processando canal... " +:+ status_text +:+ " | ID: "
                    +:+ video_id)))).

(** [sum(1 for video in videos if video.get('uploaded_to_gcp', False))] *)
Definition count_uploaded (videos : value) : Z :=
  match videos with
  | VList vs =>
      Z.of_nat
        (length
           (List.filter
              (fun v =>
                 match v with
                 | VDict d => truthy (dget_or "uploaded_to_gcp" (VBool false) d)
                 | _ => false
                 end)
              vs))
  | _ => 0
  end.

(** [len(videos)] *)
Definition count_videos (videos : value) : Z :=
  match videos with
  | VList vs => Z.of_nat (length vs)
  | _ => 0
  end.

(** [str(x)] of a count read back from a dictionary. *)
Definition show (v : value) : string :=
  match v with
  | VInt z => pretty z
  | VStr s => s
  | VBool true => "True"
  | VBool false => "False"
  | _ => "None"
  end.

Section Runners.

Variable E : env.

Abbreviation W := (world app_state).

(** Lines 209-214 and like them: [with job_lock: if job_id in active_jobs: body]. *)
Definition locked_if_known (id : string) (body : M app_state unit) : M W unit :=
  lift_user (with_job_lock (known <- job_known id ;; when known body)).

(** Lines 280-300: the final status, written under one hold of the lock.
    The inner [if result.get('success', False)] repeats the test of the
    enclosing [if] at line 257. *)
Definition final_status (id : string) (result : dict) : M app_state unit :=
  (if truthy (dget_or "success" (VBool false) result) then
     let gcp_upload :=
       match dget "gcp_upload" result with Some (VDict d) => d | _ => [] end in
     let gcp_error := show (dget_or "error" (VStr "não configurado") gcp_upload) in
     if match dget "type" result with
        | Some (VStr t) => String.eqb t "channel"
        | _ => false
        end
     then
       let total_videos := show (dget_or "total_videos" (VInt 0) result) in
       let downloaded := show (dget_or "downloaded_count" (VInt 0) result) in
       if truthy (dget_or "success" (VBool false) gcp_upload) then
         on_job id
           (update "completed" 100
              ("✅ Canal processado e enviado para GCP! " +:+ downloaded +:+ "/"
                 +:+ total_videos +:+ " vídeos"))
       else
         on_job id
           (update "completed" 100
              ("✅ Canal processado! " +:+ downloaded +:+ "/" +:+ total_videos
                 +:+ " vídeos (GCP: " +:+ gcp_error +:+ ")"))
     else
       if truthy (dget_or "success" (VBool false) gcp_upload) then
         on_job id (update "completed" 100 "✅ Vídeo baixado e enviado para GCP!")
       else
         on_job id
           (update "completed" 100 ("✅ Vídeo baixado! (GCP: " +:+ gcp_error +:+ ")"))
   else
     on_job id
       (update "failed" 0
          ("❌ Erro: " +:+ show (dget_or "error" (VStr "Erro desconhecido") result)))) ;;
  on_job id (set_results result).

(** Lines 201-304: the [try] block of [process_channel_background]. *)
Definition process_channel_body (id job_url : string) : M W dict :=
  let is_channel := is_channel_url job_url in
  locked_if_known id
    (if is_channel then
       on_job id (update "downloading" 10 "Iniciando processamento do canal...")
     else
       on_job id (update "downloading" 10 "Iniciando processamento do vídeo...")) ;;
  new_pipeline E ;;
  result <- process_url E job_url None 2500 (Some (channel_progress_callback id)) ;;
  (if truthy (dget_or "success" (VBool false) result) then
     download_summary <- get_download_summary E ;;
     result <-
       (if truthy (dget_or "gcp_available" (VBool false) download_summary) then
          locked_if_known id
            (on_job id (update "finalizing" 95 "Finalizando uploads para GCP...")) ;;
          let downloaded_videos := dget_or "downloaded_videos" (VList []) result in
          let uploaded_count := count_uploaded downloaded_videos in
          let total_count := count_videos downloaded_videos in
          let upload_result :=
            [("success", VBool (0 <? uploaded_count));
             ("uploaded_count", VInt uploaded_count);
             ("total_files", VInt total_count);
             ("failed_count", VInt (total_count - uploaded_count))] in
          ret (dset "gcp_upload" (VDict upload_result) result)
        else ret result) ;;
     locked_if_known id (final_status id result) ;;
     ret result
   else ret result).

Definition process_channel_background (id job_url : string) : M W dict :=
  try_catch
    (process_channel_body id job_url)
    (fun e =>
       locked_if_known id
         (on_job id (update "failed" 0 ("Erro: " +:+ e)) ;;
          on_job id (set_error e)) ;;
       ret [("success", VBool false); ("error", VStr e)]).

(** *** [process_youtube_url_background] *)

(** The options the [/process] route passes that the runner reads. *)
Record options : Type := Options {
  opt_filename : option string;
  opt_session_name : option string;
  opt_max_videos : option Z }.

(** Lines 90-102: the progress callback of [process_youtube_url_background];
    it writes the record without the lock. *)
Definition url_progress_callback (id : string) : callback (U := app_state) :=
  fun video_url success total_videos current_index =>
    if (total_videos =? 0)%nat then raise "division by zero"
    else
      let progress_percent := Z.min 90 (scaled current_index total_videos 80 + 10) in
      let video_id := video_id_of video_url in
      let counter := pretty current_index +:+ "/" +:+ pretty total_videos in
      let status_msg :=
        if truthy success then
          "✅ Vídeo " +:+ counter +:+ " processado e enviado | ID: " +:+ video_id
        else
          "⬇️ Baixando vídeo " +:+ counter +:+ " | ID: " +:+ video_id
            +:+ (if (1 <? current_index)%nat
                 then " (pode demorar para vídeos longos)" else "") in
      on_job id (update "processing" progress_percent status_msg).

(** Lines 75-143: the [try] block of [process_youtube_url_background]. *)
Definition process_youtube_url_body (id job_url : string) (opts : options)
  : M W unit :=
  new_pipeline E ;;
  lift_user (on_job id (update "downloading" 10 "Iniciando download...")) ;;
  session_name <-
    match opt_session_name opts with
    | Some n => if String.eqb n "" then
                  t <- now E "%Y%m%d_%H%M%S" ;; ret ("web_session_" +:+ t)
                else ret n
    | None => t <- now E "%Y%m%d_%H%M%S" ;; ret ("web_session_" +:+ t)
    end ;;
  _ <- create_session E (Some session_name) ;;
  result <-
    process_url E job_url (opt_filename opts)
      (default 2500 (opt_max_videos opts))
      (Some (url_progress_callback id)) ;;
  lift_user (on_job id (update "finalizing" 95 "Finalizando processamento...")) ;;
  download_summary <- get_download_summary E ;;
  let result := dset "download_summary" (VDict download_summary) result in
  (if truthy (dget_or "gcp_available" (VBool false) download_summary) then
     let is_video :=
       match dget "type" result with
       | Some (VStr t) => String.eqb t "video"
       | _ => false
       end in
     let downloaded_videos := dget_or "downloaded_videos" (VList []) result in
     let total_processed :=
       if is_video then 1 else count_videos downloaded_videos in
     let uploaded_count :=
       if is_video then
         (if truthy (dget_or "uploaded_to_gcp" (VBool false) result) then 1 else 0)
       else count_uploaded downloaded_videos in
     if uploaded_count =? total_processed then
       lift_user
         (on_job id
            (update "completed" 100
               ("✅ Processamento concluído! " +:+ pretty uploaded_count
                  +:+ " arquivos enviados para GCP.")))
     else if 0 <? uploaded_count then
       lift_user
         (on_job id
            (update "completed" 100
               ("⚠️ Processamento concluído! " +:+ pretty uploaded_count +:+ "/"
                  +:+ pretty total_processed +:+ " arquivos enviados para GCP.")))
     else
       lift_user
         (on_job id
            (update "completed" 100
               "⚠️ Processamento concluído, mas uploads GCP falharam. Arquivos salvos localmente."))
   else
     lift_user
       (on_job id
          (update "completed" 100
             "Processamento concluído! GCP não configurado - arquivos salvos localmente."))) ;;
  t <- now E "datetime" ;;
  lift_user (on_job id (complete t result)).

Definition process_youtube_url_background (id job_url : string) (opts : options)
  : M W unit :=
  known <- lift_user (job_known id) ;;
  if negb known then raise ("'" +:+ id +:+ "'")
  else
    try_catch
      (process_youtube_url_body id job_url opts)
      (fun e =>
         t <- now E "datetime" ;;
         lift_user (on_job id (fail t e))).

End Runners.

End App.

(** ** [app.py]: the routes that read and clean the registry *)

Module Routes.

Import App.

(** A Flask response: the JSON body and the HTTP status code. *)
Definition response : Type := (value * Z)%type.

(** An attribute that may be [None]. *)
Definition nullable (o : option string) : value :=
  match o with
  | Some s => VStr s
  | None => VNone
  end.

Definition not_found : response := (VDict [("error", VStr "Job não encontrado")], 404).

(** Lines 363-384: [get_status]. *)
Definition get_status (id : string) : M app_state response :=
  try_catch
    (with_job_lock
       (job <- gets (fun s => active_jobs s !! id) ;;
        match job with
        | None => ret not_found
        | Some job =>
            ret (VDict [("job_id", VStr (job_id job));
                        ("status", VStr (status job));
                        ("progress", VInt (progress job));
                        ("message", VStr (message job));
                        ("start_time", VStr (start_time job));
                        ("end_time", nullable (end_time job));
                        ("error", nullable (error job))], 200)
        end))
    (fun e => ret (VDict [("error", VStr "Erro interno do servidor")], 500)).

(** Lines 399-414: [clean_for_json], on the values a result is made of. *)
Fixpoint clean_for_json (obj : value) : value :=
  match obj with
  | VDict d => VDict (map (fun '(k, v) => (k, clean_for_json v)) d)
  | VList l => VList (map clean_for_json l)
  | _ => obj
  end.

Section Result.

(** [(end_time - start_time).total_seconds()] of two time stamps. *)
Variable total_seconds : string -> string -> value.

(** Lines 386-425: [get_result]. *)
Definition get_result (id : string) : M app_state response :=
  with_job_lock
    (job <- gets (fun s => active_jobs s !! id) ;;
     match job with
     | None => ret not_found
     | Some job =>
         if negb (String.eqb (status job) "completed") then
           ret (VDict [("error", VStr "Job ainda não foi concluído")], 400)
         else
           let results :=
             match results job with
             | Some r => if truthy (VDict r) then clean_for_json (VDict r) else VDict []
             | None => VDict []
             end in
           let gcp_upload :=
             match results with
             | VDict d => dget_or "gcp_upload" (VDict []) d
             | _ => VDict []
             end in
           ret (VDict [("job_id", VStr (job_id job));
                       ("status", VStr (status job));
                       ("results", results);
                       ("gcp_upload", gcp_upload);
                       ("processing_time",
                        match end_time job with
                        | Some t => total_seconds (start_time job) t
                        | None => VInt 0
                        end)], 200)
     end).

End Result.

(** Lines 482-489: [cleanup_job]. *)
Definition cleanup_job (id : string) : M app_state response :=
  with_job_lock
    (known <- job_known id ;;
     when known
       (modify (fun s => AppState (delete id (active_jobs s)) (job_lock s) (journal s)))) ;;
  ret (VDict [("message", VStr "Job removido")], 200).

End Routes.

(** ** Reading traces and results *)

(** The uploads the bucket accepted, as (local path, object key), in order. *)
Definition stored_uploads (evs : list event) : list (string * string) :=
  omap (fun ev => match ev with EvUpload l r true => Some (l, r) | _ => None end) evs.

Definition is_unlink (ev : event) : bool :=
  match ev with EvUnlink _ _ => true | _ => false end.

Definition unlink_failed (ev : event) : bool :=
  match ev with EvUnlink _ false => true | _ => false end.

Definition is_unlink_of (a m : string) (ev : event) : Prop :=
  exists ok, ev = EvUnlink a ok \/ ev = EvUnlink m ok.

Definition some_unlink_failed (evs : list event) : Prop :=
  exists p, In (EvUnlink p false) evs.

(** [d.get('success', False)] of an upload result. *)
Definition upload_ok (d : dict) : bool := truthy (dget_or "success" (VBool false) d).

(** The [result] dictionary of [download_single_video] before any upload. *)
Definition result0 (vid title url a m : string) (size dur : Z) : dict :=
  [("success", VBool true); ("video_id", VStr vid); ("title", VStr title);
   ("url", VStr url); ("audio_path", VStr a); ("metadata_path", VStr m);
   ("file_size", VInt size); ("duration", VInt dur);
   ("uploaded_to_gcp", VBool false); ("local_files_cleaned", VBool false)].

(** The path of the metadata sidecar of video [vid] in session directory [sdir]. *)
Definition metadata_path_of (sdir vid : string) : string :=
  path_join (path_join sdir "metadata") (vid +:+ "_metadata.json").

(** A result field counts as cleared when it is absent, [None] or empty. *)
Definition field_cleared (k : string) (r : dict) : Prop :=
  dget k r = None \/ dget k r = Some VNone \/ dget k r = Some (VStr "").

(** The callback invocations of a trace, in order. *)
Definition callbacks (evs : list event) : list (string * value * nat * nat) :=
  omap (fun ev =>
          match ev with
          | EvCallback u s t i => Some (u, s, t, i)
          | _ => None
          end) evs.

Section Traces.

Context {U : Type}.

(** [w'] continues [w]: it adds [evs] to the trace and keeps the session. *)
Definition ext (w : world U) (evs : list event) (w' : world U) : Prop :=
  log w' = log w ++ evs /\ current_session w' = current_session w /\
  session_dir w' = session_dir w.

(** What the upload block can have done to the result [res] of a video with
    audio file [a] and sidecar [m]: either at most one upload was stored and
    the result is unchanged, or both were stored, the result is marked
    uploaded, and then only [a] and [m] were unlinked. *)
Definition upload_outcome (a m ra rm : string) (res res' : dict) (w' : world U)
    (evs : list event) : Prop :=
  (res' = res /\
   (evs = [] \/ evs = [EvUpload a ra false] \/ evs = [EvUpload a ra true] \/
    evs = [EvUpload a ra true; EvUpload m rm false]))
  \/ (exists dels u1 u2,
        evs = EvUpload a ra true :: EvUpload m rm true :: dels /\
        Forall (is_unlink_of a m) dels /\
        is_Some (bucket w' !! ra) /\ is_Some (bucket w' !! rm) /\
        let res2 :=
          dset "gcp_metadata_url" u2
            (dset "gcp_audio_url" u1 (dset "uploaded_to_gcp" (VBool true) res)) in
        ((res' = dset "local_files_cleaned" (VBool true) res2 /\
          files w' !! a = None /\ files w' !! m = None /\
          ~ some_unlink_failed dels)
         \/ (res' = res2 /\ some_unlink_failed dels))).

(** A callback that returns normally on every call (no callback does). *)
Definition never_raises (cb : option (callback (U := U))) : Prop :=
  match cb with
  | None => True
  | Some f => forall u s t i st, exists st', f u s t i st = (Ok tt, st')
  end.

(** The one call a loop turn owes the callback, when there is a callback. *)
Definition expected_calls (cb : option (callback (U := U))) (u : string)
    (s : value) (t i : nat) : list (string * value * nat * nat) :=
  match cb with None => [] | Some _ => [(u, s, t, i)] end.

End Traces.

(** What the callback is told over a whole loop: one report per video of
    [urls], with its outcome from [flags], the total, and the one-based index,
    counting on from [k]. *)
Fixpoint reports (k total : nat) (urls : list string) (flags : list value)
  : list (string * value * nat * nat) :=
  match urls, flags with
  | u :: urls', s :: flags' =>
      (u, s, total, (k + 1)%nat) :: reports (S k) total urls' flags'
  | _, _ => []
  end.

Definition expected_reports {U} (cb : option (callback (U := U))) (total : nat)
    (urls : list string) (flags : list value) : list (string * value * nat * nat) :=
  match cb with None => [] | Some _ => reports 0 total urls flags end.

(** How many of the outcomes are successes. *)
Definition successes (flags : list value) : nat :=
  length (List.filter truthy flags).

(** Lines 238-239: the enumeration after the cap. *)
Definition capped (all_urls : list string) (max_videos : Z) : list string :=
  if max_videos <? Z.of_nat (length all_urls)
  then slice_to all_urls max_videos else all_urls.

(** ** What a status poller can see *)

Module Poll.

Import App.

(** The records visible to a reader that takes [job_lock], in order.  A write
    made without the lock shows at once; writes made while the lock is held
    are hidden, and the last of them shows when the lock is released. *)
Fixpoint visible_from (held : bool) (pending : option JobStatus)
    (evs : list job_event) : list JobStatus :=
  match evs with
  | [] => []
  | Acquired :: evs' => visible_from true None evs'
  | Released :: evs' =>
      match pending with
      | Some j => j :: visible_from false None evs'
      | None => visible_from false None evs'
      end
  | Wrote j :: evs' =>
      if held then visible_from true (Some j) evs'
      else j :: visible_from false None evs'
  end.

Definition visible (evs : list job_event) : list JobStatus :=
  visible_from false None evs.

(** [status] and [progress] of each record. *)
Definition brief (js : list JobStatus) : list (string * Z) :=
  map (fun j => (status j, progress j)) js.

(** Progress does not decrease from one record to the next while neither is
    terminal. *)
Fixpoint progress_monotone (js : list JobStatus) : bool :=
  match js with
  | j1 :: ((j2 :: _) as rest) =>
      (terminal j1 || terminal j2 || (progress j1 <=? progress j2))
      && progress_monotone rest
  | _ => true
  end.

(** Progress is 0 exactly in the failed state, and 100 in the completed state. *)
Definition progress_fits_state (j : JobStatus) : bool :=
  Bool.eqb (progress j =? 0) (String.eqb (status j) "failed")
  && (negb (String.eqb (status j) "completed") || (progress j =? 100)).

(** A terminal record has exactly one of [results] and [error]. *)
Definition outcome_recorded (j : JobStatus) : bool :=
  negb (terminal j)
  || xorb (bool_decide (is_Some (results j))) (bool_decide (is_Some (error j))).

End Poll.

(** ** Threads: a runner writing a record while a poller reads it *)

Module Interleaving.

Import App.

Inductive thread : Type := Writer | Poller.

(** The atomic steps of a thread: taking and releasing [job_lock], one
    attribute assignment, one attribute read. *)
Inductive action : Type :=
| Lock
| Unlock
| Store (f : JobStatus -> JobStatus)
| LoadStatus
| LoadProgress
| LoadMessage.

(** What the poller has read so far. *)
Record view : Type := View {
  seen_status : option string;
  seen_progress : option Z;
  seen_message : option string }.

Record config : Type := Config {
  shared : JobStatus;
  lock_owner : option thread;
  writer : list action;
  poller : list action;
  seen : view }.

(** [JobStatus.update(status, progress, message)], lines 51-53, called without
    the lock as in [process_youtube_url_background]. *)
Definition update_unlocked (s : string) (p : Z) (m : string) : list action :=
  [Store (set_status s); Store (set_progress p); Store (set_message m)].

(** The same call inside [with job_lock:], as in [process_channel_background]. *)
Definition update_locked (s : string) (p : Z) (m : string) : list action :=
  [Lock] ++ update_unlocked s p m ++ [Unlock].

(** [get_status], lines 367-381: the three fields are read under the lock. *)
Definition get_status : list action :=
  [Lock; LoadStatus; LoadProgress; LoadMessage; Unlock].

Definition start (j : JobStatus) (w p : list action) : config :=
  Config j None w p (View None None None).

Definition thread_eqb (a b : thread) : bool :=
  match a, b with
  | Writer, Writer | Poller, Poller => true
  | _, _ => false
  end.

(** One step of thread [t]; [None] when [t] has finished or waits for the lock. *)
Definition step (t : thread) (c : config) : option config :=
  let program := match t with Writer => writer c | Poller => poller c end in
  match program with
  | [] => None
  | a :: rest =>
      let c' :=
        match t with
        | Writer => Config (shared c) (lock_owner c) rest (poller c) (seen c)
        | Poller => Config (shared c) (lock_owner c) (writer c) rest (seen c)
        end in
      match a with
      | Lock =>
          match lock_owner c with
          | None => Some (Config (shared c') (Some t) (writer c') (poller c') (seen c'))
          | Some _ => None
          end
      | Unlock => Some (Config (shared c') None (writer c') (poller c') (seen c'))
      | Store f =>
          Some (Config (f (shared c')) (lock_owner c') (writer c') (poller c') (seen c'))
      | LoadStatus =>
          Some (Config (shared c') (lock_owner c') (writer c') (poller c')
                  (View (Some (status (shared c))) (seen_progress (seen c))
                     (seen_message (seen c))))
      | LoadProgress =>
          Some (Config (shared c') (lock_owner c') (writer c') (poller c')
                  (View (seen_status (seen c)) (Some (progress (shared c)))
                     (seen_message (seen c))))
      | LoadMessage =>
          Some (Config (shared c') (lock_owner c') (writer c') (poller c')
                  (View (seen_status (seen c)) (seen_progress (seen c))
                     (Some (message (shared c)))))
      end
  end.

(** The threads take their steps in the order [schedule] gives. *)
Fixpoint run (schedule : list thread) (c : config) : option config :=
  match schedule with
  | [] => Some c
  | t :: schedule' =>
      match step t c with
      | Some c' => run schedule' c'
      | None => None
      end
  end.

(** The view of a reader that saw record [j] whole. *)
Definition whole (j : JobStatus) : view :=
  View (Some (status j)) (Some (progress j)) (Some (message j)).

End Interleaving.

(** ** Scenarios *)

(** Concrete collaborators and worlds on which the model is run. *)
Module Scenario.

(** Every collaborator works: a video has the id its URL ends with, its audio
    is written under [/data/audio], the channel has the videos [urls], the
    bucket accepts every upload. *)
Definition working (urls : list string) : env :=
  Env "/data/output"
    (fun _ u => Ok (VideoInfo (Some "Title") (Some (App.video_id_of u)) (Some 60)))
    (fun _ u _ => Ok ("/data/audio/" +:+ App.video_id_of u +:+ ".flac", Some 4096))
    (fun _ _ => Ok (Some "/data/output/youtube_scans/videos.txt"))
    (fun _ _ => Ok urls)
    true
    "dataset_youtube_katube"
    (fun _ _ _ => None)
    (fun t _ => pretty t)
    (fun t => Z.of_nat t)
    (fun _ _ => None)
    (fun _ _ => Ok 256)
    (fun _ _ => None)
    (fun _ => None).

(** As [working], but the local files cannot be removed. *)
Definition undeletable (urls : list string) : env :=
  let e := working urls in
  Env (output_base_dir e) (youtube_get_video_info e) (youtube_download e)
    (scanner_scan_channel e) (scanner_get_video_urls e) (gcs_available e)
    (gcs_bucket_name e) (gcs_upload_error e) (os_now e) (os_time e)
    (os_mkdir_error e) (os_write e)
    (fun _ _ => Some "[Errno 13] Permission denied")
    (pipeline_init_error e).

(** As [working], but no directory can be created. *)
Definition read_only_disk (urls : list string) : env :=
  let e := working urls in
  Env (output_base_dir e) (youtube_get_video_info e) (youtube_download e)
    (scanner_scan_channel e) (scanner_get_video_urls e) (gcs_available e)
    (gcs_bucket_name e) (gcs_upload_error e) (os_now e) (os_time e)
    (fun _ _ => Some "[Errno 30] Read-only file system")
    (os_write e) (os_unlink_error e) (pipeline_init_error e).

(** As [working], but the channel scan finds no list. *)
Definition unscannable : env :=
  let e := working [] in
  Env (output_base_dir e) (youtube_get_video_info e) (youtube_download e)
    (fun _ _ => Ok None)
    (scanner_get_video_urls e) (gcs_available e)
    (gcs_bucket_name e) (gcs_upload_error e) (os_now e) (os_time e)
    (os_mkdir_error e) (os_write e) (os_unlink_error e) (pipeline_init_error e).

(** A callback that fails on a success report and accepts a failure report. *)
Definition picky : callback (U := unit) :=
  fun _ success _ _ => if truthy success then raise "callback failed" else ret tt.

(** A callback that does nothing. *)
Definition quiet : callback (U := unit) := fun _ _ _ _ => ret tt.

(** The registry with one job, [job-1], just submitted for [job_url]. *)
Definition submitted (job_url : string) : App.app_state :=
  App.AppState {[ "job-1" := App.new_job "job-1" job_url "2025-01-01T00:00:00" ]}
    false [].

(** A fresh process with nothing on disk, and the same with a session open. *)
Definition fresh {U} (u : U) : world U := World ∅ ∅ 0 [] None None u.

Definition in_session {U} (u : U) : world U :=
  World ∅ ∅ 0 [] (Some "s1") (Some "/data/output/s1") u.

Definition video_url : string := "https://www.youtube.com/watch?v=dQw4w9WgXcQ".
Definition channel_url : string := "https://www.youtube.com/@katube".

(** [n] video URLs, numbered from [k]. *)
Fixpoint videos_from (k n : nat) : list string :=
  match n with
  | O => []
  | S n' =>
      ("https://www.youtube.com/watch?v=video" +:+ pretty k) :: videos_from (S k) n'
  end.

End Scenario.

(** ** Invariants of computations *)

(** A Hoare triple for a computation over state [S], read through [pr]: from
    a state whose projection satisfies [P], a normal return [a] leaves one
    that satisfies [Q a], and an exception [e] one that satisfies [R e]. *)
Definition triple {S U A} (pr : S -> U) (P : U -> Prop) (m : M S A)
    (Q : A -> U -> Prop) (R : string -> U -> Prop) : Prop :=
  forall s r s', m s = (r, s') -> P (pr s) ->
    match r with
    | Ok a => Q a (pr s')
    | Raise e => R e (pr s')
    end.

(** [m] keeps [I], however it ends. *)
Definition keeps {S U A} (pr : S -> U) (I : U -> Prop) (m : M S A) : Prop :=
  triple pr I m (fun _ => I) (fun _ => I).

(** Every call of the callback keeps [I] on its owner's state. *)
Definition callback_keeps {U} (I : U -> Prop) (cb : option (callback (U := U))) : Prop :=
  match cb with
  | None => True
  | Some f => forall u s t i, keeps (fun st => st) I (f u s t i)
  end.

(** [I], read through [pr], survives what every video does: counting an
    external call, writing a local file, and tracing a download or a callback
    invocation. *)
Record stable {U X} (pr : world U -> X) (I : X -> Prop) : Prop := Stable {
  stable_tick : forall w, I (pr w) -> I (pr (next_tick w));
  stable_write : forall p size w,
    I (pr w) -> I (pr (set_files (<[p := size]> (files w)) w));
  stable_download : forall u p w, I (pr w) -> I (pr (emit (EvDownload u p) w));
  stable_callback : forall u s t i w,
    I (pr w) -> I (pr (emit (EvCallback u s t i) w)) }.

(** [I] also survives the opening of a session. *)
Record survives_session {U X} (pr : world U -> X) (I : X -> Prop) : Prop :=
  SurvivesSession {
  session_named : forall s w, I (pr w) -> I (pr (set_current_session s w));
  session_placed : forall d w, I (pr w) -> I (pr (set_session_dir d w)) }.

(** [I] also survives an upload attempt and a stored object. *)
Record survives_upload {U X} (pr : world U -> X) (I : X -> Prop) : Prop := SurvivesUpload {
  upload_traced : forall l r ok w, I (pr w) -> I (pr (emit (EvUpload l r ok) w));
  upload_stored : forall k md w,
    I (pr w) -> I (pr (set_bucket (<[k := md]> (bucket w)) w)) }.

(** [I] also survives an unlink attempt and a removed file. *)
Record survives_unlink {U X} (pr : world U -> X) (I : X -> Prop) : Prop := SurvivesUnlink {
  unlink_traced : forall p ok w, I (pr w) -> I (pr (emit (EvUnlink p ok) w));
  unlink_removed : forall p w,
    I (pr w) -> I (pr (set_files (delete p (files w)) w)) }.

(** An event that moves data out of the machine or removes it. *)
Definition is_transfer (ev : event) : bool :=
  match ev with
  | EvUpload _ _ _ | EvUnlink _ _ => true
  | _ => false
  end.

(** The URLs a trace downloaded, in order. *)
Definition downloads (evs : list event) : list string :=
  omap (fun ev => match ev with EvDownload u _ => Some u | _ => None end) evs.

(** The trace since [l0] downloaded videos of [urls] only. *)
Definition downloads_within (urls : list string) (l0 l : list event) : Prop :=
  exists evs, l = l0 ++ evs /\ Forall (fun u => In u urls) (downloads evs).

(** The two session fields of the pipeline object. *)
Definition session_of {U} (w : world U) : option string * option string :=
  (current_session w, session_dir w).

(** A result that says whether it succeeded and counts what it downloaded
    and what failed. *)
Definition counted (d : dict) : Prop :=
  (exists b, dget "success" d = Some (VBool b)) /\
  exists n m,
    dget "downloaded_count" d = Some (VInt n) /\
    dget "failed_count" d = Some (VInt m) /\ 0 <= n /\ 0 <= m.

(** A float that is not a negative number (a zero, an infinity and a NaN
    count: [int_of_float] reads them as 0). *)
Definition not_negative (x : spec_float) : Prop :=
  match x with
  | S754_finite true _ _ => False
  | _ => True
  end.

(** ** Job records *)

(** The registry holds job [id], and its record satisfies [P]. *)
Definition job_is (id : string) (P : App.JobStatus -> Prop) (s : App.app_state) : Prop :=
  exists j, App.active_jobs s !! id = Some j /\ P j.

(** Nothing recorded yet. *)
Definition unsettled (j : App.JobStatus) : Prop :=
  App.results j = None /\ App.error j = None.

(** Nothing recorded, and not in a terminal state. *)
Definition running (j : App.JobStatus) : Prop :=
  unsettled j /\ App.terminal j = false.

Definition completed_with_result (j : App.JobStatus) : Prop :=
  App.status j = "completed" /\ App.progress j = 100 /\
  is_Some (App.results j) /\ App.error j = None.

Definition failed_with_error (j : App.JobStatus) : Prop :=
  App.status j = "failed" /\ App.progress j = 0 /\
  is_Some (App.error j) /\ App.results j = None.

(** Every write of [evs] is made with the lock held, by blocks that take the
    lock and release it; [held] says whether the lock is held at the start,
    and it is free at the end. *)
Fixpoint all_locked_from (held : bool) (evs : list App.job_event) : bool :=
  match evs with
  | [] => negb held
  | App.Acquired :: evs' => negb held && all_locked_from true evs'
  | App.Released :: evs' => held && all_locked_from false evs'
  | App.Wrote _ :: evs' => held && all_locked_from true evs'
  end.

Definition all_locked (evs : list App.job_event) : bool := all_locked_from false evs.

(** [m] does not raise, and all it does to the registry is to write the record
    of job [id], which goes from [P] to [Q]: the journal gains the writes
    [ws], and the record is left as the last of them left it. *)
Definition writes {A} (id : string) (m : M App.app_state A)
    (P Q : App.JobStatus -> Prop) : Prop :=
  forall s j, App.active_jobs s !! id = Some j -> P j ->
    exists a s' ws,
      m s = (Ok a, s') /\
      App.journal s' = App.journal s ++ map App.Wrote ws /\
      App.active_jobs s' !! id = Some (List.last ws j) /\
      Q (List.last ws j).

(** Since the journal was [j0]: every write was made under the lock, no reader
    that takes the lock saw a terminal record without its outcome, and the
    record of job [id] satisfies [P]. *)
Definition polled_well (id : string) (j0 : list App.job_event)
    (P : App.JobStatus -> Prop) (s : App.app_state) : Prop :=
  exists evs,
    App.journal s = j0 ++ evs /\ all_locked evs = true /\
    forallb Poll.outcome_recorded (Poll.visible evs) = true /\
    job_is id P s.

(** [result.get('success', False)] *)
Definition succeeded (d : dict) : bool := truthy (dget_or "success" (VBool false) d).

(** The two lists of a channel run hold what their names say: successes in the
    first, failures in the second. *)
Definition sorted_by_success (lists : list dict * list dict) : Prop :=
  Forall (fun v => succeeded v = true) (fst lists) /\
  Forall (fun v => succeeded v = false) (snd lists).

(** How many results the two lists of a channel run hold. *)
Definition filed (lists : list dict * list dict) : nat :=
  (length (fst lists) + length (snd lists))%nat.

(** The pipeline works in the session [download_session_<ts>], and [d] is a
    result of that session (or of a run that raised). *)
Definition in_own_session {U} (ts : string) (d : dict) (w : world U) : Prop :=
  current_session w = Some ("download_session_" +:+ ts) /\
  (dget "type" d = Some (VStr "unknown") \/
   dget "session_name" d = Some (VStr ("download_session_" +:+ ts))).

(** ** More scenarios *)

Module Cases.

(** As [Scenario.working], but no object store is configured. *)
Definition offline (urls : list string) : env :=
  let e := Scenario.working urls in
  Env (output_base_dir e) (youtube_get_video_info e) (youtube_download e)
    (scanner_scan_channel e) (scanner_get_video_urls e) false
    (gcs_bucket_name e) (gcs_upload_error e) (os_now e) (os_time e)
    (os_mkdir_error e) (os_write e) (os_unlink_error e) (pipeline_init_error e).

(** As [Scenario.working], but the bucket refuses every upload. *)
Definition rejecting (urls : list string) : env :=
  let e := Scenario.working urls in
  Env (output_base_dir e) (youtube_get_video_info e) (youtube_download e)
    (scanner_scan_channel e) (scanner_get_video_urls e) (gcs_available e)
    (gcs_bucket_name e)
    (fun _ _ _ => Some "403 Forbidden")
    (os_now e) (os_time e)
    (os_mkdir_error e) (os_write e) (os_unlink_error e) (pipeline_init_error e).

(** As [Scenario.working], but YouTube serves nothing. *)
Definition unreachable (urls : list string) : env :=
  let e := Scenario.working urls in
  Env (output_base_dir e)
    (fun _ _ => Raise "Video unavailable")
    (youtube_download e)
    (scanner_scan_channel e) (scanner_get_video_urls e) (gcs_available e)
    (gcs_bucket_name e) (gcs_upload_error e) (os_now e) (os_time e)
    (os_mkdir_error e) (os_write e) (os_unlink_error e) (pipeline_init_error e).

(** As [Scenario.working], but the downloader names a file it did not write. *)
Definition fileless (urls : list string) : env :=
  let e := Scenario.working urls in
  Env (output_base_dir e) (youtube_get_video_info e)
    (fun _ u _ => Ok ("/data/audio/" +:+ App.video_id_of u +:+ ".flac", None))
    (scanner_scan_channel e) (scanner_get_video_urls e) (gcs_available e)
    (gcs_bucket_name e) (gcs_upload_error e) (os_now e) (os_time e)
    (os_mkdir_error e) (os_write e) (os_unlink_error e) (pipeline_init_error e).

End Cases.

(** * Proofs *)

(** ** The per-video processor *)

Section VideoProofs.

Context {U : Type}.
Variable E : env.

Abbreviation W := (world U).

Lemma unlink_cases p (w : W) :
  (files w !! p = None /\ exists e, unlink E p w = (Raise e, w)) \/
  (exists w', is_Some (files w !! p) /\
     ((exists e, unlink E p w = (Raise e, w') /\
        files w' = files w /\ log w' = log w ++ [EvUnlink p false])
      \/ (unlink E p w = (Ok tt, w') /\
        files w' = delete p (files w) /\ log w' = log w ++ [EvUnlink p true])) /\
     bucket w' = bucket w).
Proof.
  unfold unlink. destruct (files w !! p) eqn:Hf.
  - right. destruct (os_unlink_error E (tick w) p) eqn:He.
    + eexists. split; [eauto|]. split; [left; eexists; split; [reflexivity|]|];
        destruct w; auto.
    + eexists. split; [eauto|]. split; [right; split; [reflexivity|]|];
        destruct w; auto.
  - left. eauto.
Qed.

Lemma cleanup_local_files_spec a m (res : dict) (w : W) :
  exists res' w' dels,
    cleanup_local_files E a m (res, w) = (Ok tt, (res', w')) /\
    log w' = log w ++ dels /\ bucket w' = bucket w /\
    Forall (is_unlink_of a m) dels /\
    ((res' = dset "local_files_cleaned" (VBool true) res /\
      files w' !! a = None /\ files w' !! m = None /\
      ~ some_unlink_failed dels)
     \/ (res' = res /\ some_unlink_failed dels)).
Proof.
  unfold cleanup_local_files, try_catch, bind, lift, path_exists, when,
    modify_local, ret.
  cbn [fst snd].
  destruct (files w !! a) eqn:Ha.
  - cbn [fst snd]. destruct (unlink_cases a w) as [[Hn _]|(w1 & _ & Hu & Hb1)]; [congruence|].
    destruct Hu as [(e & -> & Hf1 & Hl1)|(-> & Hf1 & Hl1)].
    + exists res, w1, [EvUnlink a false]. repeat split; auto.
      * constructor; [exists false; auto|constructor].
      * right. split; auto. exists a. left. reflexivity.
    + cbn [fst snd].
      destruct (files w1 !! m) eqn:Hm.
      * cbn [fst snd]. destruct (unlink_cases m w1) as [[Hn _]|(w2 & _ & Hu & Hb2)]; [congruence|].
        destruct Hu as [(e & -> & Hf2 & Hl2)|(-> & Hf2 & Hl2)].
        -- exists res, w2, [EvUnlink a true; EvUnlink m false].
           repeat split; auto.
           ++ rewrite Hl2, Hl1, <- app_assoc. reflexivity.
           ++ congruence.
           ++ repeat constructor; [exists true; auto|exists false; auto].
           ++ right. split; auto. exists m. right. left. reflexivity.
        -- exists (dset "local_files_cleaned" (VBool true) res), w2,
             [EvUnlink a true; EvUnlink m true].
           repeat split; auto.
           ++ rewrite Hl2, Hl1, <- app_assoc. reflexivity.
           ++ congruence.
           ++ repeat constructor; exists true; auto.
           ++ left. repeat split; auto.
              ** rewrite Hf2, Hf1.
                 destruct (decide (m = a)) as [->|Hne].
                 --- apply lookup_delete_eq.
                 --- rewrite lookup_delete_ne by auto. apply lookup_delete_eq.
              ** rewrite Hf2. apply lookup_delete_eq.
              ** intros [p [Hp|[Hp|[]]]]; discriminate.
      * exists (dset "local_files_cleaned" (VBool true) res), w1, [EvUnlink a true].
        repeat split; auto.
        -- repeat constructor; exists true; auto.
        -- left. repeat split; auto.
           ++ rewrite Hf1. apply lookup_delete_eq.
           ++ intros [p [Hp|[]]]; discriminate.
  - cbn [fst snd].
    destruct (files w !! m) eqn:Hm.
    + cbn [fst snd]. destruct (unlink_cases m w) as [[Hn _]|(w2 & _ & Hu & Hb2)]; [congruence|].
      destruct Hu as [(e & -> & Hf2 & Hl2)|(-> & Hf2 & Hl2)].
      * exists res, w2, [EvUnlink m false]. repeat split; auto.
        -- repeat constructor; exists false; auto.
        -- right. split; auto. exists m. left. reflexivity.
      * exists (dset "local_files_cleaned" (VBool true) res), w2, [EvUnlink m true].
        repeat split; auto.
        -- repeat constructor; exists true; auto.
        -- left. repeat split; auto.
           ++ rewrite Hf2. destruct (decide (m = a)) as [->|Hne].
              ** apply lookup_delete_eq.
              ** rewrite lookup_delete_ne by auto. exact Ha.
           ++ rewrite Hf2. apply lookup_delete_eq.
           ++ intros [p [Hp|[]]]; discriminate.
    + exists (dset "local_files_cleaned" (VBool true) res), w, [].
      repeat split; auto.
      * rewrite app_nil_r. reflexivity.
      * left. repeat split; auto. intros [p []].
Qed.

Lemma upload_file_spec l r md (w : W) :
  exists d w',
    upload_file E l r md w = (Ok d, w') /\ files w' = files w /\
    ((upload_ok d = true /\ log w' = log w ++ [EvUpload l r true] /\
      (exists md', bucket w' = <[r := md']> (bucket w)) /\
      is_Some (files w !! l))
     \/ (upload_ok d = false /\ bucket w' = bucket w /\
         (log w' = log w \/ log w' = log w ++ [EvUpload l r false]))).
Proof.
  unfold upload_file, bind, is_available, ret, path_exists, try_catch,
    blob_upload_from_filename, stat_size.
  destruct (gcs_available E); cbn [negb].
  2: { do 2 eexists. split; [reflexivity|]. split; [reflexivity|].
       right. repeat split; auto. }
  destruct (files w !! l) eqn:Hl; cbn [negb].
  2: { do 2 eexists. split; [reflexivity|]. split; [reflexivity|].
       right. repeat split; auto. }
  destruct (gcs_upload_error E (tick w) l r) eqn:He.
  - do 2 eexists. split; [reflexivity|]. destruct w; cbn.
    split; [reflexivity|]. right. repeat split; auto.
  - destruct w as [f b t lg cs sd u]; cbn in *. rewrite Hl.
    do 2 eexists. split; [reflexivity|]. cbn.
    split; [reflexivity|]. left. repeat split; eauto.
Qed.

Lemma upload_immediately_spec vid title dur a m (res : dict) (w : W) :
  exists res' w' evs,
    upload_immediately E vid title dur a m (res, w) = (Ok tt, (res', w')) /\
    log w' = log w ++ evs /\
    let sn := default "unknown_session" (current_session w) in
    upload_outcome a m (audio_remote_path sn a) (metadata_remote_path sn m)
      res res' w' evs.
Proof.
  unfold upload_immediately, bind, lift, gets, now, modify_local, ret.
  cbn [fst snd].
  set (sn := default "unknown_session" (current_session w)).
  set (ra := audio_remote_path sn a). set (rm := metadata_remote_path sn m).
  match goal with
  | |- context [upload_file E a ra ?md ?w1] =>
      destruct (upload_file_spec a ra md w1) as (d1 & w2 & -> & Hf2 & H2)
  end.
  cbn [fst snd]. fold (upload_ok d1).
  assert (Hl1 : log (next_tick w) = log w) by (destruct w; reflexivity).
  destruct H2 as [(-> & Hl2 & (md1 & Hb2) & Hs2)|(-> & Hb2 & Hl2)].
  2: { exists res, w2. destruct Hl2 as [Hl2|Hl2]; rewrite Hl1 in Hl2.
       - exists []. split; [reflexivity|]. split; [rewrite app_nil_r; auto|].
         left. auto.
       - exists [EvUpload a ra false]. split; [reflexivity|]. split; [auto|].
         left. auto. }
  cbn [fst snd].
  match goal with
  | |- context [upload_file E m rm ?md w2] =>
      destruct (upload_file_spec m rm md w2) as (d2 & w3 & -> & Hf3 & H3)
  end.
  cbn [fst snd]. fold (upload_ok d2).
  destruct H3 as [(-> & Hl3 & (md2 & Hb3) & Hs3)|(-> & Hb3 & Hl3)].
  2: { exists res, w3. destruct Hl3 as [Hl3|Hl3]; rewrite Hl2, Hl1 in Hl3.
       - exists [EvUpload a ra true]. split; [reflexivity|]. split; [auto|].
         left. auto.
       - exists [EvUpload a ra true; EvUpload m rm false].
         split; [reflexivity|]. split; [rewrite Hl3, <- app_assoc; auto|].
         left. auto 6. }
  cbn [fst snd].
  match goal with
  | |- context [cleanup_local_files E a m (?r2, w3)] =>
      destruct (cleanup_local_files_spec a m r2 w3)
        as (res' & w4 & dels & -> & Hl4 & Hb4 & Hfa & Hc)
  end.
  exists res', w4, (EvUpload a ra true :: EvUpload m rm true :: dels).
  split; [reflexivity|]. split.
  { rewrite Hl4, Hl3, Hl2, Hl1, <- !app_assoc. reflexivity. }
  right. eexists dels, _, _. split; [reflexivity|]. split; [auto|].
  rewrite Hb4, Hb3, Hb2. split.
  { destruct (decide (rm = ra)) as [->|Hne].
    - rewrite lookup_insert_eq. eauto.
    - rewrite lookup_insert_ne by auto. rewrite lookup_insert_eq. eauto. }
  split; [rewrite lookup_insert_eq; eauto|].
  exact Hc.
Qed.

Lemma ext_refl (w : W) : ext w [] w.
Proof. unfold ext. rewrite app_nil_r. auto. Qed.

Lemma ext_trans (w1 w2 w3 : W) e1 e2 :
  ext w1 e1 w2 -> ext w2 e2 w3 -> ext w1 (e1 ++ e2) w3.
Proof.
  intros (Hl1 & Hc1 & Hs1) (Hl2 & Hc2 & Hs2). unfold ext.
  rewrite Hl2, Hl1, Hc2, Hc1, Hs2, Hs1, app_assoc. auto.
Qed.

Lemma get_video_info_ext url (w w' : W) r :
  get_video_info E url w = (r, w') -> ext w [] w'.
Proof.
  unfold get_video_info. intros [= <- <-]. destruct w. unfold ext. cbn.
  rewrite app_nil_r. auto.
Qed.

Lemma now_ext fmt (w w' : W) r : now E fmt w = (r, w') -> ext w [] w'.
Proof.
  unfold now. intros [= <- <-]. destruct w. unfold ext. cbn.
  rewrite app_nil_r. auto.
Qed.

Lemma downloader_download_ext url fn (w w' : W) r :
  downloader_download E url fn w = (r, w') ->
  match r with
  | Ok a => ext w [EvDownload url a] w'
  | Raise _ => ext w [] w'
  end.
Proof.
  unfold downloader_download.
  destruct (youtube_download E (tick w) url fn) as [[a [size|]]|e];
    intros [= <- <-]; destruct w; unfold ext; cbn; rewrite ?app_nil_r; auto.
Qed.

Lemma path_exists_same p (w w' : W) r : path_exists p w = (r, w') -> w' = w.
Proof. unfold path_exists. destruct (files w !! p); intros [= <- <-]; auto. Qed.

Lemma stat_size_same p (w w' : W) r : stat_size p w = (r, w') -> w' = w.
Proof. unfold stat_size. destruct (files w !! p); intros [= <- <-]; auto. Qed.

Lemma write_file_ext p (w w' : W) r : write_file E p w = (r, w') -> ext w [] w'.
Proof.
  unfold write_file. destruct (os_write E (tick w) p);
    intros [= <- <-]; destruct w; unfold ext; cbn; rewrite app_nil_r; auto.
Qed.

Lemma download_single_video_spec url fn up (w : W) sdir :
  session_dir w = Some sdir ->
  exists r w' evs,
    download_single_video E url fn up w = (Ok r, w') /\
    log w' = log w ++ evs /\
    ((exists e, r = [("success", VBool false); ("url", VStr url); ("error", VStr e)] /\
        (evs = [] \/ exists a, evs = [EvDownload url a]))
     \/ (exists a vid title size dur ups,
          let m := metadata_path_of sdir vid in
          let sn := default "unknown_session" (current_session w) in
          evs = EvDownload url a :: ups /\
          upload_outcome a m (audio_remote_path sn a) (metadata_remote_path sn m)
            (result0 vid title url a m size dur) r w' ups /\
          (up && gcs_available E = false -> ups = []))).
Proof.
  intros Hsd. unfold download_single_video, bind, gets. rewrite Hsd.
  unfold try_catch, bind, ret, is_available, with_locals.
  destruct (get_video_info E url w) as [[vi|e] w1] eqn:H1;
    apply get_video_info_ext in H1 as (Hl1 & Hc1 & _).
  2: { do 3 eexists. split; [reflexivity|]. split; [eassumption|]. left. eauto. }
  destruct (downloader_download E url fn w1) as [[a|e] w2] eqn:H2;
    apply downloader_download_ext in H2 as (Hl2 & Hc2 & _).
  2: { do 3 eexists. split; [reflexivity|].
       split; [rewrite Hl2, Hl1, <- app_assoc; reflexivity|left; eauto]. }
  destruct (now E "isoformat" w2) as [[dt|e] w3] eqn:H3;
    [|unfold now in H3; discriminate].
  apply now_ext in H3 as (Hl3 & Hc3 & _).
  destruct (path_exists a w3) as [[present|e] w4] eqn:H4;
    [|unfold path_exists in H4; destruct (files w3 !! a); discriminate].
  apply path_exists_same in H4 as ->.
  set (sz := if present then stat_size a else (fun s => (Ok 0, s))).
  destruct (sz w3) as [[size|e] w5] eqn:H5.
  2: { assert (w5 = w3) as ->.
       { subst sz. destruct present; [eapply stat_size_same; eauto|congruence]. }
       do 3 eexists. split; [reflexivity|].
       split; [rewrite Hl3, Hl2, Hl1, <- !app_assoc; reflexivity|left; eauto]. }
  assert (w5 = w3) as ->.
  { subst sz. destruct present; [eapply stat_size_same; eauto|congruence]. }
  clear H5 sz.
  destruct (write_file E _ w3) as [[[]|e] w6] eqn:H6;
    apply write_file_ext in H6 as (Hl6 & Hc6 & _).
  2: { do 3 eexists. split; [reflexivity|].
       split; [rewrite Hl6, Hl3, Hl2, Hl1, <- !app_assoc; reflexivity|left; eauto]. }
  unfold ret, when, get_local. cbn [fst snd].
  destruct (up && gcs_available E) eqn:Hup.
  - match goal with
    | |- context [upload_immediately E ?vid ?title ?dur a ?m (?res, w6)] =>
        destruct (upload_immediately_spec vid title dur a m res w6)
          as (res' & w7 & ups & -> & Hl7 & Hout)
    end.
    cbn [fst snd]. cbn zeta in Hout. rewrite Hc6, Hc3, Hc2, Hc1 in Hout.
    exists res', w7, (EvDownload url a :: ups). split; [reflexivity|].
    split. { rewrite Hl7, Hl6, Hl3, Hl2, Hl1, !app_nil_r, <- app_assoc. reflexivity. }
    right. eexists a, _, _, size, _, ups. cbn zeta.
    split; [reflexivity|]. split; [exact Hout|]. discriminate.
  - cbn [fst snd].
    do 2 eexists. exists [EvDownload url a]. split; [reflexivity|].
    cbn [fst snd].
    split. { rewrite Hl6, Hl3, Hl2, Hl1, !app_nil_r. reflexivity. }
    right. eexists a, _, _, size, _, []. cbn zeta.
    split; [reflexivity|]. split; [|reflexivity].
    left. split; [reflexivity|]. auto.
Qed.

Lemma no_unlink_no_split evs pre p ok post :
  forallb (fun ev => negb (is_unlink ev)) evs = true ->
  evs <> pre ++ EvUnlink p ok :: post.
Proof.
  intros Hall ->. rewrite forallb_app in Hall. cbn in Hall.
  rewrite andb_false_r in Hall. discriminate.
Qed.

Lemma stored_uploads_unlinks a m dels :
  Forall (is_unlink_of a m) dels -> stored_uploads dels = [].
Proof.
  induction 1 as [|ev dels [ok [->| ->]] _ IH]; cbn; auto.
Qed.

Lemma stored_uploads_app l1 l2 :
  stored_uploads (l1 ++ l2) = stored_uploads l1 ++ stored_uploads l2.
Proof. apply omap_app. Qed.

Lemma Forall_app_l {A} (P : A -> Prop) l1 l2 : Forall P (l1 ++ l2) -> Forall P l1.
Proof. rewrite Forall_app. tauto. Qed.

(** C1.  A single-video run in an open session always returns a result, and
    for the trace [evs] of what it did: wherever an unlink stands in the trace,
    the uploads stored before it are exactly the audio upload and the metadata
    upload, in that order, both objects are in the bucket, and the unlinked
    path is one of the two local files; [uploaded_to_gcp] is true exactly when
    both uploads were stored; and when an unlink failed the result still has
    [success] and [uploaded_to_gcp] true and [local_files_cleaned] false.
    This holds whether or not the upload was requested or the store is
    available (then nothing is uploaded and nothing is unlinked). *)
Theorem C1_cleanup_only_after_both_uploads url fn up (w : W) sdir :
  session_dir w = Some sdir ->
  exists r w' evs,
    download_single_video E url fn up w = (Ok r, w') /\
    log w' = log w ++ evs /\
    (forall pre p ok post, evs = pre ++ EvUnlink p ok :: post ->
       exists a m ra rm,
         dget "audio_path" r = Some (VStr a) /\
         dget "metadata_path" r = Some (VStr m) /\
         (p = a \/ p = m) /\
         stored_uploads pre = [(a, ra); (m, rm)] /\
         is_Some (bucket w' !! ra) /\ is_Some (bucket w' !! rm)) /\
    (dget "uploaded_to_gcp" r = Some (VBool true) <->
       exists a m ra rm,
         dget "audio_path" r = Some (VStr a) /\
         dget "metadata_path" r = Some (VStr m) /\
         stored_uploads evs = [(a, ra); (m, rm)]) /\
    (some_unlink_failed evs ->
       dget "success" r = Some (VBool true) /\
       dget "uploaded_to_gcp" r = Some (VBool true) /\
       dget "local_files_cleaned" r = Some (VBool false)).
Proof.
  intros Hsd.
  destruct (download_single_video_spec url fn up w sdir Hsd)
    as (r & w' & evs & Hrun & Hlog & Hcase).
  exists r, w', evs. split; [exact Hrun|]. split; [exact Hlog|].
  destruct Hcase as [(e & -> & Hevs)|(a & vid & title & size & dur & ups & Hcase)].
  { (* the download failed: nothing uploaded, nothing deleted *)
    assert (Hnu : forallb (fun ev => negb (is_unlink ev)) evs = true)
      by (destruct Hevs as [->|[a ->]]; reflexivity).
    assert (Hst : stored_uploads evs = [])
      by (destruct Hevs as [->|[a ->]]; reflexivity).
    split; [|split].
    - intros pre p ok post Heq. exfalso. eapply no_unlink_no_split; eauto.
    - rewrite Hst. split; [discriminate|]. intros (? & ? & ? & ? & _ & _ & ?).
      discriminate.
    - intros [p Hp]. exfalso. destruct Hevs as [->|[a ->]]; cbn in Hp;
        intuition discriminate. }
  cbn zeta in Hcase. destruct Hcase as (-> & Hout & _).
  set (m := metadata_path_of sdir vid) in *.
  set (ra := audio_remote_path _ a) in *.
  set (rm := metadata_remote_path _ m) in *.
  destruct Hout as [(-> & Hups)|(dels & u1 & u2 & -> & Hdels & Hba & Hbm & Hres)].
  { (* at most one upload was stored: nothing deleted, not marked uploaded *)
    assert (Hnu : forallb (fun ev => negb (is_unlink ev)) (EvDownload url a :: ups) = true)
      by (destruct Hups as [->|[->|[->| ->]]]; reflexivity).
    assert (Hst : (length (stored_uploads (EvDownload url a :: ups)) < 2)%nat)
      by (destruct Hups as [->|[->|[->| ->]]]; cbn; lia).
    split; [|split].
    - intros pre p ok post Heq. exfalso. eapply no_unlink_no_split; eauto.
    - split; [discriminate|]. intros (? & ? & ? & ? & _ & _ & Heq).
      rewrite Heq in Hst. cbn in Hst. lia.
    - intros [p Hp]. exfalso.
      destruct Hups as [->|[->|[->| ->]]]; cbn in Hp; intuition discriminate. }
  (* both uploads were stored *)
  cbn zeta in Hres.
  assert (Hfields :
    dget "success" r = Some (VBool true) /\
    dget "audio_path" r = Some (VStr a) /\
    dget "metadata_path" r = Some (VStr m) /\
    dget "uploaded_to_gcp" r = Some (VBool true) /\
    dget "local_files_cleaned" r = Some (VBool (negb (existsb unlink_failed dels)))).
  { destruct Hres as [(-> & _ & _ & Hnf)|(-> & Hf)].
    - repeat split; try reflexivity.
      cbn. do 3 f_equal. symmetry. apply negb_true_iff.
      apply not_true_is_false. intros Hex. apply Hnf.
      apply existsb_exists in Hex as ([| | p [] |] & Hin & Hx); try discriminate.
      exists p. exact Hin.
    - repeat split; try reflexivity.
      cbn. do 3 f_equal. symmetry. apply negb_false_iff.
      destruct Hf as [p Hp]. apply existsb_exists. eexists. split; [exact Hp|].
      reflexivity. }
  destruct Hfields as (Hsucc & Hap & Hmp & Hupl & Hcl).
  split; [|split].
  - intros pre p ok post Heq.
    destruct pre as [|x1 [|x2 [|x3 pre]]]; cbn in Heq; try discriminate.
    injection Heq as <- <- <- Heq.
    exists a, m, ra, rm. split; [exact Hap|]. split; [exact Hmp|].
    rewrite Heq in Hdels. split; [|split; [|split; assumption]].
    + apply Forall_app in Hdels as [_ Hd]. apply Forall_cons in Hd as [[ok' Hd] _].
      destruct Hd as [[= ->]|[= ->]]; auto.
    + cbn. do 2 f_equal. apply Forall_app_l in Hdels.
      eapply stored_uploads_unlinks; eauto.
  - split; [|intros _; exact Hupl]. intros _.
    exists a, m, ra, rm. split; [exact Hap|]. split; [exact Hmp|].
    cbn. do 2 f_equal. eapply stored_uploads_unlinks; eauto.
  - intros [p Hp]. split; [exact Hsucc|]. split; [exact Hupl|].
    rewrite Hcl. do 2 f_equal. apply negb_false_iff.
    destruct Hp as [[=]|[[=]|[[=]|Hp]]].
    apply existsb_exists. eexists. split; [exact Hp|]. reflexivity.
Qed.
Lemma path_join_nonempty d n : path_join d n <> "".
Proof. unfold path_join. destruct d; discriminate. Qed.

(** C9, as the code has it.  When [local_files_cleaned] is true the two local
    files are gone, but the result keeps both path fields: [audio_path] is
    still the path the downloader returned and [metadata_path] is still the
    (non-empty) path of the sidecar. *)
Theorem C9_paths_kept_after_cleanup url fn up (w : W) sdir :
  session_dir w = Some sdir ->
  exists r w' evs,
    download_single_video E url fn up w = (Ok r, w') /\
    log w' = log w ++ evs /\
    (dget "local_files_cleaned" r = Some (VBool true) ->
     exists a vid,
       dget "audio_path" r = Some (VStr a) /\
       dget "metadata_path" r = Some (VStr (metadata_path_of sdir vid)) /\
       In (EvDownload url a) evs /\
       files w' !! a = None /\
       files w' !! metadata_path_of sdir vid = None /\
       ~ field_cleared "metadata_path" r).
Proof.
  intros Hsd.
  destruct (download_single_video_spec url fn up w sdir Hsd)
    as (r & w' & evs & Hrun & Hlog & Hcase).
  exists r, w', evs. split; [exact Hrun|]. split; [exact Hlog|].
  intros Hclean.
  destruct Hcase as [(e & -> & _)|(a & vid & title & size & dur & ups & Hcase)];
    [discriminate|].
  cbn zeta in Hcase. destruct Hcase as (-> & Hout & _).
  destruct Hout as [(-> & _)|(dels & u1 & u2 & -> & _ & _ & _ & Hres)];
    [discriminate|].
  cbn zeta in Hres.
  destruct Hres as [(-> & Hfa & Hfm & _)|(-> & _)]; [|discriminate].
  exists a, vid. repeat split; auto.
  - left. reflexivity.
  - unfold field_cleared. cbn. intros [H|[H|H]]; try discriminate.
    injection H as H. exact (path_join_nonempty _ _ H).
Qed.

End VideoProofs.
(** C1, run on a video whose local files cannot be removed. *)
Lemma C1_witness :
  exists r w' evs,
    download_single_video (Scenario.undeletable []) Scenario.video_url None true
      (Scenario.in_session tt) = (Ok r, w') /\
    log w' = log (Scenario.in_session tt) ++ evs /\
    (forall pre p ok post, evs = pre ++ EvUnlink p ok :: post ->
       exists a m ra rm,
         dget "audio_path" r = Some (VStr a) /\
         dget "metadata_path" r = Some (VStr m) /\
         (p = a \/ p = m) /\
         stored_uploads pre = [(a, ra); (m, rm)] /\
         is_Some (bucket w' !! ra) /\ is_Some (bucket w' !! rm)) /\
    (dget "uploaded_to_gcp" r = Some (VBool true) <->
       exists a m ra rm,
         dget "audio_path" r = Some (VStr a) /\
         dget "metadata_path" r = Some (VStr m) /\
         stored_uploads evs = [(a, ra); (m, rm)]) /\
    (some_unlink_failed evs ->
       dget "success" r = Some (VBool true) /\
       dget "uploaded_to_gcp" r = Some (VBool true) /\
       dget "local_files_cleaned" r = Some (VBool false)).
Proof.
  apply (C1_cleanup_only_after_both_uploads (Scenario.undeletable [])
           Scenario.video_url None true (Scenario.in_session tt) "/data/output/s1").
  reflexivity.
Defined.

(** C9, run on a video that is downloaded, uploaded and cleaned up. *)
Lemma C9_witness :
  exists r w' evs,
    download_single_video (Scenario.working []) Scenario.video_url None true
      (Scenario.in_session tt) = (Ok r, w') /\
    log w' = log (Scenario.in_session tt) ++ evs /\
    (dget "local_files_cleaned" r = Some (VBool true) ->
     exists a vid,
       dget "audio_path" r = Some (VStr a) /\
       dget "metadata_path" r = Some (VStr (metadata_path_of "/data/output/s1" vid)) /\
       In (EvDownload Scenario.video_url a) evs /\
       files w' !! a = None /\
       files w' !! metadata_path_of "/data/output/s1" vid = None /\
       ~ field_cleared "metadata_path" r).
Proof.
  apply (C9_paths_kept_after_cleanup (Scenario.working [])
           Scenario.video_url None true (Scenario.in_session tt) "/data/output/s1").
  reflexivity.
Defined.

(** The run of a video that is downloaded, uploaded and cleaned up: both local
    files are gone and both path fields still hold their paths. *)
Example cleaned_video_result :
  fst (download_single_video (Scenario.working []) Scenario.video_url None true
         (Scenario.in_session tt)) =
  Ok [("success", VBool true); ("video_id", VStr "dQw4w9WgXcQ");
      ("title", VStr "Title"); ("url", VStr Scenario.video_url);
      ("audio_path", VStr "/data/audio/dQw4w9WgXcQ.flac");
      ("metadata_path", VStr "/data/output/s1/metadata/dQw4w9WgXcQ_metadata.json");
      ("file_size", VInt 4096); ("duration", VInt 60);
      ("uploaded_to_gcp", VBool true); ("local_files_cleaned", VBool true);
      ("gcp_audio_url",
       VStr "gs://dataset_youtube_katube/youtube_downloads/s1/downloads/dQw4w9WgXcQ.flac");
      ("gcp_metadata_url",
       VStr "gs://dataset_youtube_katube/youtube_downloads/s1/metadata/dQw4w9WgXcQ_metadata.json")].
Proof. vm_compute. reflexivity. Qed.

(** C9 as the spec states it fails: there is a successfully processed video
    with [local_files_cleaned] true whose path fields are not cleared. *)
Lemma C9_counterexample :
  ~ (forall (E : env) (w w' : world unit) url fn up r,
       download_single_video E url fn up w = (Ok r, w') ->
       dget "success" r = Some (VBool true) ->
       dget "local_files_cleaned" r = Some (VBool true) ->
       field_cleared "audio_path" r /\ field_cleared "metadata_path" r).
Proof.
  intros H.
  pose (run := download_single_video (Scenario.working []) Scenario.video_url None
                 true (Scenario.in_session tt)).
  specialize (H (Scenario.working []) (Scenario.in_session tt) (snd run)
                Scenario.video_url None true
                (match fst run with Ok r => r | Raise _ => [] end)).
  destruct H as [[Ha|[Ha|Ha]] _]; try (vm_compute; reflexivity);
    vm_compute in Ha; discriminate.
Qed.

(** ** [process_url] *)

Section ProcessUrlProofs.

Context {U : Type}.
Variable E : env.

(** C10.  [process_url] returns a dictionary on every input and never raises;
    and when anything inside its [try] block (session creation, either
    processor, saving the results file) raises [e], what it returns is the
    failure dictionary with [success] false, [e] as [error], type ['unknown']
    and both counts 0. *)
Theorem C10_process_url_never_raises url fn max_videos
    (cb : option (callback (U := U))) (w : world U) :
  (exists d w', process_url E url fn max_videos cb w = (Ok d, w')) /\
  (forall e w1,
     process_url_body E (os_time E (tick w)) url fn max_videos cb (next_tick w)
       = (Raise e, w1) ->
     process_url E url fn max_videos cb w = (Ok (unknown_failure e), w1) /\
     dget "success" (unknown_failure e) = Some (VBool false) /\
     dget "error" (unknown_failure e) = Some (VStr e) /\
     dget "type" (unknown_failure e) = Some (VStr "unknown") /\
     dget "downloaded_count" (unknown_failure e) = Some (VInt 0) /\
     dget "failed_count" (unknown_failure e) = Some (VInt 0)).
Proof.
  unfold process_url, bind, time_time, try_catch, ret. split.
  - destruct (process_url_body E _ url fn max_videos cb (next_tick w))
      as [[d|e] w1]; eauto.
  - intros e w1 ->. repeat split; reflexivity.
Qed.

(** An exception of session creation is an exception of the [try] block. *)
Lemma create_session_raise_escapes start url fn max_videos
    (cb : option (callback (U := U))) (w w1 : world U) e :
  create_session E None w = (Raise e, w1) ->
  process_url_body E start url fn max_videos cb w = (Raise e, w1).
Proof. intros H. unfold process_url_body, bind. rewrite H. reflexivity. Qed.

End ProcessUrlProofs.

(** C10, run on a disk where the session directory cannot be created. *)
Lemma C10_witness :
  (exists d w',
     process_url (Scenario.read_only_disk []) Scenario.video_url None 2500 None
       (Scenario.fresh tt) = (Ok d, w')) /\
  (forall e w1,
     process_url_body (Scenario.read_only_disk [])
       (os_time (Scenario.read_only_disk []) (tick (Scenario.fresh tt)))
       Scenario.video_url None 2500 None (next_tick (Scenario.fresh tt))
       = (Raise e, w1) ->
     process_url (Scenario.read_only_disk []) Scenario.video_url None 2500 None
       (Scenario.fresh tt) = (Ok (unknown_failure e), w1) /\
     dget "success" (unknown_failure e) = Some (VBool false) /\
     dget "error" (unknown_failure e) = Some (VStr e) /\
     dget "type" (unknown_failure e) = Some (VStr "unknown") /\
     dget "downloaded_count" (unknown_failure e) = Some (VInt 0) /\
     dget "failed_count" (unknown_failure e) = Some (VInt 0)).
Proof.
  exact (C10_process_url_never_raises (Scenario.read_only_disk [])
           Scenario.video_url None 2500 None (Scenario.fresh tt)).
Defined.

(** On that disk the [try] block does raise, and [process_url] returns the
    failure dictionary carrying the message. *)
Example process_url_on_read_only_disk :
  fst (process_url_body (Scenario.read_only_disk []) 0 Scenario.video_url None 2500
         None (next_tick (Scenario.fresh tt)))
    = Raise "[Errno 30] Read-only file system" /\
  fst (process_url (Scenario.read_only_disk []) Scenario.video_url None 2500 None
         (Scenario.fresh tt))
    = Ok (unknown_failure "[Errno 30] Read-only file system").
Proof. split; vm_compute; reflexivity. Qed.

(** ** The channel processor with a callback that returns *)

Section ChannelProofs.

Context {U : Type}.
Variable E : env.

Abbreviation W := (world U).

Lemma callbacks_app l1 l2 : callbacks (l1 ++ l2) = callbacks l1 ++ callbacks l2.
Proof. apply omap_app. Qed.

Lemma callbacks_unlinks a m dels :
  Forall (is_unlink_of a m) dels -> callbacks dels = [].
Proof. induction 1 as [|ev dels [ok [->| ->]] _ IH]; cbn; auto. Qed.

Lemma download_single_video_total url fn up (w : W) :
  exists res w' evs,
    download_single_video E url fn up w = (res, w') /\
    log w' = log w ++ evs /\ callbacks evs = [] /\
    match res with
    | Ok r => exists b, dget "success" r = Some (VBool b) /\
                        (b = true -> is_Some (dget "title" r))
    | Raise _ => True
    end.
Proof.
  destruct (session_dir w) as [sdir|] eqn:Hsd.
  - destruct (download_single_video_spec E url fn up w sdir Hsd)
      as (r & w' & evs & Hrun & Hlog & Hcase).
    exists (Ok r), w', evs. split; [exact Hrun|]. split; [exact Hlog|].
    destruct Hcase as [(e & -> & Hevs)|(a & vid & title & size & dur & ups & Hcase)].
    + split; [destruct Hevs as [->|[a ->]]; reflexivity|].
      exists false. split; [reflexivity|discriminate].
    + cbn zeta in Hcase. destruct Hcase as (-> & Hout & _).
      destruct Hout as [(-> & Hups)|(dels & u1 & u2 & -> & Hdels & _ & _ & Hres)].
      * split; [destruct Hups as [->|[->|[->| ->]]]; reflexivity|].
        exists true. split; [reflexivity|]. intros _. cbn. eauto.
      * split; [cbn; eapply callbacks_unlinks; eauto|].
        exists true. cbn zeta in Hres.
        destruct Hres as [(-> & _)|(-> & _)]; (split; [reflexivity|]); intros _;
          cbn; eauto.
  - exists (Raise no_session), w, []. unfold download_single_video, bind, gets.
    rewrite Hsd. split; [reflexivity|]. rewrite app_nil_r. auto.
Qed.

Lemma call_progress_spec cb u s t i (w : W) :
  never_raises cb ->
  exists w' evs, call_progress cb u s t i w = (Ok tt, w') /\
    log w' = log w ++ evs /\ callbacks evs = expected_calls cb u s t i.
Proof.
  intros Hcb. destruct cb as [f|]; unfold call_progress.
  - destruct (Hcb u s t i (user (emit (EvCallback u s t i) w))) as [st' ->].
    exists (set_user st' (emit (EvCallback u s t i) w)), [EvCallback u s t i].
    split; [reflexivity|]. destruct w; split; reflexivity.
  - exists w, []. split; [reflexivity|]. rewrite app_nil_r. auto.
Qed.

Lemma process_one_video_spec cb total i url dl fl (w : W) :
  never_raises cb ->
  exists r w' evs s,
    process_one_video E cb total i url ((dl, fl), w) =
      (Ok tt, ((if truthy s then dl ++ [r] else dl,
                if truthy s then fl else fl ++ [r]), w')) /\
    log w' = log w ++ evs /\
    callbacks evs = expected_calls cb url s total (i + 1).
Proof.
  intros Hcb. unfold process_one_video, try_catch, bind, lift. cbn [fst snd].
  destruct (download_single_video_total url None true w)
    as (res & w1 & evs1 & -> & Hl1 & Hc1 & Hres).
  destruct res as [r|e].
  - destruct Hres as (b & Hb & Htitle). unfold item. rewrite Hb.
    unfold ret, modify_local. cbn [fst snd truthy].
    destruct b.
    + destruct (Htitle eq_refl) as [t ->]. cbn [fst snd].
      destruct (call_progress_spec cb url (VBool true) total (i + 1) w1 Hcb)
        as (w2 & evs2 & -> & Hl2 & Hc2).
      exists r, w2, (evs1 ++ evs2), (VBool true). cbn [truthy].
      split; [reflexivity|]. split; [rewrite Hl2, Hl1, app_assoc; auto|].
      rewrite callbacks_app, Hc1, Hc2. reflexivity.
    + cbn [fst snd].
      destruct (call_progress_spec cb url (VBool false) total (i + 1) w1 Hcb)
        as (w2 & evs2 & -> & Hl2 & Hc2).
      exists r, w2, (evs1 ++ evs2), (VBool false). cbn [truthy].
      split; [reflexivity|]. split; [rewrite Hl2, Hl1, app_assoc; auto|].
      rewrite callbacks_app, Hc1, Hc2. reflexivity.
  - cbn [fst snd]. unfold modify_local. cbn [fst snd].
    destruct (call_progress_spec cb url (VBool false) total (i + 1) w1 Hcb)
      as (w2 & evs2 & -> & Hl2 & Hc2).
    eexists _, w2, (evs1 ++ evs2), (VBool false). cbn [truthy].
    split; [reflexivity|]. split; [rewrite Hl2, Hl1, app_assoc; auto|].
    rewrite callbacks_app, Hc1, Hc2. reflexivity.
Qed.

Lemma video_loop_spec cb total urls : never_raises cb ->
  forall k dl fl (w : W),
  exists flags dnew fnew w' evs,
    for_each (enumerate_from k urls)
      (fun iu => process_one_video E cb total (fst iu) (snd iu)) ((dl, fl), w)
      = (Ok tt, ((dl ++ dnew, fl ++ fnew), w')) /\
    log w' = log w ++ evs /\
    length flags = length urls /\
    length dnew = successes flags /\
    (length dnew + length fnew = length urls)%nat /\
    callbacks evs = match cb with None => [] | Some _ => reports k total urls flags end.
Proof.
  intros Hcb. induction urls as [|u urls IH]; intros k dl fl w.
  - exists [], [], [], w, []. cbn. rewrite !app_nil_r.
    repeat split; auto. destruct cb; reflexivity.
  - cbn [enumerate_from for_each]. unfold bind. cbn [fst snd].
    destruct (process_one_video_spec cb total k u dl fl w Hcb)
      as (r & w1 & evs1 & s & -> & Hl1 & Hc1).
    destruct (IH (S k) (if truthy s then dl ++ [r] else dl)
                (if truthy s then fl else fl ++ [r]) w1)
      as (flags & dnew & fnew & w2 & evs2 & -> & Hl2 & Hlen & Hd & Hsum & Hc2).
    exists (s :: flags),
      (if truthy s then r :: dnew else dnew),
      (if truthy s then fnew else r :: fnew), w2, (evs1 ++ evs2).
    split.
    { destruct (truthy s); rewrite <- ?app_assoc; reflexivity. }
    split; [rewrite Hl2, Hl1, app_assoc; reflexivity|].
    split; [cbn; lia|].
    split. { unfold successes in *. cbn. destruct (truthy s); cbn; lia. }
    split. { destruct (truthy s); cbn; lia. }
    rewrite callbacks_app, Hc1, Hc2. destruct cb; reflexivity.
Qed.

Lemma scan_channel_log ch (w w' : W) r : scan_channel E ch w = (r, w') -> log w' = log w.
Proof. unfold scan_channel. intros [= <- <-]. destruct w; reflexivity. Qed.

Lemma get_video_urls_log p (w w' : W) r :
  get_video_urls E p w = (r, w') -> log w' = log w.
Proof. unfold get_video_urls. intros [= <- <-]. destruct w; reflexivity. Qed.

Lemma now_log fmt (w w' : W) r : now E fmt w = (r, w') -> log w' = log w.
Proof. unfold now. intros [= <- <-]. destruct w; reflexivity. Qed.

Lemma write_file_log p (w w' : W) r : write_file E p w = (r, w') -> log w' = log w.
Proof.
  unfold write_file. destruct (os_write E (tick w) p); intros [= <- <-];
    destruct w; reflexivity.
Qed.

Lemma for_each_pure {A} (xs : list A) (body : A -> M W unit) :
  (forall x (w w' : W) r, body x w = (r, w') -> w' = w) ->
  forall (w w' : W) r, for_each xs body w = (r, w') -> w' = w.
Proof.
  intros Hbody. induction xs as [|x xs IH]; intros w w' r; cbn.
  - intros [= <- <-]. reflexivity.
  - unfold bind. destruct (body x w) as [[[]|e] w1] eqn:Hx; apply Hbody in Hx as ->.
    + apply IH.
    + intros [= <- <-]. reflexivity.
Qed.

Lemma item_pure k d (w w' : W) r : item k d w = (r, w') -> w' = w.
Proof. unfold item. destruct (dget k d); intros [= <- <-]; reflexivity. Qed.

Lemma write_video_list_log f dl fl (w w' : W) r :
  write_video_list E f dl fl w = (r, w') -> log w' = log w.
Proof.
  unfold write_video_list, bind.
  destruct (write_file E f w) as [[[]|e] w1] eqn:H1; apply write_file_log in H1.
  2: { intros [= <- <-]. exact H1. }
  destruct (now E _ w1) as [[t|e] w2] eqn:H2; apply now_log in H2.
  2: { intros [= <- <-]. congruence. }
  match goal with
  | |- context [for_each dl ?body w2] =>
      destruct (for_each dl body w2) as [[[]|e] w3] eqn:H3;
      apply (for_each_pure dl body) in H3
  end.
  - subst w3. intros H4. apply for_each_pure in H4; [congruence|].
    intros x v v' r'. unfold bind.
    destruct (item "url" x v) as [[y|e] v1] eqn:Hi; apply item_pure in Hi as ->;
      intros [= <- <-]; reflexivity.
  - intros x v v' r'. unfold bind.
    destruct (item "url" x v) as [[y|e'] v1] eqn:Hi; apply item_pure in Hi as ->.
    + destruct (item "title" x v) as [[y'|e'] v1] eqn:Hi'; apply item_pure in Hi' as ->;
        intros [= <- <-]; reflexivity.
    + intros [= <- <-]; reflexivity.
  - subst w3. intros [= <- <-]. congruence.
  - intros x v v' r'. unfold bind.
    destruct (item "url" x v) as [[y|e'] v1] eqn:Hi; apply item_pure in Hi as ->.
    + destruct (item "title" x v) as [[y'|e'] v1] eqn:Hi'; apply item_pure in Hi' as ->;
        intros [= <- <-]; reflexivity.
    + intros [= <- <-]; reflexivity.
Qed.

Lemma download_channel_videos_success ch max_videos cb (w w' : W) d :
  never_raises cb ->
  download_channel_videos E ch max_videos cb w = (Ok d, w') ->
  dget "success" d = Some (VBool true) ->
  exists all_urls flags dl fl evs sf vf,
    let urls := capped all_urls max_videos in
    d = [("success", VBool true); ("channel_url", VStr ch);
         ("total_videos", VInt (Z.of_nat (length urls)));
         ("downloaded_count", VInt (Z.of_nat (length dl)));
         ("failed_count", VInt (Z.of_nat (length fl)));
         ("summary_file", VStr sf); ("video_list_file", VStr vf);
         ("downloaded_videos", VList (map VDict dl));
         ("failed_videos", VList (map VDict fl))] /\
    log w' = log w ++ evs /\
    length flags = length urls /\
    length dl = successes flags /\
    (length dl + length fl = length urls)%nat /\
    callbacks evs = expected_reports cb (length urls) urls flags.
Proof.
  intros Hcb H Hsucc. unfold download_channel_videos, bind, gets in H.
  destruct (session_dir w) as [sdir|]; [|discriminate].
  unfold try_catch, bind, ret in H.
  destruct (scan_channel E ch w) as [[[p|]|e] w1] eqn:H1; apply scan_channel_log in H1.
  2, 3: injection H as <- <-; discriminate.
  destruct (get_video_urls E p w1) as [[all_urls|e] w2] eqn:H2;
    apply get_video_urls_log in H2.
  2: injection H as <- <-; discriminate.
  destruct all_urls as [|u0 rest]; [injection H as <- <-; discriminate|].
  fold (capped (u0 :: rest) max_videos) in H.
  set (urls := capped (u0 :: rest) max_videos) in *.
  unfold with_locals, bind, get_local in H.
  destruct (video_loop_spec cb (length urls) urls Hcb 0%nat [] [] w2)
    as (flags & dl & fl & w3 & evs & Hloop & Hl3 & Hlen & Hd & Hsum & Hc).
  unfold enumerate in H. rewrite Hloop in H. cbn [fst snd app] in H.
  destruct (now E _ w3) as [[t|e] w4] eqn:H4; apply now_log in H4.
  2: injection H as <- <-; discriminate.
  destruct (write_file E _ w4) as [[[]|e] w5] eqn:H5; apply write_file_log in H5.
  2: injection H as <- <-; discriminate.
  destruct (write_video_list E _ dl fl w5) as [[[]|e] w6] eqn:H6;
    apply write_video_list_log in H6.
  2: injection H as <- <-; discriminate.
  injection H as <- <-.
  exists (u0 :: rest), flags, dl, fl, evs. do 2 eexists. cbn zeta. fold urls.
  split; [reflexivity|]. split; [congruence|].
  repeat split; auto.
Qed.
Lemma reports_urls k total urls flags :
  length flags = length urls ->
  map (fun c => fst (fst (fst c))) (reports k total urls flags) = urls.
Proof.
  revert k flags. induction urls as [|u urls IH]; intros k [|s flags] Hlen;
    cbn in *; try discriminate; auto.
  f_equal. apply IH. lia.
Qed.

Lemma reports_length k total urls flags :
  length flags = length urls -> length (reports k total urls flags) = length urls.
Proof.
  revert k flags. induction urls as [|u urls IH]; intros k [|s flags] Hlen;
    cbn in *; try discriminate; auto.
Qed.

Lemma reports_indices k total urls flags :
  length flags = length urls ->
  map snd (reports k total urls flags) = seq (k + 1) (length urls).
Proof.
  revert k flags. induction urls as [|u urls IH]; intros k [|s flags] Hlen;
    cbn in *; try discriminate; auto.
  f_equal. rewrite IH by lia. f_equal; lia.
Qed.

Lemma reports_totals k total urls flags :
  Forall (fun c => snd (fst c) = total) (reports k total urls flags).
Proof.
  revert k flags. induction urls as [|u urls IH]; intros k [|s flags]; cbn; auto.
Qed.

(** Whatever a channel run returns, the callback was told about the videos of
    some list [urls] (the capped enumeration, or nothing when the enumeration
    failed), once each and in order; a Channel Result reports the length of
    that list as [total_videos]. *)
Lemma download_channel_videos_reports ch max_videos cb (w : W) :
  never_raises cb ->
  exists res w' evs urls flags,
    download_channel_videos E ch max_videos cb w = (res, w') /\
    log w' = log w ++ evs /\
    length flags = length urls /\
    callbacks evs = expected_reports cb (length urls) urls flags /\
    (urls = [] \/ exists all_urls, urls = capped all_urls max_videos) /\
    (forall d, res = Ok d -> dget "success" d = Some (VBool true) ->
       dget "total_videos" d = Some (VInt (Z.of_nat (length urls)))).
Proof.
  intros Hcb. unfold download_channel_videos, bind, gets.
  assert (Hnil : forall (res : exc dict) (w' : W), log w' = log w ->
            (forall d, res = Ok d -> dget "success" d <> Some (VBool true)) ->
            exists evs urls flags, log w' = log w ++ evs /\
              length flags = length urls /\
              callbacks evs = expected_reports cb (length urls) urls flags /\
              (urls = [] \/ exists all_urls, urls = capped all_urls max_videos) /\
              (forall d, res = Ok d -> dget "success" d = Some (VBool true) ->
                 dget "total_videos" d = Some (VInt (Z.of_nat (length urls))))).
  { intros res w' Hl Hno. exists [], [], []. rewrite app_nil_r.
    repeat split; auto.
    - destruct cb; reflexivity.
    - intros d Hd Hs. destruct (Hno d Hd Hs). }
  destruct (session_dir w) as [sdir|].
  2: { destruct (Hnil (Raise no_session) w eq_refl) as (evs & urls & flags & H);
         [discriminate|].
       exists (Raise no_session), w, evs, urls, flags. split; [reflexivity|exact H]. }
  unfold try_catch, bind, ret.
  destruct (scan_channel E ch w) as [[[p|]|e] w1] eqn:H1; apply scan_channel_log in H1.
  2: { edestruct (Hnil (Ok (channel_failure "Channel scan failed")) w1 H1)
         as (evs & urls & flags & H); [intros d [= <-]; discriminate|].
       do 2 eexists; exists evs, urls, flags; (split; [reflexivity|exact H]). }
  2: { edestruct (Hnil (Ok (channel_failure e)) w1 H1)
         as (evs & urls & flags & H); [intros d [= <-]; discriminate|].
       do 2 eexists; exists evs, urls, flags; (split; [reflexivity|exact H]). }
  destruct (get_video_urls E p w1) as [[all_urls|e] w2] eqn:H2;
    apply get_video_urls_log in H2.
  2: { edestruct (Hnil (Ok (channel_failure e)) w2) as (evs & urls & flags & H);
         [congruence|intros d [= <-]; discriminate|].
       do 2 eexists; exists evs, urls, flags; (split; [reflexivity|exact H]). }
  destruct all_urls as [|u0 rest].
  { edestruct (Hnil (Ok (channel_failure "No videos found in channel")) w2)
      as (evs & urls & flags & H); [congruence|intros d [= <-]; discriminate|].
    do 2 eexists; exists evs, urls, flags; (split; [reflexivity|exact H]). }
  fold (capped (u0 :: rest) max_videos).
  set (urls := capped (u0 :: rest) max_videos).
  unfold with_locals, bind, get_local.
  destruct (video_loop_spec cb (length urls) urls Hcb 0%nat [] [] w2)
    as (flags & dl & fl & w3 & evs & Hloop & Hl3 & Hlen & Hd & Hsum & Hc).
  unfold enumerate. rewrite Hloop. cbn [fst snd app].
  assert (Hdone : forall (res : exc dict) (w' : W), log w' = log w3 ->
            (forall d, res = Ok d -> dget "success" d = Some (VBool true) ->
               dget "total_videos" d = Some (VInt (Z.of_nat (length urls)))) ->
            log w' = log w ++ evs /\ length flags = length urls /\
            callbacks evs = expected_reports cb (length urls) urls flags /\
            (urls = [] \/ exists all_urls, urls = capped all_urls max_videos) /\
            (forall d, res = Ok d -> dget "success" d = Some (VBool true) ->
               dget "total_videos" d = Some (VInt (Z.of_nat (length urls))))).
  { intros res w' Hl Hres. split; [congruence|]. split; [exact Hlen|].
    split; [rewrite Hc; destruct cb; reflexivity|]. split; [right; eauto|exact Hres]. }
  destruct (now E _ w3) as [[t|e] w4] eqn:H4; apply now_log in H4.
  2: { do 2 eexists; exists evs, urls, flags. split; [reflexivity|].
       apply Hdone; [auto|intros d [= <-]; discriminate]. }
  destruct (write_file E _ w4) as [[[]|e] w5] eqn:H5; apply write_file_log in H5.
  2: { do 2 eexists; exists evs, urls, flags. split; [reflexivity|].
       apply Hdone; [congruence|intros d [= <-]; discriminate]. }
  destruct (write_video_list E _ dl fl w5) as [[[]|e] w6] eqn:H6;
    apply write_video_list_log in H6;
    do 2 eexists; exists evs, urls, flags; (split; [reflexivity|]);
    (apply Hdone; [congruence|intros d [= <-]; try discriminate]).
  intros _. reflexivity.
Qed.

(** X3.  A channel whose scan finds no list, or whose list is empty, yields the
    failure dictionary with both counts 0, and nothing is downloaded. *)
Theorem failed_enumeration_result ch max_videos cb (w : W) sdir :
  session_dir w = Some sdir ->
  scanner_scan_channel E (tick w) ch = Ok None \/
  (exists p, scanner_scan_channel E (tick w) ch = Ok (Some p) /\
             scanner_get_video_urls E (S (tick w)) p = Ok []) ->
  exists d w',
    download_channel_videos E ch max_videos cb w = (Ok d, w') /\
    log w' = log w /\
    dget "success" d = Some (VBool false) /\
    (dget "error" d = Some (VStr "Channel scan failed") \/
     dget "error" d = Some (VStr "No videos found in channel")) /\
    dget "downloaded_count" d = Some (VInt 0) /\
    dget "failed_count" d = Some (VInt 0).
Proof.
  intros Hsd Hscan. unfold download_channel_videos, bind, gets. rewrite Hsd.
  unfold try_catch, bind, ret, scan_channel, get_video_urls.
  destruct Hscan as [->|(p & -> & Hurls)].
  - do 2 eexists. split; [reflexivity|]. destruct w; cbn. repeat split; auto.
  - assert (Ht : tick (next_tick w) = S (tick w)) by (destruct w; reflexivity).
    rewrite Ht, Hurls. do 2 eexists. split; [reflexivity|].
    destruct w; cbn. repeat split; auto.
Qed.



End ChannelProofs.

(** ** The channel processor on a callback that raises *)

(** The callback call stands inside the [try] of the loop (line 262): when
    the callback raises after the video was filed, the handler files the same
    video again as failed and calls the callback again. *)

(** C3 at a one-video channel whose video downloads and uploads, with a
    callback that raises on the success report: the run returns a Channel
    Result with [total_videos] 1, [downloaded_count] 1 and [failed_count] 1,
    so the two counts add up to more than the videos found. *)
Theorem C3_counts_exceed_total_when_callback_raises :
  let run :=
    download_channel_videos (Scenario.working [Scenario.video_url])
      Scenario.channel_url 2500 (Some Scenario.picky) (Scenario.in_session tt) in
  exists d,
    fst run = Ok d /\
    dget "success" d = Some (VBool true) /\
    dget "total_videos" d = Some (VInt 1) /\
    dget "downloaded_count" d = Some (VInt 1) /\
    dget "failed_count" d = Some (VInt 1).
Proof. cbv zeta. eexists. split; [vm_compute; reflexivity|]. repeat split. Qed.

(** C8 at the same run: the callback is invoked twice for the one video, both
    times with index 1. *)
Theorem C8_callback_invoked_twice_when_it_raises :
  let run :=
    download_channel_videos (Scenario.working [Scenario.video_url])
      Scenario.channel_url 2500 (Some Scenario.picky) (Scenario.in_session tt) in
  callbacks (log (snd run)) =
    [(Scenario.video_url, VBool true, 1%nat, 1%nat);
     (Scenario.video_url, VBool false, 1%nat, 1%nat)].
Proof. vm_compute. reflexivity. Qed.

(** ** The job runners *)

(** C2 at a channel that enumerates to zero videos, and at one whose scan
    fails: [process_url] reports the failure with [downloaded_count] 0, but
    [process_channel_background] then skips the whole final update (it is
    nested under [if result.get('success', False)], line 257), so the job
    record stays in the state [downloading] at 10 percent with no error, and
    never reaches [failed]. *)
Theorem C2_failed_enumeration_leaves_job_downloading :
  let empty :=
    App.process_channel_background (Scenario.working []) "job-1"
      Scenario.channel_url (Scenario.fresh (Scenario.submitted Scenario.channel_url)) in
  let unscanned :=
    App.process_channel_background Scenario.unscannable "job-1"
      Scenario.channel_url (Scenario.fresh (Scenario.submitted Scenario.channel_url)) in
  (exists d j,
     fst empty = Ok d /\
     dget "success" d = Some (VBool false) /\
     dget "error" d = Some (VStr "No videos found in channel") /\
     dget "downloaded_count" d = Some (VInt 0) /\
     App.active_jobs (user (snd empty)) !! "job-1" = Some j /\
     App.status j = "downloading" /\ App.progress j = 10 /\
     App.error j = None /\ App.results j = None /\ App.terminal j = false) /\
  (exists d j,
     fst unscanned = Ok d /\
     dget "success" d = Some (VBool false) /\
     dget "error" d = Some (VStr "Channel scan failed") /\
     dget "downloaded_count" d = Some (VInt 0) /\
     App.active_jobs (user (snd unscanned)) !! "job-1" = Some j /\
     App.status j = "downloading" /\ App.progress j = 10 /\
     App.error j = None /\ App.results j = None /\ App.terminal j = false).
Proof.
  cbv zeta. split; do 2 eexists;
    (split; [vm_compute; reflexivity|]);
    do 3 (split; [reflexivity|]);
    (split; [vm_compute; reflexivity|]); repeat split.
Qed.

(** C4 at a channel of 16 videos: the record goes from [downloading] at 10 to
    [processing] at 5 when the first video is done, because the callback of
    [process_channel_background] computes [int(1 / 16 * 90)] without the base
    of 10 the first update set. *)
Theorem C4_progress_drops_after_first_video :
  let run :=
    App.process_channel_background (Scenario.working (Scenario.videos_from 1 16))
      "job-1" Scenario.channel_url
      (Scenario.fresh (Scenario.submitted Scenario.channel_url)) in
  let seen := Poll.visible (App.journal (user (snd run))) in
  firstn 3 (Poll.brief seen) =
    [("downloading", 10); ("processing", 5); ("processing", 11)] /\
  Poll.progress_monotone seen = false.
Proof. cbv zeta. split; vm_compute; reflexivity. Qed.

(** The callback of [process_youtube_url_background] keeps the base of 10: at
    the same point it reports 15. *)
Example url_callback_keeps_base :
  Z.min 90 (App.scaled 1 16 90) = 5 /\ Z.min 90 (App.scaled 1 16 80 + 10) = 15.
Proof. split; vm_compute; reflexivity. Qed.

(** C5 at a channel of 128 videos: after the first video the record is in the
    state [processing] with progress 0, so progress is set to 0 on a
    transition that is not the one to [failed]. *)
Theorem C5_progress_zero_while_processing :
  let run :=
    App.process_channel_background (Scenario.working (Scenario.videos_from 1 128))
      "job-1" Scenario.channel_url
      (Scenario.fresh (Scenario.submitted Scenario.channel_url)) in
  let seen := Poll.visible (App.journal (user (snd run))) in
  firstn 2 (Poll.brief seen) = [("downloading", 10); ("processing", 0)] /\
  forallb Poll.progress_fits_state seen = false.
Proof. cbv zeta. split; vm_compute; reflexivity. Qed.

(** C6 at a single video submitted to [/process]: the runner first calls
    [job.update("completed", 100, ...)] and only then [job.complete(result)]
    (lines 135-143), so between the two the record is in the terminal state
    [completed] with neither [results] nor [error]. *)
Theorem C6_completed_without_result :
  let run :=
    App.process_youtube_url_background (Scenario.working []) "job-1"
      Scenario.video_url (App.Options None None None)
      (Scenario.fresh (Scenario.submitted Scenario.video_url)) in
  let seen := Poll.visible (App.journal (user (snd run))) in
  map (fun j => (App.status j, bool_decide (is_Some (App.results j)),
                 bool_decide (is_Some (App.error j)))) seen =
    [("downloading", false, false); ("finalizing", false, false);
     ("completed", false, false); ("completed", true, false)] /\
  forallb Poll.outcome_recorded seen = false.
Proof. cbv zeta. split; vm_compute; reflexivity. Qed.

(** ** A poller against a runner *)

(** [JobStatus.update] is its three assignments. *)
Lemma update_is_three_stores s p m j :
  fold_left (fun r a => match a with Interleaving.Store f => f r | _ => r end)
    (Interleaving.update_unlocked s p m) j = App.update s p m j.
Proof. reflexivity. Qed.

(** C7 at the first update of [process_youtube_url_background], which calls
    [job.update("downloading", 10, ...)] without taking [job_lock]: a poller
    that runs [get_status] between the first and the second assignment reads
    the new state with the old progress and the old message.  No write of
    that runner is made under the lock. *)
Theorem C7_update_without_lock_is_torn :
  let j := App.new_job "job-1" Scenario.video_url "2025-01-01T00:00:00" in
  let j' := App.update "downloading" 10 "Iniciando download..." j in
  let run :=
    App.process_youtube_url_background (Scenario.working []) "job-1"
      Scenario.video_url (App.Options None None None)
      (Scenario.fresh (Scenario.submitted Scenario.video_url)) in
  (exists schedule c,
     Interleaving.run schedule
       (Interleaving.start j
          (Interleaving.update_unlocked "downloading" 10 "Iniciando download...")
          Interleaving.get_status) = Some c /\
     Interleaving.writer c = [] /\ Interleaving.poller c = [] /\
     Interleaving.shared c = j' /\
     Interleaving.seen c =
       Interleaving.View (Some "downloading") (Some 0)
         (Some "Iniciando processamento...") /\
     Interleaving.seen c <> Interleaving.whole j /\
     Interleaving.seen c <> Interleaving.whole j') /\
  forallb (fun ev => match ev with App.Acquired => false | _ => true end)
    (App.journal (user (snd run))) = true.
Proof.
  cbv zeta. split.
  - exists [Interleaving.Writer; Interleaving.Poller; Interleaving.Poller;
            Interleaving.Poller; Interleaving.Poller; Interleaving.Poller;
            Interleaving.Writer; Interleaving.Writer].
    eexists. split; [vm_compute; reflexivity|].
    vm_compute. repeat split; discriminate.
  - vm_compute. reflexivity.
Qed.



(** The run of those witnesses: three videos, three reports. *)
Example three_video_channel :
  let run :=
    download_channel_videos (Scenario.working (Scenario.videos_from 1 3))
      Scenario.channel_url 2500 (Some Scenario.quiet) (Scenario.in_session tt) in
  callbacks (log (snd run)) =
    [("https://www.youtube.com/watch?v=video1", VBool true, 3%nat, 1%nat);
     ("https://www.youtube.com/watch?v=video2", VBool true, 3%nat, 2%nat);
     ("https://www.youtube.com/watch?v=video3", VBool true, 3%nat, 3%nat)] /\
  (exists d, fst run = Ok d /\
     dget "total_videos" d = Some (VInt 3) /\
     dget "downloaded_count" d = Some (VInt 3) /\
     dget "failed_count" d = Some (VInt 0)).
Proof.
  cbv zeta. split; [vm_compute; reflexivity|].
  eexists. split; [vm_compute; reflexivity|]. repeat split.
Qed.

(** [failed_enumeration_result], run on an empty channel. *)
Lemma failed_enumeration_result_witness :
  exists d w',
    download_channel_videos (Scenario.working []) Scenario.channel_url 2500
      (Some Scenario.quiet) (Scenario.in_session tt) = (Ok d, w') /\
    log w' = log (Scenario.in_session tt) /\
    dget "success" d = Some (VBool false) /\
    (dget "error" d = Some (VStr "Channel scan failed") \/
     dget "error" d = Some (VStr "No videos found in channel")) /\
    dget "downloaded_count" d = Some (VInt 0) /\
    dget "failed_count" d = Some (VInt 0).
Proof.
  apply (failed_enumeration_result (Scenario.working []) Scenario.channel_url 2500
           (Some Scenario.quiet) (Scenario.in_session tt) "/data/output/s1").
  - reflexivity.
  - right. eexists. split; reflexivity.
Defined.

(** ** Invariants: the rules *)

Section Logic.

Context {S U : Type}.
Variable pr : S -> U.

Lemma triple_ret {A} (P : U -> Prop) (a : A) Q R :
  (forall u, P u -> Q a u) -> triple pr P (ret a) Q R.
Proof. intros H s r s' [= <- <-] HP. auto. Qed.

Lemma triple_raise {A} (P : U -> Prop) e (Q : A -> U -> Prop) R :
  (forall u, P u -> R e u) -> triple pr P (raise e) Q R.
Proof. intros H s r s' [= <- <-] HP. auto. Qed.

Lemma triple_bind {A B} P (m : M S A) (k : A -> M S B) Q1 Q R :
  triple pr P m Q1 R -> (forall a, triple pr (Q1 a) (k a) Q R) ->
  triple pr P (bind m k) Q R.
Proof.
  intros Hm Hk s r s' Hrun HP. unfold bind in Hrun.
  destruct (m s) as [[a|e] s1] eqn:H1; specialize (Hm _ _ _ H1 HP); cbn in Hm.
  - exact (Hk a _ _ _ Hrun Hm).
  - injection Hrun as <- <-. exact Hm.
Qed.

Lemma triple_try_catch {A} P (m : M S A) h Q R1 R :
  triple pr P m Q R1 -> (forall e, triple pr (R1 e) (h e) Q R) ->
  triple pr P (try_catch m h) Q R.
Proof.
  intros Hm Hh s r s' Hrun HP. unfold try_catch in Hrun.
  destruct (m s) as [[a|e] s1] eqn:H1; specialize (Hm _ _ _ H1 HP); cbn in Hm.
  - injection Hrun as <- <-. exact Hm.
  - exact (Hh e _ _ _ Hrun Hm).
Qed.

Lemma triple_conseq {A} (P P' : U -> Prop) (m : M S A) (Q Q' : A -> U -> Prop)
    (R R' : string -> U -> Prop) :
  triple pr P' m Q' R' ->
  (forall u, P u -> P' u) -> (forall a u, Q' a u -> Q a u) ->
  (forall e u, R' e u -> R e u) ->
  triple pr P m Q R.
Proof.
  intros Hm HP HQ HR s r s' Hrun Hs. specialize (Hm _ _ _ Hrun (HP _ Hs)).
  destruct r; auto.
Qed.

Lemma keeps_ret {A} I (a : A) : keeps pr I (ret a).
Proof. apply triple_ret. auto. Qed.

Lemma keeps_raise {A} I e : keeps pr I (raise (A := A) e).
Proof. apply triple_raise. auto. Qed.

Lemma keeps_bind {A B} I (m : M S A) (k : A -> M S B) :
  keeps pr I m -> (forall a, keeps pr I (k a)) -> keeps pr I (bind m k).
Proof. intros Hm Hk. eapply triple_bind; [exact Hm|exact Hk]. Qed.

(** The value bound is the value returned. *)
Lemma keeps_bind_ret {A B} I (a : A) (k : A -> M S B) :
  keeps pr I (k a) -> keeps pr I (bind (ret a) k).
Proof. intros Hk s r s' Hrun. exact (Hk s r s' Hrun). Qed.

Lemma keeps_try_catch {A} I (m : M S A) h :
  keeps pr I m -> (forall e, keeps pr I (h e)) -> keeps pr I (try_catch m h).
Proof. intros Hm Hh. eapply triple_try_catch; [exact Hm|exact Hh]. Qed.

Lemma keeps_gets {A} I (f : S -> A) : keeps pr I (gets f).
Proof. intros s r s' [= <- <-] HP. exact HP. Qed.

Lemma keeps_when I c (m : M S unit) : keeps pr I m -> keeps pr I (when c m).
Proof. intros Hm. destruct c; [exact Hm|apply keeps_ret]. Qed.

Lemma keeps_for_each {A} I (xs : list A) body :
  (forall x, keeps pr I (body x)) -> keeps pr I (for_each xs body).
Proof.
  intros Hb. induction xs as [|x xs IH]; cbn.
  - apply keeps_ret.
  - apply keeps_bind; auto.
Qed.

Lemma keeps_item I k d : keeps pr I (item k d).
Proof. unfold item. destruct (dget k d); [apply keeps_ret|apply keeps_raise]. Qed.

Lemma triple_conj {A} P (m : M S A) Q1 Q2 R1 R2 :
  triple pr P m Q1 R1 -> triple pr P m Q2 R2 ->
  triple pr P m (fun a u => Q1 a u /\ Q2 a u) (fun e u => R1 e u /\ R2 e u).
Proof.
  intros H1 H2 s r s' Hrun HP. specialize (H1 _ _ _ Hrun HP).
  specialize (H2 _ _ _ Hrun HP). destruct r; auto.
Qed.

End Logic.

Section LocalsLogic.

Context {L S U : Type}.
Variable pr : S -> U.

Lemma keeps_lift {A} I (m : M S A) :
  keeps pr I m -> keeps (fun ls : L * S => pr (snd ls)) I (lift m).
Proof.
  intros Hm [l s] r [l' s'] Hrun HP. unfold lift in Hrun. cbn in *.
  destruct (m s) as [r1 s1] eqn:H1. injection Hrun as <- <- <-.
  exact (Hm _ _ _ H1 HP).
Qed.

Lemma keeps_modify_local I (f : L -> L) :
  keeps (fun ls : L * S => pr (snd ls)) I (modify_local f).
Proof. intros [l s] r s' [= <- <-] HP. exact HP. Qed.

Lemma keeps_get_local I : keeps (fun ls : L * S => pr (snd ls)) I get_local.
Proof. intros [l s] r s' [= <- <-] HP. exact HP. Qed.

Lemma keeps_with_locals {A} I l0 (m : M (L * S) A) :
  keeps (fun ls : L * S => pr (snd ls)) I m -> keeps pr I (with_locals l0 m).
Proof.
  intros Hm s r s' Hrun HP. unfold with_locals in Hrun.
  destruct (m (l0, s)) as [r1 [l1 s1]] eqn:H1. injection Hrun as <- <-.
  exact (Hm _ _ _ H1 HP).
Qed.

End LocalsLogic.

Create HintDb keeps.

(** One structural step on a goal [keeps pr I m]. *)
Ltac keeps_step :=
  first
    [ assumption
    | solve [auto with keeps]
    | progress cbv zeta
    | apply keeps_ret | apply keeps_raise | apply keeps_gets | apply keeps_item
    | apply keeps_modify_local | apply keeps_get_local
    | apply keeps_bind; [|intros ?]
    | apply keeps_try_catch; [|intros ?]
    | apply keeps_when
    | apply keeps_for_each; intros ?
    | apply keeps_lift
    | apply keeps_with_locals
    | match goal with
      | |- keeps _ _ (match ?x with _ => _ end) => destruct x
      end ].

Ltac keeps_auto := repeat keeps_step.

(** ** Invariants of the pipeline *)

Section Frame.

Context {U X : Type}.
Variable E : env.
Variable pr : world U -> X.
Variable I : X -> Prop.
Hypothesis Hst : stable pr I.

Abbreviation W := (world U).

Ltac prim :=
  intros w r w' Hrun HP;
  repeat (case_match; simplify_eq); simplify_eq;
  repeat first
    [ exact HP
    | apply (stable_tick _ _ Hst)
    | apply (stable_write _ _ Hst)
    | apply (stable_download _ _ Hst)
    | apply (stable_callback _ _ Hst) ].

Lemma keeps_now fmt : keeps pr I (now (U := U) E fmt).
Proof. unfold now. prim. Qed.

Lemma keeps_time_time : keeps pr I (time_time (U := U) E).
Proof. unfold time_time. prim. Qed.

Lemma keeps_mkdir p : keeps pr I (mkdir (U := U) E p).
Proof. unfold mkdir. prim. Qed.

Lemma keeps_path_exists p : keeps pr I (path_exists (U := U) p).
Proof. unfold path_exists. prim. Qed.

Lemma keeps_stat_size p : keeps pr I (stat_size (U := U) p).
Proof. unfold stat_size. prim. Qed.

Lemma keeps_write_file p : keeps pr I (write_file (U := U) E p).
Proof. unfold write_file. prim. Qed.

Lemma keeps_get_video_info u : keeps pr I (get_video_info (U := U) E u).
Proof. unfold get_video_info. prim. Qed.

Lemma keeps_downloader_download u fn :
  keeps pr I (downloader_download (U := U) E u fn).
Proof. unfold downloader_download. prim. Qed.

Lemma keeps_scan_channel ch : keeps pr I (scan_channel (U := U) E ch).
Proof. unfold scan_channel. prim. Qed.

Lemma keeps_get_video_urls p : keeps pr I (get_video_urls (U := U) E p).
Proof. unfold get_video_urls. prim. Qed.

#[local] Hint Resolve keeps_now keeps_time_time keeps_mkdir keeps_path_exists
  keeps_stat_size keeps_write_file keeps_get_video_info keeps_downloader_download
  keeps_scan_channel keeps_get_video_urls : keeps.

Lemma keeps_get_download_summary : keeps pr I (get_download_summary (U := U) E).
Proof. unfold get_download_summary, glob, is_available. keeps_auto. Qed.

(** A callback works on its owner's state: what does not read that state is
    kept by every invocation. *)
Lemma keeps_call_progress_frame cb u s t i :
  (forall st w, pr (set_user st w) = pr w) ->
  keeps pr I (call_progress cb u s t i).
Proof.
  intros Hframe. destruct cb as [f|]; [|apply keeps_ret].
  intros w r w' Hrun HP. unfold call_progress in Hrun.
  destruct (f u s t i _) as [r1 u1] eqn:H1. injection Hrun as <- <-.
  assert (HP' : I (pr (set_user u1 (emit (EvCallback u s t i) w)))).
  { rewrite Hframe. apply (stable_callback _ _ Hst), HP. }
  destruct r1; exact HP'.
Qed.

(** The store is not available: no upload is attempted, and with it no
    removal. *)
Lemma keeps_download_single_video_offline u fn up :
  gcs_available E = false ->
  keeps pr I (download_single_video E u fn up).
Proof.
  intros Hoff. unfold download_single_video.
  repeat first
    [ match goal with
      | |- keeps _ _ (bind (is_available _) _) =>
          unfold is_available; rewrite Hoff; apply keeps_bind_ret;
          rewrite andb_false_r; unfold when
      end
    | keeps_step ].
Qed.

Section Processors.

Variable cb : option (callback (U := U)).
Hypothesis Hvideo : forall u fn up, keeps pr I (download_single_video E u fn up).
Hypothesis Hcall : forall u s t i, keeps pr I (call_progress cb u s t i).

Lemma keeps_download_channel_videos ch max_videos :
  keeps pr I (download_channel_videos E ch max_videos cb).
Proof.
  unfold download_channel_videos, process_one_video, write_video_list.
  keeps_auto.
Qed.

End Processors.

Section Sessions.

Hypothesis Hses : survives_session pr I.

Lemma keeps_new_pipeline : keeps pr I (new_pipeline (U := U) E).
Proof.
  unfold new_pipeline. intros w r w' Hrun HP.
  repeat (case_match; simplify_eq); simplify_eq;
    repeat first
      [ exact HP
      | apply (stable_tick _ _ Hst)
      | apply (session_named _ _ Hses)
      | apply (session_placed _ _ Hses) ].
Qed.

Lemma keeps_set_current_session s :
  keeps pr I (modify (set_current_session (U := U) s)).
Proof.
  intros w r w' [= <- <-] HP. apply (session_named _ _ Hses), HP.
Qed.

Lemma keeps_set_session_dir s : keeps pr I (modify (set_session_dir (U := U) s)).
Proof.
  intros w r w' [= <- <-] HP. apply (session_placed _ _ Hses), HP.
Qed.

#[local] Hint Resolve keeps_set_current_session keeps_set_session_dir : keeps.

Lemma keeps_create_session n : keeps pr I (create_session (U := U) E n).
Proof. unfold create_session. keeps_auto. Qed.

#[local] Hint Resolve keeps_create_session : keeps.

Variable cb : option (callback (U := U)).
Hypothesis Hvideo : forall u fn up, keeps pr I (download_single_video E u fn up).
Hypothesis Hcall : forall u s t i, keeps pr I (call_progress cb u s t i).

Lemma keeps_process_url u fn max_videos :
  keeps pr I (process_url E u fn max_videos cb).
Proof.
  pose proof (keeps_download_channel_videos cb Hvideo Hcall).
  unfold process_url, process_url_body. keeps_auto.
Qed.

End Sessions.

Hypothesis Hup : survives_upload pr I.
Hypothesis Hdel : survives_unlink pr I.

Lemma keeps_unlink p : keeps pr I (unlink (U := U) E p).
Proof.
  unfold unlink. intros w r w' Hrun HP.
  repeat (case_match; simplify_eq); simplify_eq;
    repeat first
      [ exact HP
      | apply (stable_tick _ _ Hst)
      | apply (unlink_traced _ _ Hdel)
      | apply (unlink_removed _ _ Hdel) ].
Qed.

Lemma keeps_blob_upload l r md :
  keeps pr I (blob_upload_from_filename (U := U) E l r md).
Proof.
  unfold blob_upload_from_filename. intros w r0 w' Hrun HP.
  repeat (case_match; simplify_eq); simplify_eq;
    repeat first
      [ exact HP
      | apply (stable_tick _ _ Hst)
      | apply (upload_traced _ _ Hup)
      | apply (upload_stored _ _ Hup) ].
Qed.

#[local] Hint Resolve keeps_unlink keeps_blob_upload : keeps.

Lemma keeps_upload_file l r md : keeps pr I (upload_file (U := U) E l r md).
Proof. unfold upload_file, is_available. keeps_auto. Qed.

#[local] Hint Resolve keeps_upload_file : keeps.

Lemma keeps_download_single_video u fn up :
  keeps pr I (download_single_video (U := U) E u fn up).
Proof.
  unfold download_single_video, upload_immediately, cleanup_local_files, is_available.
  keeps_auto.
Qed.

End Frame.

#[export] Hint Resolve keeps_now keeps_time_time keeps_mkdir keeps_path_exists
  keeps_stat_size keeps_write_file keeps_get_video_info keeps_downloader_download
  keeps_scan_channel keeps_get_video_urls keeps_new_pipeline
  keeps_set_current_session keeps_set_session_dir keeps_create_session
  keeps_get_download_summary : keeps.

(** ** What a run leaves alone *)

Section FrameInstances.

Context {U : Type}.
Variable E : env.

(** The caller's state is touched by nothing the pipeline itself does. *)
Lemma stable_user (I : U -> Prop) : stable (user (U := U)) I.
Proof. split; intros; destruct w; assumption. Qed.

Lemma survives_session_user (I : U -> Prop) : survives_session (user (U := U)) I.
Proof. split; intros; destruct w; assumption. Qed.

Lemma survives_upload_user (I : U -> Prop) : survives_upload (user (U := U)) I.
Proof. split; intros; destruct w; assumption. Qed.

Lemma survives_unlink_user (I : U -> Prop) : survives_unlink (user (U := U)) I.
Proof. split; intros; destruct w; assumption. Qed.

Lemma keeps_lift_user {A} (I : U -> Prop) (m : M U A) :
  keeps (fun st => st) I m -> keeps user I (lift_user m).
Proof.
  intros Hm w r w' Hrun HP. unfold lift_user in Hrun.
  destruct (m (user w)) as [r1 u1] eqn:H1. injection Hrun as <- <-.
  specialize (Hm _ _ _ H1 HP). destruct w, r1; exact Hm.
Qed.

Lemma keeps_call_progress (I : U -> Prop) cb u s t i :
  callback_keeps I cb -> keeps user I (call_progress cb u s t i).
Proof.
  intros Hcb. destruct cb as [f|]; [|apply keeps_ret].
  intros w r w' Hrun HP. unfold call_progress in Hrun.
  destruct (f u s t i _) as [r1 u1] eqn:H1. injection Hrun as <- <-.
  assert (HP' : I (user (emit (EvCallback u s t i) w))) by (destruct w; exact HP).
  specialize (Hcb u s t i _ _ _ H1 HP'). destruct w, r1; exact Hcb.
Qed.

Lemma keeps_process_url_user (I : U -> Prop) cb u fn max_videos :
  callback_keeps I cb -> keeps user I (process_url E u fn max_videos cb).
Proof.
  intros Hcb. apply keeps_process_url.
  - apply stable_user.
  - apply survives_session_user.
  - intros. apply keeps_download_single_video;
      [apply stable_user|apply survives_upload_user|apply survives_unlink_user].
  - intros. apply keeps_call_progress, Hcb.
Qed.

#[local] Hint Resolve stable_user survives_session_user : keeps.

(** With the store unavailable, a whole run keeps whatever survives the
    bookkeeping and does not read the caller's state. *)
Lemma keeps_process_url_offline {X} (pr : world U -> X) (I : X -> Prop)
    cb u fn max_videos :
  stable pr I -> survives_session pr I ->
  (forall st w, pr (set_user st w) = pr w) ->
  gcs_available E = false ->
  keeps pr I (process_url E u fn max_videos cb).
Proof.
  intros Hst Hses Hframe Hoff. apply keeps_process_url; [exact Hst|exact Hses| |].
  - intros. apply keeps_download_single_video_offline; assumption.
  - intros. apply keeps_call_progress_frame; assumption.
Qed.

Lemma stable_bucket (I : gmap string dict -> Prop) : stable (bucket (U := U)) I.
Proof. split; intros; destruct w; assumption. Qed.

Lemma stable_file_present p :
  stable (files (U := U)) (fun f => is_Some (f !! p)).
Proof.
  split; intros; destruct w; try assumption.
  cbn in *. apply lookup_insert_is_Some'. right. assumption.
Qed.

Lemma stable_quiet_log l0 :
  stable (log (U := U))
    (fun l => exists evs, l = l0 ++ evs /\ existsb is_transfer evs = false).
Proof.
  split; intros; destruct w; try assumption; cbn in *;
    match goal with H : exists _, _ |- _ => destruct H as (evs & -> & Hq) end;
    eexists (evs ++ [_]); (split; [symmetry; apply app_assoc|]);
    rewrite existsb_app, Hq; reflexivity.
Qed.

Lemma survives_session_bucket (I : gmap string dict -> Prop) :
  survives_session (bucket (U := U)) I.
Proof. split; intros; destruct w; assumption. Qed.

Lemma survives_session_files (I : gmap string Z -> Prop) :
  survives_session (files (U := U)) I.
Proof. split; intros; destruct w; assumption. Qed.

Lemma survives_session_log (I : list event -> Prop) :
  survives_session (log (U := U)) I.
Proof. split; intros; destruct w; assumption. Qed.


(** X6.  Without an object store, a run of [process_url] uploads nothing and
    removes nothing: the bucket is as before, every local file that existed
    still exists, and the trace gains no upload and no unlink. *)
Theorem offline_run_uploads_and_removes_nothing cb u fn max_videos
    (w w' : world U) r :
  gcs_available E = false ->
  process_url E u fn max_videos cb w = (r, w') ->
  bucket w' = bucket w /\
  (forall p, is_Some (files w !! p) -> is_Some (files w' !! p)) /\
  exists evs, log w' = log w ++ evs /\ existsb is_transfer evs = false.
Proof.
  intros Hoff Hrun. split; [|split].
  - pose proof (keeps_process_url_offline bucket (fun b => b = bucket w)
                  cb u fn max_videos (stable_bucket _) (survives_session_bucket _))
      as H.
    specialize (H (fun st w0 => ltac:(destruct w0; reflexivity)) Hoff
                  w r w' Hrun eq_refl).
    destruct r; exact H.
  - intros p Hp.
    pose proof (keeps_process_url_offline files (fun f => is_Some (f !! p))
                  cb u fn max_videos (stable_file_present p) (survives_session_files _))
      as H.
    specialize (H (fun st w0 => ltac:(destruct w0; reflexivity)) Hoff
                  w r w' Hrun Hp).
    destruct r; exact H.
  - pose proof (keeps_process_url_offline log _
                  cb u fn max_videos (stable_quiet_log (log w)) (survives_session_log _))
      as H.
    specialize (H (fun st w0 => ltac:(destruct w0; reflexivity)) Hoff
                  w r w' Hrun).
    cbn beta in H.
    assert (H0 : exists evs, log w = log w ++ evs /\ existsb is_transfer evs = false).
    { exists []. rewrite app_nil_r. auto. }
    specialize (H H0). destruct r; exact H.
Qed.

End FrameInstances.

#[export] Hint Resolve stable_user survives_session_user keeps_lift_user keeps_call_progress
  keeps_process_url_user : keeps.


Lemma offline_run_uploads_and_removes_nothing_witness :
  let run :=
    process_url (Cases.offline (Scenario.videos_from 1 2)) Scenario.channel_url
      None 2500 None (Scenario.fresh tt) in
  bucket (snd run) = ∅ /\
  (forall p, is_Some ((∅ : gmap string Z) !! p) -> is_Some (files (snd run) !! p)) /\
  exists evs, log (snd run) = [] ++ evs /\ existsb is_transfer evs = false.
Proof.
  intros run.
  apply (offline_run_uploads_and_removes_nothing
           (Cases.offline (Scenario.videos_from 1 2)) None Scenario.channel_url
           None 2500 (Scenario.fresh tt) (snd run) (fst run)).
  - reflexivity.
  - apply surjective_pairing.
Defined.

(** ** The background runners *)

Section AppLogic.

Import App.

Variable id : string.

Lemma triple_on_job (P Q : JobStatus -> Prop) f R :
  (forall j, P j -> Q (f j)) ->
  triple (fun s => s) (job_is id P) (on_job id f) (fun _ => job_is id Q) R.
Proof.
  intros Hf s r s' Hrun (j & Hj & HP). unfold on_job in Hrun. rewrite Hj in Hrun.
  injection Hrun as <- <-. exists (f j). cbn. rewrite lookup_insert_eq. auto.
Qed.

Lemma triple_job_known (P : JobStatus -> Prop) R :
  triple (fun s => s) (job_is id P) (job_known id)
    (fun b s => b = true /\ job_is id P s) R.
Proof.
  intros s r s' [= <- <-] (j & Hj & HP). split; [|exists j; auto].
  apply bool_decide_eq_true. eauto.
Qed.

Lemma triple_with_job_lock {A} (P : JobStatus -> Prop) (m : M app_state A)
    (Q : A -> JobStatus -> Prop) (R : string -> JobStatus -> Prop) :
  triple (fun s => s) (job_is id P) m
    (fun a => job_is id (Q a)) (fun e => job_is id (R e)) ->
  triple (fun s => s) (job_is id P) (with_job_lock m)
    (fun a => job_is id (Q a)) (fun e => job_is id (R e)).
Proof.
  intros Hm s r s' Hrun HP. unfold with_job_lock in Hrun.
  destruct (m _) as [r1 s1] eqn:H1. injection Hrun as <- <-.
  assert (HP' : job_is id P
                  (record_event Acquired (AppState (active_jobs s) true (journal s))))
    by exact HP.
  specialize (Hm _ _ _ H1 HP'). destruct r1; exact Hm.
Qed.

Lemma triple_lift_user {A} (P : app_state -> Prop) (m : M app_state A) Q R :
  triple (fun s => s) P m Q R ->
  triple user P (lift_user (U := app_state) m) Q R.
Proof.
  intros Hm w r w' Hrun HP. unfold lift_user in Hrun.
  destruct (m (user w)) as [r1 u1] eqn:H1. injection Hrun as <- <-.
  specialize (Hm _ _ _ H1 HP). destruct w, r1; exact Hm.
Qed.

(** Writing the three status fields keeps what is recorded. *)
Lemma update_unsettled s p m j : unsettled j -> unsettled (update s p m j).
Proof. intros [Hr He]. split; assumption. Qed.

Lemma keeps_update_unsettled s p m :
  keeps (fun st => st) (job_is id unsettled) (on_job id (update s p m)).
Proof.
  apply (triple_on_job unsettled unsettled _ (fun _ => job_is id unsettled)).
  intros j. apply update_unsettled.
Qed.


Lemma url_progress_callback_keeps :
  callback_keeps (job_is id unsettled) (Some (url_progress_callback id)).
Proof.
  intros u s t i. unfold url_progress_callback.
  destruct (t =? 0)%nat; [apply keeps_raise|apply keeps_update_unsettled].
Qed.

#[local] Hint Resolve keeps_update_unsettled url_progress_callback_keeps : keeps.

Ltac kstep I :=
  try progress cbv zeta;
  eapply (triple_bind _ _ _ _ (fun _ => I));
  [ match goal with |- triple ?pr _ ?m _ _ => change (keeps pr I m) end;
    solve [keeps_auto]
  | intros ? ].

Variable E : env.

(** Reading the clock does not raise. *)
Lemma triple_now (P : app_state -> Prop) fmt R :
  triple user P (now (U := app_state) E fmt) (fun _ => P) R.
Proof.
  intros s r s' Hrun HP. unfold now in Hrun. injection Hrun as <- <-.
  destruct s; exact HP.
Qed.

Lemma process_youtube_url_body_triple job_url opts :
  triple user (job_is id unsettled) (process_youtube_url_body E id job_url opts)
    (fun _ => job_is id completed_with_result)
    (fun _ => job_is id unsettled).
Proof.
  unfold process_youtube_url_body.
  repeat kstep (job_is id unsettled).
  apply triple_lift_user, triple_on_job.
  intros j [Hr He]. repeat split; cbn; eauto.
Qed.

(** X13.  Whatever the collaborators do, [process_youtube_url_background] on a
    registered job with nothing recorded returns without raising and leaves
    the record either completed at 100 with a result and no error, or failed
    at 0 with an error and no result. *)
Theorem youtube_job_settles job_url opts (w : world app_state) :
  job_is id unsettled (user w) ->
  exists w',
    process_youtube_url_background E id job_url opts w = (Ok tt, w') /\
    job_is id (fun j => completed_with_result j \/ failed_with_error j) (user w').
Proof.
  intros HI.
  assert (Ht : triple user (job_is id unsettled)
                 (process_youtube_url_background E id job_url opts)
                 (fun _ => job_is id
                             (fun j => completed_with_result j \/ failed_with_error j))
                 (fun _ _ => False)).
  { unfold process_youtube_url_background.
    eapply triple_bind.
    - apply triple_lift_user, (triple_job_known unsettled).
    - intros [|]; cbn [negb].
      2: { intros s r s' _ [Hk _]. discriminate. }
      eapply triple_conseq with (P' := job_is id unsettled);
        [|intros u [_ H]; exact H|intros a u H; exact H|intros e u H; exact H].
      eapply triple_try_catch.
      + eapply triple_conseq; [apply process_youtube_url_body_triple|auto| |].
        * intros _ u (j & Hj & Hc). exists j. auto.
        * intros e u H. exact H.
      + intros e. eapply triple_bind.
        * apply triple_now.
        * intros t. apply triple_lift_user.
          eapply triple_conseq;
            [apply (triple_on_job unsettled failed_with_error _ (fun _ _ => False))
            |auto| |auto].
          -- intros j [Hr He]. repeat split; cbn; eauto.
          -- intros _ u (j & Hj & Hc). exists j. auto. }
  destruct (process_youtube_url_background E id job_url opts w) as [r w'] eqn:Hrun.
  specialize (Ht _ _ _ Hrun HI). destruct r as [[]|e]; [eauto|destruct Ht].
Qed.


(** *** [process_channel_background] *)

Lemma update_running s p m j :
  String.eqb s "completed" || String.eqb s "failed" = false ->
  running j -> running (update s p m j).
Proof. intros Hs [Hu Ht]. split; [apply update_unsettled; exact Hu|exact Hs]. Qed.

Lemma keeps_update_running s p m :
  String.eqb s "completed" || String.eqb s "failed" = false ->
  keeps (fun st => st) (job_is id running) (on_job id (update s p m)).
Proof.
  intros Hs. apply (triple_on_job running running _ (fun _ => job_is id running)).
  intros j. apply update_running. exact Hs.
Qed.

Lemma keeps_with_job_lock {A} (P : JobStatus -> Prop) (m : M app_state A) :
  keeps (fun st => st) (job_is id P) m ->
  keeps (fun st => st) (job_is id P) (with_job_lock m).
Proof. intros Hm. apply (triple_with_job_lock P m (fun _ => P) (fun _ => P)), Hm. Qed.

Lemma keeps_locked_if_known (P : JobStatus -> Prop) body :
  keeps (fun st => st) (job_is id P) body ->
  keeps user (job_is id P) (locked_if_known id body).
Proof.
  intros Hb. unfold locked_if_known. apply keeps_lift_user, keeps_with_job_lock.
  apply keeps_bind; [apply keeps_gets|]. intros known. apply keeps_when, Hb.
Qed.

Lemma channel_progress_callback_keeps :
  callback_keeps (job_is id running) (Some (channel_progress_callback id)).
Proof.
  intros u s t i. unfold channel_progress_callback. apply keeps_with_job_lock.
  apply keeps_bind; [apply keeps_gets|]. intros known. apply keeps_when.
  cbv zeta. destruct (t =? 0)%nat; [apply keeps_raise|].
  apply keeps_update_running. reflexivity.
Qed.

#[local] Hint Resolve keeps_locked_if_known channel_progress_callback_keeps : keeps.

Lemma dget_dset_ne k k' v d : k <> k' -> dget k (dset k' v d) = dget k d.
Proof.
  intros Hne. induction d as [|[k0 v0] d IH]; cbn.
  - destruct (String.eqb_spec k k'); [contradiction|reflexivity].
  - destruct (String.eqb_spec k' k0) as [->|Hk0]; cbn.
    + destruct (String.eqb_spec k k0); [contradiction|reflexivity].
    + destruct (String.eqb_spec k k0); [reflexivity|exact IH].
Qed.

Lemma succeeded_dset k v d : k <> "success" -> succeeded (dset k v d) = succeeded d.
Proof.
  intros Hne. unfold succeeded, dget_or. rewrite dget_dset_ne by congruence.
  reflexivity.
Qed.

Lemma final_status_triple result R :
  succeeded result = true ->
  triple (fun st => st) (job_is id running) (final_status id result)
    (fun _ => job_is id completed_with_result) R.
Proof.
  intros Hs. unfold final_status. fold (succeeded result). rewrite Hs.
  eapply triple_bind with
    (Q1 := fun _ => job_is id (fun j => status j = "completed" /\ progress j = 100
                                        /\ unsettled j)).
  - cbv zeta. repeat case_match;
      apply triple_on_job; intros j [[Hr He] _]; repeat split; assumption.
  - intros _. apply triple_on_job. intros j (Hst & Hp & Hr & He).
    repeat split; cbn; eauto.
Qed.

Lemma process_channel_body_triple job_url :
  triple user (job_is id running) (process_channel_body E id job_url)
    (fun d s => if succeeded d then job_is id completed_with_result s
                else job_is id running s)
    (fun _ => job_is id running).
Proof.
  unfold process_channel_body. cbv zeta.
  eapply (triple_bind _ _ _ _ (fun _ => job_is id running)).
  { destruct (is_channel_url job_url); apply keeps_locked_if_known,
      keeps_update_running; reflexivity. }
  intros _.
  kstep (job_is id running). kstep (job_is id running).
  - rename a0 into result. fold (succeeded result).
    destruct (succeeded result) eqn:Hs.
    2: { apply triple_ret. intros u Hu. rewrite Hs. exact Hu. }
    kstep (job_is id running). rename a0 into summary.
    eapply triple_bind with
      (Q1 := fun r s => succeeded r = true /\ job_is id running s).
    + destruct (truthy (dget_or "gcp_available" (VBool false) summary)).
      * eapply triple_bind with (Q1 := fun _ => job_is id running).
        -- apply keeps_locked_if_known, keeps_update_running. reflexivity.
        -- intros _. cbv zeta. apply triple_ret. intros u Hu. split; [|exact Hu].
           rewrite succeeded_dset by discriminate. exact Hs.
      * apply triple_ret. auto.
    + intros result'.
      eapply triple_conseq with
        (P' := fun s => succeeded result' = true /\ job_is id running s)
        (Q' := fun d s => if succeeded d then job_is id completed_with_result s
                          else job_is id running s)
        (R' := fun _ => job_is id running); auto.
      intros s r s' Hrun [Hs' HI]. revert s r s' Hrun HI.
      change (triple user (job_is id running)
                (locked_if_known id (final_status id result') ;; ret result')
                (fun d s => if succeeded d then job_is id completed_with_result s
                            else job_is id running s)
                (fun _ => job_is id running)).
      eapply triple_bind with (Q1 := fun _ => job_is id completed_with_result).
      * unfold locked_if_known. apply triple_lift_user.
        apply (triple_with_job_lock running _ (fun _ => completed_with_result)
                 (fun _ => running)).
        eapply triple_bind; [apply (triple_job_known running)|].
        intros [|]; cbn [when].
        -- eapply triple_conseq;
             [apply (final_status_triple result' (fun _ => job_is id running) Hs')
             |intros u [_ H]; exact H|auto|auto].
        -- intros s r s' _ [Hk _]. discriminate.
      * intros _. apply triple_ret. intros u Hu. rewrite Hs'. exact Hu.
Qed.

(** With the job registered, a locked block of writes to it does not raise. *)
Lemma locked_if_known_triple (P Q : JobStatus -> Prop) body R :
  triple (fun st => st) (job_is id P) body (fun _ => job_is id Q)
    (fun _ => job_is id (fun _ => False)) ->
  triple user (job_is id P) (locked_if_known id body) (fun _ => job_is id Q) R.
Proof.
  intros Hb. unfold locked_if_known. apply triple_lift_user.
  apply triple_conseq with (P' := job_is id P) (Q' := fun _ => job_is id Q)
    (R' := fun _ => job_is id (fun _ => False));
    [|auto|auto|intros e u (j & _ & [])].
  apply (triple_with_job_lock P _ (fun _ => Q) (fun _ _ => False)).
  eapply triple_bind; [apply (triple_job_known P)|].
  intros [|]; cbn [when].
  - eapply triple_conseq; [exact Hb|intros u [_ H]; exact H|auto|auto].
  - intros s r s' _ [Hk _]. discriminate.
Qed.

(** X16.  Whatever the collaborators do, [process_channel_background] on a
    registered job that is running returns a dictionary without raising and
    leaves the record completed at 100 with a result, failed at 0 with an
    error, or still running with nothing recorded. *)
Theorem channel_job_outcome job_url (w : world app_state) :
  job_is id running (user w) ->
  exists d w',
    process_channel_background E id job_url w = (Ok d, w') /\
    job_is id (fun j => completed_with_result j \/ failed_with_error j \/ running j)
      (user w').
Proof.
  intros HI.
  assert (Ht : triple user (job_is id running)
                 (process_channel_background E id job_url)
                 (fun _ => job_is id (fun j => completed_with_result j \/
                                                failed_with_error j \/ running j))
                 (fun _ _ => False)).
  { unfold process_channel_background. eapply triple_try_catch.
    - eapply triple_conseq; [apply process_channel_body_triple|auto| |].
      + intros d u H. cbn beta in H.
        destruct (succeeded d); destruct H as (j & Hj & H); exists j; auto.
      + intros e u H. exact H.
    - intros e. eapply triple_bind with (Q1 := fun _ => job_is id failed_with_error).
      + apply locked_if_known_triple.
        eapply triple_bind with
          (Q1 := fun _ => job_is id (fun j => status j = "failed" /\ progress j = 0
                                              /\ unsettled j)).
        * apply triple_on_job. intros j [[Hr He] _]. repeat split; assumption.
        * intros _. apply triple_on_job. intros j (Hs & Hp & Hr & He).
          repeat split; cbn; eauto.
      + intros _. apply triple_ret. intros u (j & Hj & H). exists j. auto. }
  destruct (process_channel_background E id job_url w) as [r w'] eqn:Hrun.
  specialize (Ht _ _ _ Hrun HI). destruct r as [d|e]; [eauto|destruct Ht].
Qed.

(** X17.  The pipeline result was not a success: [process_channel_background]
    returns it and leaves the record as it was, running, never failed. *)
Theorem unsuccessful_result_leaves_job_running job_url (w w' : world app_state) d :
  job_is id running (user w) ->
  process_channel_body E id job_url w = (Ok d, w') ->
  succeeded d = false ->
  process_channel_background E id job_url w = (Ok d, w') /\
  job_is id running (user w').
Proof.
  intros HI Hrun Hs. split.
  - unfold process_channel_background, try_catch. rewrite Hrun. reflexivity.
  - pose proof (process_channel_body_triple job_url _ _ _ Hrun HI) as H.
    cbn in H. rewrite Hs in H. exact H.
Qed.
End AppLogic.

Lemma youtube_job_settles_witness :
  exists w',
    App.process_youtube_url_background (Scenario.working []) "job-1"
      Scenario.video_url (App.Options None None None)
      (Scenario.fresh (Scenario.submitted Scenario.video_url)) = (Ok tt, w') /\
    job_is "job-1" (fun j => completed_with_result j \/ failed_with_error j) (user w').
Proof.
  apply (youtube_job_settles "job-1" (Scenario.working []) Scenario.video_url).
  exists (App.new_job "job-1" Scenario.video_url "2025-01-01T00:00:00").
  split; [vm_compute; reflexivity|split; reflexivity].
Defined.

Lemma channel_job_outcome_witness :
  exists d w',
    App.process_channel_background (Scenario.working (Scenario.videos_from 1 2))
      "job-1" Scenario.channel_url
      (Scenario.fresh (Scenario.submitted Scenario.channel_url)) = (Ok d, w') /\
    job_is "job-1"
      (fun j => completed_with_result j \/ failed_with_error j \/ running j) (user w').
Proof.
  apply (channel_job_outcome "job-1" (Scenario.working (Scenario.videos_from 1 2))
           Scenario.channel_url).
  exists (App.new_job "job-1" Scenario.channel_url "2025-01-01T00:00:00").
  split; [vm_compute; reflexivity|split; [split; reflexivity|reflexivity]].
Defined.

Lemma unsuccessful_result_leaves_job_running_witness :
  let w := Scenario.fresh (Scenario.submitted Scenario.channel_url) in
  let res := App.process_channel_body Scenario.unscannable "job-1" Scenario.channel_url w in
  let d := match fst res with Ok d => d | Raise _ => [] end in
  App.process_channel_background Scenario.unscannable "job-1" Scenario.channel_url w
    = (Ok d, snd res) /\
  job_is "job-1" running (user (snd res)).
Proof.
  intros w res d.
  apply (unsuccessful_result_leaves_job_running "job-1" Scenario.unscannable
           Scenario.channel_url w (snd res) d).
  - exists (App.new_job "job-1" Scenario.channel_url "2025-01-01T00:00:00").
    split; [vm_compute; reflexivity|split; [split; reflexivity|reflexivity]].
  - vm_compute. reflexivity.
  - vm_compute. reflexivity.
Defined.

(** ** More on the per-video processor *)

Section VideoContracts.

Context {U : Type}.
Variable E : env.

Abbreviation W := (world U).

(** X7.  [GCPUploader.upload_file] never raises and never touches a local file.
    When it reports success the store is available, the local file exists, the
    object is in the bucket under the remote key with the metadata given (none
    given: empty), and [public_url] is [gs://<bucket>/<key>].  When it reports
    failure the bucket is unchanged and the result carries an [error].  With
    the store unavailable or the local file missing it fails without
    contacting the store at all. *)
Theorem upload_file_contract l r md (w : W) :
  exists d w',
    upload_file E l r md w = (Ok d, w') /\
    files w' = files w /\
    (upload_ok d = true ->
       gcs_available E = true /\ is_Some (files w !! l) /\
       bucket w' = <[r := default [] md]> (bucket w) /\
       dget "public_url" d
         = Some (VStr ("gs://" +:+ gcs_bucket_name E +:+ "/" +:+ r)) /\
       log w' = log w ++ [EvUpload l r true]) /\
    (upload_ok d = false -> bucket w' = bucket w /\ is_Some (dget "error" d)) /\
    (gcs_available E = false \/ files w !! l = None ->
       w' = w /\ upload_ok d = false).
Proof.
  unfold upload_file, bind, is_available, ret, path_exists, try_catch,
    blob_upload_from_filename, stat_size.
  destruct (gcs_available E) eqn:Hav; cbn [negb].
  2: { do 2 eexists. split; [reflexivity|]. split; [reflexivity|].
       split; [discriminate|]. split; [|auto]. intros _. split; [reflexivity|].
       cbn. eauto. }
  destruct (files w !! l) eqn:Hl; cbn [negb].
  2: { do 2 eexists. split; [reflexivity|]. split; [reflexivity|].
       split; [discriminate|]. split; [|auto]. intros _. split; [reflexivity|].
       cbn. eauto. }
  destruct (gcs_upload_error E (tick w) l r) eqn:He.
  - do 2 eexists. split; [reflexivity|]. destruct w; cbn.
    split; [reflexivity|]. split; [discriminate|]. split.
    + intros _. split; [reflexivity|]. eauto.
    + intros [H|H]; discriminate.
  - destruct w as [f b t lg cs sd u]; cbn in *. rewrite Hl.
    do 2 eexists. split; [reflexivity|]. cbn.
    split; [reflexivity|]. split; [|split].
    + intros _. split; [reflexivity|]. split; [eauto|].
      split; [destruct md; reflexivity|]. split; reflexivity.
    + discriminate.
    + intros [H|H]; discriminate.
Qed.

(** X8.  An upload the bucket refused does not fail the video: its result still
    has [success] true, with [uploaded_to_gcp] and [local_files_cleaned]
    false, and no local file was unlinked. *)
Theorem refused_upload_keeps_the_video url fn up (w : W) sdir :
  session_dir w = Some sdir ->
  exists r w' evs,
    download_single_video E url fn up w = (Ok r, w') /\
    log w' = log w ++ evs /\
    (forall l k, In (EvUpload l k false) evs ->
       dget "success" r = Some (VBool true) /\
       dget "uploaded_to_gcp" r = Some (VBool false) /\
       dget "local_files_cleaned" r = Some (VBool false) /\
       existsb is_unlink evs = false).
Proof.
  intros Hsd.
  destruct (download_single_video_spec E url fn up w sdir Hsd)
    as (r & w' & evs & Hrun & Hlog & Hcase).
  exists r, w', evs. split; [exact Hrun|]. split; [exact Hlog|].
  intros l k Hin.
  destruct Hcase as [(e & -> & Hevs)|(a & vid & title & size & dur & ups & Hcase)].
  { exfalso. destruct Hevs as [->|[a ->]]; cbn in Hin; intuition discriminate. }
  cbn zeta in Hcase. destruct Hcase as (-> & Hout & _).
  destruct Hout as [(-> & Hups)|(dels & u1 & u2 & -> & Hdels & _)].
  - repeat split; try reflexivity.
    destruct Hups as [->|[->|[->| ->]]]; reflexivity.
  - exfalso. destruct Hin as [Hin|[Hin|[Hin|Hin]]]; try discriminate.
    rewrite List.Forall_forall in Hdels. destruct (Hdels _ Hin) as [ok [H|H]];
      discriminate.
Qed.

(** X9.  A video that failed is reported with exactly [success] false, its URL and
    the error message, and nothing was uploaded or unlinked for it; any other
    result has [success] true. *)
Theorem video_result_is_success_or_error url fn up (w : W) sdir :
  session_dir w = Some sdir ->
  exists r w' evs,
    download_single_video E url fn up w = (Ok r, w') /\
    log w' = log w ++ evs /\
    (dget "success" r = Some (VBool true) \/
     (exists e, r = [("success", VBool false); ("url", VStr url); ("error", VStr e)]) /\
     existsb is_transfer evs = false).
Proof.
  intros Hsd.
  destruct (download_single_video_spec E url fn up w sdir Hsd)
    as (r & w' & evs & Hrun & Hlog & Hcase).
  exists r, w', evs. split; [exact Hrun|]. split; [exact Hlog|].
  destruct Hcase as [(e & -> & Hevs)|(a & vid & title & size & dur & ups & Hcase)].
  { right. split; [eauto|]. destruct Hevs as [->|[a ->]]; reflexivity. }
  left. cbn zeta in Hcase. destruct Hcase as (-> & Hout & _).
  destruct Hout as [(-> & _)|(dels & u1 & u2 & -> & _ & _ & _ & Hres)];
    [reflexivity|].
  cbn zeta in Hres. destruct Hres as [(-> & _)|(-> & _)]; reflexivity.
Qed.


End VideoContracts.

Lemma refused_upload_keeps_the_video_witness :
  exists r w' evs,
    download_single_video (Cases.rejecting []) Scenario.video_url None true
      (Scenario.in_session tt) = (Ok r, w') /\
    log w' = log (Scenario.in_session tt) ++ evs /\
    (forall l k, In (EvUpload l k false) evs ->
       dget "success" r = Some (VBool true) /\
       dget "uploaded_to_gcp" r = Some (VBool false) /\
       dget "local_files_cleaned" r = Some (VBool false) /\
       existsb is_unlink evs = false).
Proof.
  apply (refused_upload_keeps_the_video (Cases.rejecting [])
           Scenario.video_url None true (Scenario.in_session tt) "/data/output/s1").
  reflexivity.
Defined.

Lemma video_result_is_success_or_error_witness :
  exists r w' evs,
    download_single_video (Cases.unreachable []) Scenario.video_url None true
      (Scenario.in_session tt) = (Ok r, w') /\
    log w' = log (Scenario.in_session tt) ++ evs /\
    (dget "success" r = Some (VBool true) \/
     (exists e, r = [("success", VBool false); ("url", VStr Scenario.video_url);
                     ("error", VStr e)]) /\
     existsb is_transfer evs = false).
Proof.
  apply (video_result_is_success_or_error (Cases.unreachable [])
           Scenario.video_url None true (Scenario.in_session tt) "/data/output/s1").
  reflexivity.
Defined.


(** The bucket after that run. *)
Example bucket_after_one_video :
  map fst
    (map_to_list
       (bucket (snd (download_single_video (Scenario.working []) Scenario.video_url
                       None true (Scenario.in_session tt))))) ≡ₚ
  ["youtube_downloads/s1/downloads/dQw4w9WgXcQ.flac";
   "youtube_downloads/s1/metadata/dQw4w9WgXcQ_metadata.json"].
Proof. vm_compute. first [reflexivity | apply perm_swap]. Qed.

(** ** The cap on a channel *)

Section ChannelCap.

Context {U : Type}.
Variable E : env.

Abbreviation W := (world U).

(** The guard of line 238 changes nothing: the slice alone gives the list. *)
Lemma capped_slice (all_urls : list string) max_videos :
  capped all_urls max_videos = slice_to all_urls max_videos.
Proof.
  unfold capped, slice_to.
  destruct (Z.ltb_spec max_videos (Z.of_nat (length all_urls))) as [Hlt|Hge];
    [reflexivity|].
  destruct (Z.leb_spec 0 max_videos) as [Hnn|Hneg]; [|lia].
  symmetry. apply firstn_all2. lia.
Qed.

Lemma downloads_app l1 l2 : downloads (l1 ++ l2) = downloads l1 ++ downloads l2.
Proof. apply omap_app. Qed.

Lemma downloads_within_refl urls l0 : downloads_within urls l0 l0.
Proof. exists []. rewrite app_nil_r. split; [reflexivity|constructor]. Qed.

Lemma downloads_within_step urls l0 l evs :
  downloads_within urls l0 l -> Forall (fun u => In u urls) (downloads evs) ->
  downloads_within urls l0 (l ++ evs).
Proof.
  intros (evs0 & -> & H0) H. exists (evs0 ++ evs). split; [symmetry; apply app_assoc|].
  rewrite downloads_app. apply Forall_app. auto.
Qed.

Lemma downloads_unlinks a m dels :
  Forall (is_unlink_of a m) dels -> downloads dels = [].
Proof. induction 1 as [|ev dels [ok [->| ->]] _ IH]; cbn; auto. Qed.

(** One video downloads its own URL, at most. *)
Lemma download_single_video_downloads url fn up (w w' : W) res :
  download_single_video E url fn up w = (res, w') ->
  exists evs, log w' = log w ++ evs /\ Forall (fun u => u = url) (downloads evs).
Proof.
  intros Hrun. destruct (session_dir w) as [sdir|] eqn:Hsd.
  - destruct (download_single_video_spec E url fn up w sdir Hsd)
      as (r & w1 & evs & Hrun1 & Hlog & Hcase).
    rewrite Hrun1 in Hrun. injection Hrun as <- <-.
    exists evs. split; [exact Hlog|].
    destruct Hcase as [(e & -> & Hevs)|(a & vid & title & size & dur & ups & Hcase)].
    + destruct Hevs as [->|[a ->]]; repeat constructor.
    + cbn zeta in Hcase. destruct Hcase as (-> & Hout & _).
      destruct Hout as [(-> & Hups)|(dels & u1 & u2 & -> & Hdels & _)].
      * destruct Hups as [->|[->|[->| ->]]]; repeat constructor.
      * change (Forall (fun u => u = url) (url :: downloads dels)).
        rewrite (downloads_unlinks _ _ _ Hdels). repeat constructor.
  - unfold download_single_video, bind, gets in Hrun. rewrite Hsd in Hrun.
    injection Hrun as <- <-. exists []. rewrite app_nil_r.
    split; [reflexivity|constructor].
Qed.

Section Loop.

Variable urls : list string.
Variable l0 : list event.

Lemma keeps_downloads_video url fn up :
  In url urls ->
  keeps log (downloads_within urls l0) (download_single_video (U := U) E url fn up).
Proof.
  intros Hin w r w' Hrun HP.
  destruct (download_single_video_downloads _ _ _ _ _ _ Hrun) as (evs & Hl & Hd).
  assert (H : downloads_within urls l0 (log w')).
  { rewrite Hl. apply downloads_within_step; [exact HP|].
    eapply Forall_impl; [exact Hd|]. intros u ->. exact Hin. }
  destruct r; exact H.
Qed.

Lemma keeps_downloads_call cb u s t i :
  keeps log (downloads_within urls l0) (call_progress (U := U) cb u s t i).
Proof.
  destruct cb as [f|]; [|apply keeps_ret].
  intros w r w' Hrun HP. unfold call_progress in Hrun.
  destruct (f u s t i _) as [r1 u1] eqn:H1. injection Hrun as <- <-.
  assert (H : downloads_within urls l0
                (log (set_user u1 (emit (EvCallback u s t i) w)))).
  { destruct w; cbn in *. apply downloads_within_step; [exact HP|constructor]. }
  destruct r1; exact H.
Qed.

Lemma keeps_downloads_turn cb total i url :
  In url urls ->
  keeps (fun ls : (list dict * list dict) * W => log (snd ls))
    (downloads_within urls l0) (process_one_video E cb total i url).
Proof.
  intros Hin. pose proof (keeps_downloads_video url None true Hin).
  pose proof (keeps_downloads_call cb).
  unfold process_one_video. keeps_auto.
Qed.

Lemma keeps_for_each_in {S X A} (pr : S -> X) I (xs : list A) body :
  (forall x, In x xs -> keeps pr I (body x)) -> keeps pr I (for_each xs body).
Proof.
  induction xs as [|x xs IH]; intros Hb; cbn.
  - apply keeps_ret.
  - apply keeps_bind; [apply Hb; left; reflexivity|].
    intros _. apply IH. intros y Hy. apply Hb. right. exact Hy.
Qed.

Lemma enumerate_from_in {A} k (xs : list A) iu :
  In iu (enumerate_from k xs) -> In (snd iu) xs.
Proof.
  revert k. induction xs as [|x xs IH]; intros k; cbn; [tauto|].
  intros [<-|H]; [left; reflexivity|right; eapply IH; exact H].
Qed.

End Loop.


End ChannelCap.


(** The cap at work: of five videos, two are downloaded and reported. *)
Example two_of_five :
  let run :=
    download_channel_videos (Scenario.working (Scenario.videos_from 1 5))
      Scenario.channel_url 2 (Some Scenario.quiet) (Scenario.in_session tt) in
  downloads (log (snd run)) =
    ["https://www.youtube.com/watch?v=video1";
     "https://www.youtube.com/watch?v=video2"] /\
  map (fun c => snd c) (callbacks (log (snd run))) = [1%nat; 2%nat].
Proof. cbv zeta. split; vm_compute; reflexivity. Qed.

(** ** A poller against a runner that takes the lock *)

(** X21.  [process_channel_background] calls [JobStatus.update] inside
    [with job_lock:].  Whatever the order in which the two threads take their
    steps, a [get_status] that runs to its end has read the record whole:
    either as it was before the update or as the update leaves it, never a
    mixture of the two. *)
Theorem locked_update_is_never_torn j s p m schedule c :
  Interleaving.run schedule
    (Interleaving.start j (Interleaving.update_locked s p m) Interleaving.get_status)
    = Some c ->
  Interleaving.poller c = [] ->
  Interleaving.seen c = Interleaving.whole j \/
  Interleaving.seen c = Interleaving.whole (App.update s p m j).
Proof.
  intros Hrun Hdone.
  repeat (destruct schedule as [|[|] schedule]; cbn in Hrun;
          try discriminate;
          try (injection Hrun as <-; cbn in Hdone; try discriminate;
               cbn; auto)).
Qed.

Lemma locked_update_is_never_torn_witness :
  let j := App.new_job "job-1" Scenario.channel_url "2025-01-01T00:00:00" in
  let schedule :=
    [Interleaving.Writer; Interleaving.Writer; Interleaving.Writer;
     Interleaving.Writer; Interleaving.Writer; Interleaving.Poller;
     Interleaving.Poller; Interleaving.Poller; Interleaving.Poller;
     Interleaving.Poller] in
  exists c,
    Interleaving.run schedule
      (Interleaving.start j
         (Interleaving.update_locked "downloading" 10
            "Iniciando processamento do canal...")
         Interleaving.get_status) = Some c /\
    (Interleaving.seen c = Interleaving.whole j \/
     Interleaving.seen c =
       Interleaving.whole
         (App.update "downloading" 10 "Iniciando processamento do canal..." j)).
Proof.
  intros j schedule. eexists. split; [vm_compute; reflexivity|].
  eapply (locked_update_is_never_torn j "downloading" 10
            "Iniciando processamento do canal..." schedule).
  - vm_compute. reflexivity.
  - reflexivity.
Defined.

(** ** The registry under a run *)

Section Registry.

Import App.

Variable E : env.
Variable id : string.

Abbreviation W := (world app_state).

Lemma keeps_lift_user_via {A X} (g : app_state -> X) I (m : M app_state A) :
  keeps g I m -> keeps (fun w : W => g (user w)) I (lift_user m).
Proof.
  intros Hm w r w' Hrun HP. unfold lift_user in Hrun.
  destruct (m (user w)) as [r1 u1] eqn:H1. injection Hrun as <- <-.
  specialize (Hm _ _ _ H1 HP). destruct w, r1; exact Hm.
Qed.

Lemma keeps_call_progress_via {X} (g : app_state -> X) I f u s t i :
  keeps g I (f u s t i) ->
  keeps (fun w : W => g (user w)) I (call_progress (Some f) u s t i).
Proof.
  intros Hf w r w' Hrun HP. unfold call_progress in Hrun.
  destruct (f u s t i _) as [r1 u1] eqn:H1. injection Hrun as <- <-.
  assert (HP' : I (g (user (emit (EvCallback u s t i) w)))) by (destruct w; exact HP).
  specialize (Hf _ _ _ H1 HP'). destruct w, r1; exact Hf.
Qed.

Lemma stable_via_user {X} (g : app_state -> X) I :
  stable (fun w : W => g (user w)) I.
Proof. split; intros; destruct w; assumption. Qed.

Lemma survives_session_via_user {X} (g : app_state -> X) I :
  survives_session (fun w : W => g (user w)) I.
Proof. split; intros; destruct w; assumption. Qed.

Lemma survives_upload_via_user {X} (g : app_state -> X) I :
  survives_upload (fun w : W => g (user w)) I.
Proof. split; intros; destruct w; assumption. Qed.

Lemma survives_unlink_via_user {X} (g : app_state -> X) I :
  survives_unlink (fun w : W => g (user w)) I.
Proof. split; intros; destruct w; assumption. Qed.

(** The pipeline under a runner keeps what the runner's callback keeps. *)
Lemma keeps_process_url_via {X} (g : app_state -> X) I f u fn max_videos :
  (forall u s t i, keeps g I (f u s t i)) ->
  keeps (fun w : W => g (user w)) I (process_url E u fn max_videos (Some f)).
Proof.
  intros Hf. apply keeps_process_url.
  - apply stable_via_user.
  - apply survives_session_via_user.
  - intros. apply keeps_download_single_video;
      [apply stable_via_user|apply survives_upload_via_user
      |apply survives_unlink_via_user].
  - intros. apply keeps_call_progress_via, Hf.
Qed.

(** Taking and releasing the lock leaves the records alone. *)
Lemma keeps_with_job_lock_jobs {A} I (m : M app_state A) :
  keeps active_jobs I m -> keeps active_jobs I (with_job_lock m).
Proof.
  intros Hm s r s' Hrun HP. unfold with_job_lock in Hrun.
  destruct (m _) as [r1 s1] eqn:H1. injection Hrun as <- <-.
  specialize (Hm _ _ _ H1 HP). destruct r1; exact Hm.
Qed.

(** *** A job that is not registered *)

Section Unknown.

Variable jobs : gmap string JobStatus.
Hypothesis Habsent : jobs !! id = None.

Abbreviation same := (fun m : gmap string JobStatus => m = jobs).

Lemma keeps_on_job_absent f : keeps active_jobs same (on_job id f).
Proof.
  intros s r s' Hrun HP. unfold on_job in Hrun. cbn beta in HP.
  rewrite HP, Habsent in Hrun. injection Hrun as <- <-. exact HP.
Qed.

Lemma keeps_locked_if_known_absent body :
  keeps active_jobs same body ->
  keeps (fun w : W => active_jobs (user w)) same (locked_if_known id body).
Proof.
  intros Hb. unfold locked_if_known.
  apply (keeps_lift_user_via active_jobs), keeps_with_job_lock_jobs.
  apply keeps_bind; [apply keeps_gets|]. intros known. apply keeps_when, Hb.
Qed.

Lemma channel_progress_callback_absent u s t i :
  keeps active_jobs same (channel_progress_callback id u s t i).
Proof.
  unfold channel_progress_callback. apply keeps_with_job_lock_jobs.
  apply keeps_bind; [apply keeps_gets|]. intros known. apply keeps_when.
  cbv zeta. destruct (t =? 0)%nat; [apply keeps_raise|apply keeps_on_job_absent].
Qed.

Lemma locked_if_known_absent_returns body (w : W) :
  active_jobs (user w) = jobs ->
  exists w', locked_if_known id body w = (Ok tt, w') /\ active_jobs (user w') = jobs.
Proof.
  intros Hw. unfold locked_if_known, lift_user, with_job_lock, bind, job_known, gets.
  cbn [active_jobs record_event]. rewrite Hw.
  rewrite bool_decide_eq_false_2 by (rewrite Habsent; intros [? ?]; discriminate).
  cbn. eexists. split; [reflexivity|]. destruct w; reflexivity.
Qed.

#[local] Hint Resolve keeps_on_job_absent keeps_locked_if_known_absent
  channel_progress_callback_absent stable_via_user survives_session_via_user : keeps.

Lemma keeps_process_channel_body_absent job_url :
  keeps (fun w : W => active_jobs (user w)) same (process_channel_body E id job_url).
Proof.
  pose proof (keeps_process_url_via active_jobs same (channel_progress_callback id)
                job_url None 2500 channel_progress_callback_absent).
  unfold process_channel_body, final_status.
  repeat first [apply keeps_locked_if_known_absent | keeps_step].
Qed.

End Unknown.

(** X18.  A job id that is not in the registry (the [/process_channel] route starts
    the runner before it registers the job): [process_channel_background]
    returns a dictionary without raising and leaves every record as it was,
    creating none; [process_youtube_url_background] raises [KeyError] at once
    and does nothing. *)
Theorem unknown_job_is_left_alone job_url opts (w : W) :
  active_jobs (user w) !! id = None ->
  (exists d w',
     process_channel_background E id job_url w = (Ok d, w') /\
     active_jobs (user w') = active_jobs (user w)) /\
  process_youtube_url_background E id job_url opts w = (Raise ("'" +:+ id +:+ "'"), w).
Proof.
  intros Habsent. split.
  - unfold process_channel_background, try_catch.
    destruct (process_channel_body E id job_url w) as [[d|e] w1] eqn:Hrun;
      pose proof (keeps_process_channel_body_absent _ Habsent job_url _ _ _ Hrun
                    eq_refl) as Hk; cbn beta in Hk.
    + eauto.
    + unfold bind.
      match goal with
      | |- context [locked_if_known id ?body w1] =>
          destruct (locked_if_known_absent_returns _ Habsent body w1 Hk)
            as (w2 & -> & Hw2)
      end.
      do 2 eexists. split; [reflexivity|exact Hw2].
  - unfold process_youtube_url_background, bind, lift_user, job_known, gets.
    rewrite bool_decide_eq_false_2 by (rewrite Habsent; intros [? ?]; discriminate).
    destruct w; reflexivity.
Qed.

(** *** What the channel runner never writes *)

Section Fields.

Variable P : JobStatus -> Prop.
Hypothesis P_update : forall s p m j, P j -> P (update s p m j).
Hypothesis P_results : forall r j, P j -> P (set_results r j).
Hypothesis P_error : forall e j, P j -> P (set_error e j).

Lemma keeps_on_job_field f :
  (forall j, P j -> P (f j)) -> keeps (fun st => st) (job_is id P) (on_job id f).
Proof.
  intros Hf. apply (triple_on_job id P P f (fun _ => job_is id P)). exact Hf.
Qed.

Lemma keeps_update_field s p m :
  keeps (fun st => st) (job_is id P) (on_job id (update s p m)).
Proof. apply keeps_on_job_field. intros j. apply P_update. Qed.

Lemma keeps_results_field r :
  keeps (fun st => st) (job_is id P) (on_job id (set_results r)).
Proof. apply keeps_on_job_field. intros j. apply P_results. Qed.

Lemma keeps_error_field e :
  keeps (fun st => st) (job_is id P) (on_job id (set_error e)).
Proof. apply keeps_on_job_field. intros j. apply P_error. Qed.

Lemma channel_progress_callback_field :
  callback_keeps (job_is id P) (Some (channel_progress_callback id)).
Proof.
  intros u s t i. unfold channel_progress_callback. apply keeps_with_job_lock.
  apply keeps_bind; [apply keeps_gets|]. intros known. apply keeps_when.
  cbv zeta. destruct (t =? 0)%nat; [apply keeps_raise|apply keeps_update_field].
Qed.

#[local] Hint Resolve keeps_update_field keeps_results_field keeps_error_field
  channel_progress_callback_field keeps_locked_if_known : keeps.

Lemma keeps_process_channel_background_field job_url :
  keeps user (job_is id P) (process_channel_background E id job_url).
Proof.
  unfold process_channel_background, process_channel_body, final_status.
  repeat first [apply keeps_locked_if_known | keeps_step].
Qed.

End Fields.

(** X19.  [process_channel_background] writes only [status], [progress], [message],
    [results] and [error] of its job: the record's [job_id], [url],
    [start_time] and [end_time] are after the run what they were before it,
    however the run ends.  A job it completes or fails therefore has no
    [end_time]. *)
Theorem channel_runner_keeps_identity_and_times job_url (w w' : W) r i u t e :
  job_is id (fun j => job_id j = i /\ url j = u /\ start_time j = t /\ end_time j = e)
    (user w) ->
  process_channel_background E id job_url w = (r, w') ->
  job_is id (fun j => job_id j = i /\ url j = u /\ start_time j = t /\ end_time j = e)
    (user w').
Proof.
  intros HI Hrun.
  pose proof (keeps_process_channel_background_field
                (fun j => job_id j = i /\ url j = u /\ start_time j = t /\ end_time j = e))
    as Hk.
  specialize (Hk (fun s p m j H => H) (fun r j H => H) (fun e j H => H)
                job_url w r w' Hrun HI).
  destruct r; exact Hk.
Qed.

End Registry.

Lemma unknown_job_is_left_alone_witness :
  (exists d w',
     App.process_channel_background (Scenario.working (Scenario.videos_from 1 2))
       "job-2" Scenario.channel_url
       (Scenario.fresh (Scenario.submitted Scenario.channel_url)) = (Ok d, w') /\
     App.active_jobs (user w') =
       App.active_jobs
         (user (Scenario.fresh (Scenario.submitted Scenario.channel_url)))) /\
  App.process_youtube_url_background (Scenario.working (Scenario.videos_from 1 2))
    "job-2" Scenario.channel_url (App.Options None None None)
    (Scenario.fresh (Scenario.submitted Scenario.channel_url))
    = (Raise ("'" +:+ "job-2" +:+ "'"),
       Scenario.fresh (Scenario.submitted Scenario.channel_url)).
Proof.
  apply (unknown_job_is_left_alone (Scenario.working (Scenario.videos_from 1 2))
           "job-2" Scenario.channel_url (App.Options None None None)
           (Scenario.fresh (Scenario.submitted Scenario.channel_url))).
  vm_compute. reflexivity.
Defined.

Lemma channel_runner_keeps_identity_and_times_witness :
  let w := Scenario.fresh (Scenario.submitted Scenario.channel_url) in
  let run :=
    App.process_channel_background (Scenario.working (Scenario.videos_from 1 2))
      "job-1" Scenario.channel_url w in
  job_is "job-1"
    (fun j => App.job_id j = "job-1" /\ App.url j = Scenario.channel_url /\
              App.start_time j = "2025-01-01T00:00:00" /\ App.end_time j = None)
    (user (snd run)).
Proof.
  intros w run.
  apply (channel_runner_keeps_identity_and_times
           (Scenario.working (Scenario.videos_from 1 2)) "job-1"
           Scenario.channel_url w (snd run) (fst run)).
  - exists (App.new_job "job-1" Scenario.channel_url "2025-01-01T00:00:00").
    split; [vm_compute; reflexivity|repeat split].
  - apply surjective_pairing.
Defined.

(** ** The routes on the registry *)

Section RouteProofs.

Import App.

Lemma clean_for_json_id : forall v, Routes.clean_for_json v = v.
Proof.
  fix IH 1. intros [| | | | l | d]; cbn; try reflexivity.
  - f_equal. induction l as [|x l IHl]; cbn; [reflexivity|].
    rewrite IH, IHl. reflexivity.
  - f_equal. induction d as [|[k x] d IHd]; cbn; [reflexivity|].
    rewrite IH, IHd. reflexivity.
Qed.

Lemma get_status_spec id (s : app_state) :
  exists s',
    Routes.get_status id s =
      (Ok match active_jobs s !! id with
          | None => Routes.not_found
          | Some job =>
              (VDict [("job_id", VStr (job_id job));
                      ("status", VStr (status job));
                      ("progress", VInt (progress job));
                      ("message", VStr (message job));
                      ("start_time", VStr (start_time job));
                      ("end_time", Routes.nullable (end_time job));
                      ("error", Routes.nullable (error job))], 200)
          end, s') /\
    active_jobs s' = active_jobs s.
Proof.
  unfold Routes.get_status, try_catch, with_job_lock, bind, gets.
  cbn [active_jobs record_event].
  destruct (active_jobs s !! id); eexists; split; reflexivity.
Qed.

Section WithClock.

Variable total_seconds : string -> string -> value.

Lemma get_result_spec id (s : app_state) :
  exists s',
    Routes.get_result total_seconds id s =
      (Ok match active_jobs s !! id with
          | None => Routes.not_found
          | Some job =>
              if negb (String.eqb (status job) "completed") then
                (VDict [("error", VStr "Job ainda não foi concluído")], 400)
              else
                (VDict [("job_id", VStr (job_id job));
                        ("status", VStr (status job));
                        ("results", VDict (default [] (results job)));
                        ("gcp_upload",
                         dget_or "gcp_upload" (VDict []) (default [] (results job)));
                        ("processing_time",
                         match end_time job with
                         | Some t => total_seconds (start_time job) t
                         | None => VInt 0
                         end)], 200)
          end, s') /\
    active_jobs s' = active_jobs s.
Proof.
  unfold Routes.get_result, with_job_lock, bind, gets.
  cbn [active_jobs record_event].
  destruct (active_jobs s !! id) as [job|]; [|eexists; split; reflexivity].
  destruct (negb (String.eqb (status job) "completed"));
    [eexists; split; reflexivity|].
  assert (Hres :
    match results job with
    | Some r =>
        if truthy (VDict r) then Routes.clean_for_json (VDict r) else VDict []
    | None => VDict []
    end = VDict (default [] (results job))).
  { destruct (results job) as [[|kv r]|]; try reflexivity.
    cbn [truthy default]. apply clean_for_json_id. }
  cbv zeta. rewrite Hres. eexists. split; reflexivity.
Qed.

(** X22.  [cleanup_job] always answers 200 and leaves the registry without the job,
    whether or not it was there; afterwards [get_status] and [get_result]
    answer 404 for that id, every other job is reported as before, and a
    second [cleanup_job] changes nothing. *)
Theorem cleanup_removes_the_job id (s : app_state) :
  exists s',
    Routes.cleanup_job id s = (Ok (VDict [("message", VStr "Job removido")], 200), s') /\
    active_jobs s' = delete id (active_jobs s) /\
    fst (Routes.get_status id s') = Ok Routes.not_found /\
    fst (Routes.get_result total_seconds id s') = Ok Routes.not_found /\
    (forall id', id' <> id ->
       fst (Routes.get_status id' s') = fst (Routes.get_status id' s) /\
       fst (Routes.get_result total_seconds id' s')
         = fst (Routes.get_result total_seconds id' s)) /\
    active_jobs (snd (Routes.cleanup_job id s')) = active_jobs s'.
Proof.
  assert (Hrun : forall s0 : app_state, exists s1,
            Routes.cleanup_job id s0
              = (Ok (VDict [("message", VStr "Job removido")], 200), s1) /\
            active_jobs s1 = delete id (active_jobs s0)).
  { intros s0.
    unfold Routes.cleanup_job, with_job_lock, bind, job_known, gets, when, modify, ret.
    cbn [active_jobs record_event].
    destruct (bool_decide (is_Some (active_jobs s0 !! id))) eqn:Hk.
    - eexists. split; reflexivity.
    - eexists. split; [reflexivity|]. cbn. symmetry. apply delete_id.
      apply bool_decide_eq_false in Hk. apply eq_None_not_Some. exact Hk. }
  destruct (Hrun s) as (s' & Hc & Hj). exists s'.
  split; [exact Hc|]. split; [exact Hj|].
  assert (Hgone : active_jobs s' !! id = None) by (rewrite Hj; apply lookup_delete_eq).
  split; [|split; [|split]].
  - destruct (get_status_spec id s') as (s1 & -> & _). cbn. rewrite Hgone. reflexivity.
  - destruct (get_result_spec id s') as (s1 & -> & _). cbn. rewrite Hgone. reflexivity.
  - intros id' Hne.
    assert (Hsame : active_jobs s' !! id' = active_jobs s !! id')
      by (rewrite Hj; apply lookup_delete_ne; congruence).
    split.
    + destruct (get_status_spec id' s') as (s1 & -> & _).
      destruct (get_status_spec id' s) as (s2 & -> & _). cbn. rewrite Hsame. reflexivity.
    + destruct (get_result_spec id' s') as (s1 & -> & _).
      destruct (get_result_spec id' s) as (s2 & -> & _). cbn. rewrite Hsame. reflexivity.
  - destruct (Hrun s') as (s2 & Hc2 & Hj2). rewrite Hc2. cbn [snd].
    rewrite Hj2. apply delete_id. exact Hgone.
Qed.

(** X23.  [get_status] and [get_result] never raise and change no record.
    [get_status] answers 404 for an unknown id and 200 otherwise, never 500.
    [get_result] answers 404 for an unknown id, 400 for a job whose status is
    not [completed] (a failed job included), and otherwise 200 with the
    recorded results unchanged (an empty object when there are none) and
    [processing_time] 0 when the record has no [end_time]. *)
Theorem read_routes_serve_the_record id (s : app_state) :
  exists st rs s1 s2,
    Routes.get_status id s = (Ok st, s1) /\
    Routes.get_result total_seconds id s = (Ok rs, s2) /\
    active_jobs s1 = active_jobs s /\ active_jobs s2 = active_jobs s /\
    match active_jobs s !! id with
    | None => st = Routes.not_found /\ rs = Routes.not_found
    | Some job =>
        snd st = 200 /\
        (status job <> "completed" -> snd rs = 400) /\
        (status job = "completed" ->
           snd rs = 200 /\
           exists body,
             fst rs = VDict body /\
             dget "results" body = Some (VDict (default [] (results job))) /\
             (end_time job = None -> dget "processing_time" body = Some (VInt 0)))
    end.
Proof.
  destruct (get_status_spec id s) as (s1 & Hst & H1).
  destruct (get_result_spec id s) as (s2 & Hrs & H2).
  do 2 eexists. exists s1, s2. split; [exact Hst|]. split; [exact Hrs|].
  split; [exact H1|]. split; [exact H2|].
  destruct (active_jobs s !! id) as [job|]; [|split; reflexivity].
  split; [reflexivity|]. split.
  - intros Hne. apply String.eqb_neq in Hne. rewrite Hne. reflexivity.
  - intros Heq. apply String.eqb_eq in Heq. rewrite Heq. cbn [negb].
    split; [reflexivity|]. eexists. split; [reflexivity|].
    split; [reflexivity|]. intros ->. reflexivity.
Qed.

(** X24.  A job registered without an end time (as [JobStatus] creates it)
    that [process_channel_background] has run is, whatever the outcome,
    reported by [get_status] with [end_time] null, and by [get_result], once
    completed, with [processing_time] 0: that runner never stamps the end. *)
Theorem channel_job_reports_no_end_time E id job_url (w w' : world app_state) r :
  job_is id (fun j => end_time j = None) (user w) ->
  process_channel_background E id job_url w = (r, w') ->
  exists st rs s1 s2,
    Routes.get_status id (user w') = (Ok st, s1) /\
    Routes.get_result total_seconds id (user w') = (Ok rs, s2) /\
    (exists body, st = (VDict body, 200) /\ dget "end_time" body = Some VNone) /\
    (snd rs = 400 \/
     exists body, rs = (VDict body, 200) /\
                  dget "processing_time" body = Some (VInt 0)).
Proof.
  intros HI Hrun.
  pose proof (keeps_process_channel_background_field E id
                (fun j => end_time j = None)
                (fun s p m j H => H) (fun r j H => H) (fun e j H => H)
                job_url w r w' Hrun HI) as Hk.
  assert (Hj : job_is id (fun j => end_time j = None) (user w'))
    by (destruct r; exact Hk).
  destruct Hj as (j & Hj & Hend).
  destruct (get_status_spec id (user w')) as (s1 & Hst & _).
  destruct (get_result_spec id (user w')) as (s2 & Hrs & _).
  rewrite Hj in Hst, Hrs.
  do 2 eexists. exists s1, s2. split; [exact Hst|]. split; [exact Hrs|]. split.
  - eexists. split; [reflexivity|]. cbn. rewrite Hend. reflexivity.
  - destruct (negb (String.eqb (status j) "completed")); [left; reflexivity|].
    right. eexists. split; [reflexivity|]. cbn. rewrite Hend. reflexivity.
Qed.

End WithClock.

End RouteProofs.

Lemma channel_job_reports_no_end_time_witness :
  let w := Scenario.fresh (Scenario.submitted Scenario.channel_url) in
  let run :=
    App.process_channel_background (Scenario.working (Scenario.videos_from 1 2))
      "job-1" Scenario.channel_url w in
  exists st rs s1 s2,
    Routes.get_status "job-1" (user (snd run)) = (Ok st, s1) /\
    Routes.get_result (fun _ _ => VInt 1) "job-1" (user (snd run)) = (Ok rs, s2) /\
    (exists body, st = (VDict body, 200) /\ dget "end_time" body = Some VNone) /\
    (snd rs = 400 \/
     exists body, rs = (VDict body, 200) /\
                  dget "processing_time" body = Some (VInt 0)).
Proof.
  intros w run.
  apply (channel_job_reports_no_end_time (fun _ _ => VInt 1)
           (Scenario.working (Scenario.videos_from 1 2)) "job-1"
           Scenario.channel_url w (snd run) (fst run)).
  - exists (App.new_job "job-1" Scenario.channel_url "2025-01-01T00:00:00").
    split; [vm_compute; reflexivity|reflexivity].
  - apply surjective_pairing.
Defined.

(** What the routes answer after that run: the job is completed, without an
    end time. *)
Example completed_channel_job_as_served :
  let w := Scenario.fresh (Scenario.submitted Scenario.channel_url) in
  let run :=
    App.process_channel_background (Scenario.working (Scenario.videos_from 1 2))
      "job-1" Scenario.channel_url w in
  fst (Routes.get_status "job-1" (user (snd run))) =
    Ok (VDict [("job_id", VStr "job-1"); ("status", VStr "completed");
               ("progress", VInt 100);
               ("message",
                VStr "✅ Canal processado e enviado para GCP! 2/2 vídeos");
               ("start_time", VStr "2025-01-01T00:00:00");
               ("end_time", VNone); ("error", VNone)], 200).
Proof. cbv zeta. vm_compute. reflexivity. Qed.

(** ** What [process_url] returns *)

Section ResultShape.

Context {U : Type}.
Variable E : env.

Abbreviation W := (world U).

Lemma dget_dset_eq k v d : dget k (dset k v d) = Some v.
Proof.
  induction d as [|[k0 v0] d IH]; cbn.
  - rewrite String.eqb_refl. reflexivity.
  - destruct (String.eqb_spec k k0) as [->|Hne]; cbn.
    + rewrite String.eqb_refl. reflexivity.
    + destruct (String.eqb_spec k k0); [contradiction|exact IH].
Qed.

Ltac dget_simpl :=
  repeat first [rewrite dget_dset_eq | rewrite dget_dset_ne by discriminate].

(** Whatever [m] does. *)
Lemma triple_top {S X A} (pr : S -> X) P (m : M S A) :
  triple pr P m (fun _ _ => True) (fun _ _ => True).
Proof. intros s r s' _ _. destruct r; exact Logic.I. Qed.

Lemma counted_channel_failure e : counted (channel_failure e).
Proof. split; [eexists; reflexivity|]. exists 0, 0. repeat split; lia. Qed.

Lemma download_channel_videos_counted ch max_videos cb (w : W) sdir :
  session_dir w = Some sdir ->
  exists d w', download_channel_videos E ch max_videos cb w = (Ok d, w') /\ counted d.
Proof.
  intros Hsd. unfold download_channel_videos. unfold bind at 1. unfold gets.
  rewrite Hsd. unfold try_catch.
  match goal with
  | |- context [match ?body w with _ => _ end] =>
      assert (Ht : triple (fun w : W => w) (fun _ => True) body
                     (fun d _ => counted d) (fun _ _ => True));
      [|destruct (body w) as [[d|e] w'] eqn:Hrun;
        [specialize (Ht _ _ _ Hrun Logic.I)|]]
  end.
  - repeat first
      [ progress cbv zeta
      | eapply triple_bind with (Q1 := fun _ _ => True);
          [apply triple_top|intros ?]
      | match goal with
        | |- triple _ _ (match ?x with _ => _ end) _ _ => destruct x
        end
      | apply triple_ret; intros _ _ ].
    + apply counted_channel_failure.
    + split; [eexists; reflexivity|].
      do 2 eexists. repeat split; try reflexivity; lia.
    + apply counted_channel_failure.
  - eauto.
  - do 2 eexists. split; [reflexivity|]. apply counted_channel_failure.
Qed.

Lemma stable_session_of (I : option string * option string -> Prop) :
  stable (session_of (U := U)) I.
Proof. split; intros; destruct w; assumption. Qed.

Lemma survives_upload_session_of (I : option string * option string -> Prop) :
  survives_upload (session_of (U := U)) I.
Proof. split; intros; destruct w; assumption. Qed.

Lemma survives_unlink_session_of (I : option string * option string -> Prop) :
  survives_unlink (session_of (U := U)) I.
Proof. split; intros; destruct w; assumption. Qed.

Lemma keeps_session_video I u fn up :
  keeps session_of I (download_single_video (U := U) E u fn up).
Proof.
  apply keeps_download_single_video;
    [apply stable_session_of|apply survives_upload_session_of
    |apply survives_unlink_session_of].
Qed.

Lemma keeps_session_channel I ch max_videos cb :
  keeps session_of I (download_channel_videos (U := U) E ch max_videos cb).
Proof.
  apply keeps_download_channel_videos.
  - apply stable_session_of.
  - intros. apply keeps_session_video.
  - intros. apply keeps_call_progress_frame; [apply stable_session_of|].
    intros st w. destruct w; reflexivity.
Qed.

(** [create_session()] names the session after the clock and sets both fields
    before it creates the directories. *)
Lemma create_session_default (w w' : W) r :
  create_session E None w = (r, w') ->
  let name := "download_session_" +:+ os_now E (tick w) "%Y%m%d_%H%M%S" in
  let dir := path_join (output_base_dir E) name in
  session_of w' = (Some name, Some dir) /\ (forall sd, r = Ok sd -> sd = dir).
Proof.
  unfold create_session, bind, now, modify, ret, for_each, bind, mkdir.
  intros Hrun. cbv zeta. destruct w as [f b t lg cs sd u]. cbn in Hrun |- *.
  repeat (case_match; unfold ret in *; simplify_eq); unfold ret in *; simplify_eq;
    (split; [reflexivity|]); intros ? [=]; subst; reflexivity.
Qed.

(** Lines 350-373: the result of the branch, before the session is added. *)
Lemma branch_result u fn max_videos cb (w w' : W) sdir r :
  session_dir w = Some sdir ->
  (if is_channel_url u then
     result <- download_channel_videos E u max_videos cb ;;
     ret (dset "type" (VStr "channel") result)
   else
     result <- download_single_video E u fn true ;;
     let result := dset "type" (VStr "video") result in
     success <- item "success" result ;;
     if truthy success then
       ret (dupdate result [("downloaded_count", VInt 1);
                            ("failed_count", VInt 0);
                            ("total_videos", VInt 1)])
     else
       ret (dupdate result [("downloaded_count", VInt 0);
                            ("failed_count", VInt 1);
                            ("total_videos", VInt 1)])) w = (r, w') ->
  session_of w' = session_of w /\
  exists d, r = Ok d /\ counted d /\
    dget "type" d = Some (VStr (if is_channel_url u then "channel" else "video")).
Proof.
  intros Hsd. destruct (is_channel_url u); unfold bind.
  - destruct (download_channel_videos_counted u max_videos cb w sdir Hsd)
      as (d & w1 & Hrun & Hc). rewrite Hrun.
    pose proof (keeps_session_channel (fun x => x = session_of w) _ _ _ _ _ _ Hrun
                  eq_refl) as Hs. cbn beta in Hs.
    intros [= <- <-]. split; [exact Hs|]. eexists. split; [reflexivity|].
    split; [|apply dget_dset_eq].
    destruct Hc as [[b Hb] (n & m & Hn & Hm & Hn0 & Hm0)].
    split; [exists b|exists n, m]; dget_simpl; auto.
  - destruct (download_single_video_spec E u fn true w sdir Hsd)
      as (d & w1 & evs & Hrun & _ & Hcase). rewrite Hrun.
    pose proof (keeps_session_video (fun x => x = session_of w) _ _ _ _ _ _ Hrun
                  eq_refl) as Hs. cbn beta in Hs.
    assert (Hb : exists b, dget "success" d = Some (VBool b)).
    { destruct Hcase as [(e & -> & _)|(a & vid & title & size & dur & ups & Hcase)];
        [eexists; reflexivity|].
      cbn zeta in Hcase. destruct Hcase as (_ & Hout & _).
      destruct Hout as [(-> & _)|(dels & u1 & u2 & _ & _ & _ & _ & Hres)];
        [eexists; reflexivity|].
      cbn zeta in Hres. destruct Hres as [(-> & _)|(-> & _)]; eexists; reflexivity. }
    destruct Hb as [b Hb]. cbv zeta. unfold item. dget_simpl. rewrite Hb.
    unfold ret. cbn [truthy].
    destruct b; intros [= <- <-]; (split; [exact Hs|]);
      (eexists; split; [reflexivity|]); unfold dupdate; cbn [fold_left fst snd];
      (split; [|dget_simpl; reflexivity]);
      (split; [eexists|do 2 eexists]); dget_simpl;
      repeat split; try eassumption; try reflexivity; lia.
Qed.

Lemma time_time_session (w w' : W) r :
  time_time E w = (r, w') -> session_of w' = session_of w /\ exists t, r = Ok t.
Proof. unfold time_time. intros [= <- <-]. destruct w; eauto. Qed.

Lemma write_file_session p (w w' : W) r :
  write_file E p w = (r, w') -> session_of w' = session_of w.
Proof.
  unfold write_file. destruct (os_write E (tick w) p); intros [= <- <-];
    destruct w; reflexivity.
Qed.

Lemma process_url_body_shape start u fn max_videos cb (w w' : W) r :
  process_url_body E start u fn max_videos cb w = (r, w') ->
  let name := "download_session_" +:+ os_now E (tick w) "%Y%m%d_%H%M%S" in
  let dir := path_join (output_base_dir E) name in
  session_of w' = (Some name, Some dir) /\
  forall d, r = Ok d ->
    counted d /\
    dget "type" d = Some (VStr (if is_channel_url u then "channel" else "video")) /\
    dget "session_name" d = Some (VStr name) /\
    dget "session_dir" d = Some (VStr dir) /\
    exists t, dget "processing_time" d = Some (VInt t).
Proof.
  unfold process_url_body. unfold bind at 1.
  destruct (create_session E None w) as [[sd|e] w1] eqn:Hcs;
    apply create_session_default in Hcs; cbv zeta in Hcs; destruct Hcs as [Hs1 Hsd].
  2: { intros [= <- <-]. cbv zeta. split; [exact Hs1|]. intros d [=]. }
  rewrite (Hsd sd eq_refl). clear Hsd sd.
  set (name := "download_session_" +:+ os_now E (tick w) "%Y%m%d_%H%M%S") in *.
  set (dir := path_join (output_base_dir E) name) in *.
  unfold bind at 1.
  match goal with
  | |- context [match ?branch w1 with _ => _ end] =>
      destruct (branch w1) as [r2 w2] eqn:Hbr
  end.
  apply (branch_result u fn max_videos cb w1 w2 dir) in Hbr;
    [|injection Hs1 as _ H; exact H].
  destruct Hbr as (Hs2 & d2 & -> & Hc2 & Ht2). rewrite Hs1 in Hs2.
  unfold bind at 1.
  destruct (time_time E w2) as [r3 w3] eqn:H3.
  apply time_time_session in H3 as (Hs3 & t3 & ->). rewrite Hs2 in Hs3.
  unfold bind at 1. unfold gets.
  assert (Hcs3 : current_session w3 = Some name) by (injection Hs3 as H _; exact H).
  rewrite Hcs3. cbv zeta. unfold bind.
  destruct (write_file E _ w3) as [[[]|e] w4] eqn:H4;
    apply write_file_session in H4; rewrite Hs3 in H4.
  2: { intros [= <- <-]. split; [exact H4|]. intros d [=]. }
  unfold ret. intros [= <- <-]. split; [exact H4|]. intros d [= <-].
  unfold dupdate. cbn [fold_left fst snd].
  destruct Hc2 as [[b Hb] (n & m & Hn & Hm & Hn0 & Hm0)].
  split; [split; [exists b|exists n, m]|]; dget_simpl; eauto 10.
Qed.

(** X11.  [process_url] always returns a dictionary, and always works in a session
    of its own, named [download_session_<timestamp>] after the clock, which
    replaces any session its caller had opened.  Every result carries
    [success], [downloaded_count] and [failed_count] (both non-negative) and
    a [type]: [unknown] when the run raised, and otherwise [channel] or
    [video] as the URL is classified, together with [session_name],
    [session_dir] and [processing_time]. *)
Theorem process_url_result_shape u fn max_videos cb (w : W) :
  exists d w',
    process_url E u fn max_videos cb w = (Ok d, w') /\
    let name := "download_session_" +:+ os_now E (S (tick w)) "%Y%m%d_%H%M%S" in
    let dir := path_join (output_base_dir E) name in
    current_session w' = Some name /\ session_dir w' = Some dir /\
    (exists b, dget "success" d = Some (VBool b)) /\
    (exists n m,
       dget "downloaded_count" d = Some (VInt n) /\
       dget "failed_count" d = Some (VInt m) /\ 0 <= n /\ 0 <= m) /\
    (dget "type" d = Some (VStr "unknown") \/
     dget "type" d = Some (VStr (if is_channel_url u then "channel" else "video")) /\
     dget "session_name" d = Some (VStr name) /\
     dget "session_dir" d = Some (VStr dir) /\
     exists t, dget "processing_time" d = Some (VInt t)).
Proof.
  unfold process_url, bind, time_time, try_catch.
  destruct (process_url_body E (os_time E (tick w)) u fn max_videos cb (next_tick w))
    as [r w'] eqn:Hrun.
  apply process_url_body_shape in Hrun. cbv zeta in Hrun.
  assert (Ht : tick (next_tick w) = S (tick w)) by (destruct w; reflexivity).
  rewrite Ht in Hrun. destruct Hrun as [Hs Hd].
  assert (Hcs : current_session w' = Some
                  ("download_session_" +:+ os_now E (S (tick w)) "%Y%m%d_%H%M%S"))
    by (injection Hs as H _; exact H).
  assert (Hsd : session_dir w' = Some
                  (path_join (output_base_dir E)
                     ("download_session_" +:+ os_now E (S (tick w)) "%Y%m%d_%H%M%S")))
    by (injection Hs as _ H; exact H).
  destruct r as [d|e].
  - destruct (Hd d eq_refl) as ([Hb Hcount] & Hrest).
    exists d, w'. split; [reflexivity|]. cbv zeta.
    split; [exact Hcs|]. split; [exact Hsd|]. split; [exact Hb|].
    split; [exact Hcount|]. right. exact Hrest.
  - exists (unknown_failure e), w'. split; [reflexivity|]. cbv zeta.
    split; [exact Hcs|]. split; [exact Hsd|]. split; [eexists; reflexivity|].
    split; [|left; reflexivity]. exists 0, 0. repeat split; lia.
Qed.

End ResultShape.

(** The session a caller opened is not the one [process_url] works in. *)
Example process_url_leaves_the_callers_session :
  let run :=
    process_url (Scenario.working []) Scenario.video_url None 2500 None
      (Scenario.in_session tt) in
  current_session (Scenario.in_session tt) = Some "s1" /\
  current_session (snd run) = Some "download_session_1" /\
  (exists d, fst run = Ok d /\
     dget "session_name" d = Some (VStr "download_session_1") /\
     dget "gcp_audio_url" d =
       Some (VStr "gs://dataset_youtube_katube/youtube_downloads/download_session_1/downloads/dQw4w9WgXcQ.flac")).
Proof.
  cbv zeta. split; [reflexivity|]. split; [vm_compute; reflexivity|].
  eexists. split; [vm_compute; reflexivity|]. split; reflexivity.
Qed.

(** ** The progress the callbacks write *)

From Stdlib Require FloatAxioms.

Section ProgressRange.

Lemma binary_round_aux_not_negative prec emax m e l :
  not_negative (binary_round_aux prec emax false m e l).
Proof.
  unfold binary_round_aux.
  destruct (shr_fexp prec emax m e l) as [mrs' e'].
  destruct (shr_fexp prec emax _ e' loc_Exact) as [mrs'' e''].
  destruct (shr_m mrs''); [exact Logic.I| |exact Logic.I].
  destruct (e'' <=? emax - prec); exact Logic.I.
Qed.

Lemma float_of_nat_not_negative n : not_negative (Prim2SF (App.float_of_nat n)).
Proof.
  unfold App.float_of_nat. rewrite FloatAxioms.of_uint63_spec.
  unfold binary_normalize.
  pose proof (Uint63.to_Z_bounded (Uint63.of_Z (Z.of_nat n))) as Hb.
  destruct (Uint63.to_Z (Uint63.of_Z (Z.of_nat n))) as [|p|p]; [exact Logic.I| |lia].
  unfold binary_round. destruct (shl_align p 0 _) as [mz ez].
  apply binary_round_aux_not_negative.
Qed.

Lemma SFmul_not_negative prec emax x y :
  not_negative x -> not_negative y -> not_negative (SFmul prec emax x y).
Proof.
  destruct x as [sx|sx| |[] mx ex], y as [sy|sy| |[] my ey]; cbn;
    try tauto; intros _ _; apply binary_round_aux_not_negative.
Qed.

Lemma SFdiv_not_negative prec emax x y :
  not_negative x -> not_negative y -> not_negative (SFdiv prec emax x y).
Proof.
  destruct x as [sx|sx| |[] mx ex], y as [sy|sy| |[] my ey]; cbn;
    try tauto; intros _ _.
  destruct (SFdiv_core_binary prec emax (Z.pos mx) ex (Z.pos my) ey) as [[mz ez] lz].
  apply binary_round_aux_not_negative.
Qed.

Lemma int_of_float_not_negative x : not_negative (Prim2SF x) -> 0 <= App.int_of_float x.
Proof.
  unfold App.int_of_float. destruct (Prim2SF x) as [s|s| |[] m e]; cbn; try lia.
  intros _. destruct e as [|p|p]; [lia|nia|].
  apply Z.div_pos; lia.
Qed.

(** [int((i / total) * scale)] is never negative. *)
Lemma scaled_not_negative i total scale : 0 <= App.scaled i total scale.
Proof.
  unfold App.scaled. apply int_of_float_not_negative.
  rewrite FloatAxioms.mul_spec. apply SFmul_not_negative.
  - rewrite FloatAxioms.div_spec.
    apply SFdiv_not_negative; apply float_of_nat_not_negative.
  - apply float_of_nat_not_negative.
Qed.

(** X20.  Every record a progress callback writes is in state [processing] with a
    progress between 10 and 90 (the callback of
    [process_youtube_url_background]) or between 0 and 90 (the callback of
    [process_channel_background]), whatever the index and the total. *)
Theorem callbacks_write_progress_in_range id u s t i (st st' : App.app_state) r :
  (App.url_progress_callback id u s t i st = (r, st') ->
   exists evs, App.journal st' = App.journal st ++ evs /\
     forall j, In (App.Wrote j) evs ->
       App.status j = "processing" /\ 10 <= App.progress j <= 90) /\
  (App.channel_progress_callback id u s t i st = (r, st') ->
   exists evs, App.journal st' = App.journal st ++ evs /\
     forall j, In (App.Wrote j) evs ->
       App.status j = "processing" /\ 0 <= App.progress j <= 90).
Proof.
  split.
  - unfold App.url_progress_callback, App.on_job, raise.
    destruct (t =? 0)%nat.
    { intros [= <- <-]. exists []. rewrite app_nil_r. split; [reflexivity|]. intros j []. }
    cbv zeta. destruct (App.active_jobs st !! id) as [j0|].
    2: { intros [= <- <-]. exists []. rewrite app_nil_r. split; [reflexivity|].
         intros j []. }
    intros [= <- <-]. eexists [_]. split; [reflexivity|].
    intros j [H|[]]. injection H as <-. cbn. split; [reflexivity|].
    pose proof (scaled_not_negative i t 80). lia.
  - assert (Hquiet : forall st0 : App.app_state,
              App.journal st0 = App.journal st ++ [App.Acquired; App.Released] ->
              exists evs, App.journal st0 = App.journal st ++ evs /\
                forall j, In (App.Wrote j) evs ->
                  App.status j = "processing" /\ 0 <= App.progress j <= 90).
    { intros st0 Hj. eexists. split; [exact Hj|].
      intros j [H|[H|[]]]; discriminate. }
    unfold App.channel_progress_callback, App.with_job_lock, bind, App.job_known,
      gets, when, App.on_job, raise, ret.
    cbn [App.active_jobs App.record_event App.journal App.job_lock].
    destruct (App.active_jobs st !! id) as [j0|] eqn:Hl; cbn [is_Some].
    2: { rewrite bool_decide_eq_false_2 by (intros [? ?]; discriminate).
         intros H. apply pair_equal_spec in H as [_ <-]. apply Hquiet.
         cbn. rewrite <- app_assoc. reflexivity. }
    rewrite bool_decide_eq_true_2 by eauto.
    cbv zeta. destruct (t =? 0)%nat.
    { intros H. apply pair_equal_spec in H as [_ <-]. apply Hquiet.
      cbn. rewrite <- app_assoc. reflexivity. }
    cbn [App.active_jobs App.record_event App.journal App.job_lock]. rewrite Hl.
    intros H. apply pair_equal_spec in H as [_ <-]. cbn.
    eexists [_; _; _]. rewrite <- !app_assoc.
    split; [reflexivity|]. intros j [H|[H|[H|[]]]]; try discriminate.
    injection H as <-. cbn. split; [reflexivity|].
    pose proof (scaled_not_negative i t 90). lia.
Qed.

End ProgressRange.

Lemma callbacks_write_progress_in_range_witness :
  let st := Scenario.submitted Scenario.channel_url in
  let run1 :=
    App.url_progress_callback "job-1" Scenario.video_url (VBool true) 128%nat 1%nat st in
  let run2 :=
    App.channel_progress_callback "job-1" Scenario.video_url (VBool true) 128%nat 1%nat st in
  (exists evs, App.journal (snd run1) = App.journal st ++ evs /\
     forall j, In (App.Wrote j) evs ->
       App.status j = "processing" /\ 10 <= App.progress j <= 90) /\
  (exists evs, App.journal (snd run2) = App.journal st ++ evs /\
     forall j, In (App.Wrote j) evs ->
       App.status j = "processing" /\ 0 <= App.progress j <= 90).
Proof.
  intros st run1 run2. split.
  - apply (callbacks_write_progress_in_range "job-1" Scenario.video_url (VBool true)
             128%nat 1%nat st (snd run1) (fst run1)).
    apply surjective_pairing.
  - apply (callbacks_write_progress_in_range "job-1" Scenario.video_url (VBool true)
             128%nat 1%nat st (snd run2) (fst run2)).
    apply surjective_pairing.
Defined.

(** ** The end of a [/process] job *)

Section Stamp.

Import App.

Variable E : env.
Variable id : string.

Abbreviation known := (job_is id (fun _ => True)).

Lemma keeps_on_job_known f : keeps (fun st => st) known (on_job id f).
Proof. apply (triple_on_job id (fun _ => True) (fun _ => True)). auto. Qed.

Lemma url_progress_callback_known :
  callback_keeps known (Some (url_progress_callback id)).
Proof.
  intros u s t i. unfold url_progress_callback.
  destruct (t =? 0)%nat; [apply keeps_raise|apply keeps_on_job_known].
Qed.

#[local] Hint Resolve keeps_on_job_known url_progress_callback_known : keeps.

Lemma process_youtube_url_body_stamps job_url opts :
  triple user known (process_youtube_url_body E id job_url opts)
    (fun _ => job_is id (fun j => status j = "completed" /\ is_Some (end_time j)))
    (fun _ => known).
Proof.
  unfold process_youtube_url_body.
  repeat (try progress cbv zeta;
          eapply (triple_bind _ _ _ _ (fun _ => known));
          [ match goal with
            | |- triple ?pr _ ?m _ _ => change (keeps pr known m)
            end; solve [keeps_auto]
          | intros ? ]).
  apply triple_lift_user, triple_on_job.
  intros j _. split; [reflexivity|]. cbn. eauto.
Qed.

(** X14.  Whatever the collaborators do and whatever the record held before,
    [process_youtube_url_background] on a registered job returns without
    raising and leaves the record in a terminal state, [completed] or
    [failed], with [end_time] set. *)
Theorem youtube_job_is_stamped job_url opts (w : world app_state) :
  is_Some (active_jobs (user w) !! id) ->
  exists w',
    process_youtube_url_background E id job_url opts w = (Ok tt, w') /\
    job_is id
      (fun j => (status j = "completed" \/ status j = "failed") /\
                is_Some (end_time j)) (user w').
Proof.
  intros [j0 Hj0].
  assert (HI : known (user w)) by (exists j0; auto).
  assert (Ht : triple user known
                 (process_youtube_url_background E id job_url opts)
                 (fun _ => job_is id
                             (fun j => (status j = "completed" \/ status j = "failed")
                                       /\ is_Some (end_time j)))
                 (fun _ _ => False)).
  { unfold process_youtube_url_background.
    eapply triple_bind.
    - apply triple_lift_user, (triple_job_known id (fun _ => True)).
    - intros [|]; cbn [negb].
      2: { intros s r s' _ [Hk _]. discriminate. }
      eapply triple_conseq with (P' := known);
        [|intros u [_ H]; exact H|intros a u H; exact H|intros e u H; exact H].
      eapply triple_try_catch.
      + eapply triple_conseq; [apply process_youtube_url_body_stamps|auto| |].
        * intros _ u (j & Hj & Hs & He). exists j. auto.
        * intros e u H. exact H.
      + intros e. eapply triple_bind.
        * apply triple_now.
        * intros t. apply triple_lift_user.
          eapply triple_conseq;
            [apply (triple_on_job id (fun _ => True)
                      (fun j => status j = "failed" /\ is_Some (end_time j))
                      _ (fun _ _ => False))
            |auto| |auto].
          -- intros j _. split; [reflexivity|]. cbn. eauto.
          -- intros _ u (j & Hj & Hs & He). exists j. auto. }
  destruct (process_youtube_url_background E id job_url opts w) as [r w'] eqn:Hrun.
  specialize (Ht _ _ _ Hrun HI). destruct r as [[]|e]; [eauto|destruct Ht].
Qed.

(** *** When nothing stands in the way of the pipeline *)

Lemma triple_total {S X A} (pr : S -> X) I (m : M S A) :
  keeps pr I m -> (forall s, exists a s', m s = (Ok a, s')) ->
  triple pr I m (fun _ => I) (fun _ _ => False).
Proof.
  intros Hk Ht s r s' Hrun HP. destruct (Ht s) as (a & s1 & Hs).
  rewrite Hs in Hrun. injection Hrun as <- <-. exact (Hk _ _ _ Hs HP).
Qed.

Lemma process_url_total {U} u fn max_videos cb (w : world U) :
  exists d w', process_url E u fn max_videos cb w = (Ok d, w').
Proof.
  unfold process_url, bind, time_time, try_catch.
  destruct (process_url_body E _ u fn max_videos cb (next_tick w)) as [[d|e] w'];
    eauto.
Qed.

Lemma get_download_summary_total {U} (w : world U) :
  exists d w', get_download_summary E w = (Ok d, w').
Proof.
  unfold get_download_summary, bind, gets, glob, is_available, ret.
  destruct (session_dir w); eauto.
Qed.

Section Unhindered.

Hypothesis Hinit : forall t, pipeline_init_error E t = None.
Hypothesis Hmkdir : forall t p, os_mkdir_error E t p = None.

Lemma new_pipeline_total {U} (w : world U) :
  exists a w', new_pipeline E w = (Ok a, w').
Proof. unfold new_pipeline. rewrite Hinit. eauto. Qed.

Lemma create_session_total {U} n (w : world U) :
  exists d w', create_session E n w = (Ok d, w').
Proof.
  unfold create_session, bind, now, ret, modify, for_each, bind, mkdir, ret.
  destruct n; rewrite !Hmkdir; eauto.
Qed.

Lemma process_youtube_url_body_completes job_url opts :
  triple user known (process_youtube_url_body E id job_url opts)
    (fun _ => job_is id
                (fun j => status j = "completed" /\ progress j = 100 /\
                          is_Some (results j) /\ is_Some (end_time j)))
    (fun _ _ => False).
Proof.
  unfold process_youtube_url_body.
  repeat first
    [ progress cbv zeta
    | apply triple_ret; solve [auto]
    | apply triple_now
    | apply triple_lift_user, triple_on_job; solve [auto]
    | apply triple_total;
      [ solve [keeps_auto]
      | intros ?;
        first [ apply new_pipeline_total | apply create_session_total
              | apply process_url_total | apply get_download_summary_total ] ]
    | eapply (triple_bind _ _ _ _ (fun _ => known)); [|intros ?]
    | match goal with
      | |- triple _ _ (match ?x with _ => _ end) _ _ => destruct x
      end ].
Qed.

(** X15.  Provided the pipeline object can be constructed and directories can be
    created, [process_youtube_url_background] on a registered job always ends
    with the record completed at 100, with results and an end time, whatever
    YouTube, the object store and the writes to disk do: the failures of the
    download are absorbed by [process_url], and its result is recorded as the
    outcome of a completed job even when it says [success] false. *)
Theorem youtube_job_completes_whatever_the_result job_url opts (w : world app_state) :
  is_Some (active_jobs (user w) !! id) ->
  exists w',
    process_youtube_url_background E id job_url opts w = (Ok tt, w') /\
    job_is id
      (fun j => status j = "completed" /\ progress j = 100 /\
                is_Some (results j) /\ is_Some (end_time j)) (user w').
Proof.
  intros [j0 Hj0].
  assert (HI : known (user w)) by (exists j0; auto).
  assert (Ht : triple user known
                 (process_youtube_url_background E id job_url opts)
                 (fun _ => job_is id
                             (fun j => status j = "completed" /\ progress j = 100 /\
                                       is_Some (results j) /\ is_Some (end_time j)))
                 (fun _ _ => False)).
  { unfold process_youtube_url_background.
    eapply triple_bind.
    - apply triple_lift_user, (triple_job_known id (fun _ => True)).
    - intros [|]; cbn [negb].
      2: { intros s r s' _ [Hk _]. discriminate. }
      eapply triple_conseq with (P' := known);
        [|intros u [_ H]; exact H|intros a u H; exact H|intros e u H; exact H].
      eapply triple_try_catch.
      + apply process_youtube_url_body_completes.
      + intros e s r s' _ []. }
  destruct (process_youtube_url_background E id job_url opts w) as [r w'] eqn:Hrun.
  specialize (Ht _ _ _ Hrun HI). destruct r as [[]|e]; [eauto|destruct Ht].
Qed.

End Unhindered.

End Stamp.

Lemma youtube_job_is_stamped_witness :
  exists w',
    App.process_youtube_url_background (Cases.unreachable []) "job-1"
      Scenario.video_url (App.Options None None None)
      (Scenario.fresh (Scenario.submitted Scenario.video_url)) = (Ok tt, w') /\
    job_is "job-1"
      (fun j => (App.status j = "completed" \/ App.status j = "failed") /\
                is_Some (App.end_time j)) (user w').
Proof.
  apply (youtube_job_is_stamped (Cases.unreachable []) "job-1" Scenario.video_url).
  vm_compute. eauto.
Defined.

Lemma youtube_job_completes_whatever_the_result_witness :
  exists w',
    App.process_youtube_url_background (Cases.unreachable []) "job-1"
      Scenario.video_url (App.Options None None None)
      (Scenario.fresh (Scenario.submitted Scenario.video_url)) = (Ok tt, w') /\
    job_is "job-1"
      (fun j => App.status j = "completed" /\ App.progress j = 100 /\
                is_Some (App.results j) /\ is_Some (App.end_time j)) (user w').
Proof.
  apply (youtube_job_completes_whatever_the_result (Cases.unreachable []) "job-1").
  - reflexivity.
  - reflexivity.
  - vm_compute. eauto.
Defined.

(** With YouTube unreachable the job is completed, and its results say that
    the download failed. *)
Example unreachable_video_is_a_completed_job :
  let run :=
    App.process_youtube_url_background (Cases.unreachable []) "job-1"
      Scenario.video_url (App.Options None None None)
      (Scenario.fresh (Scenario.submitted Scenario.video_url)) in
  exists j, App.active_jobs (user (snd run)) !! "job-1" = Some j /\
    App.status j = "completed" /\ App.progress j = 100 /\
    App.error j = None /\
    (exists d, App.results j = Some d /\
       dget "success" d = Some (VBool false) /\
       dget "error" d = Some (VStr "Video unavailable")).
Proof.
  cbv zeta. eexists. split; [vm_compute; reflexivity|].
  repeat split. eexists. repeat split.
Qed.

(** ** Which URLs count as a channel *)

Section ChannelUrls.

Lemma append_cons c p s : String c p +:+ s = String c (p +:+ s).
Proof. reflexivity. Qed.

Lemma append_nil s : "" +:+ s = s.
Proof. reflexivity. Qed.

Lemma prefix_intro p s : String.prefix p (p +:+ s) = true.
Proof.
  induction p as [|c p IH]; [rewrite append_nil; destruct s; reflexivity|].
  rewrite append_cons. cbn [String.prefix].
  destruct (Ascii.ascii_dec c c); [exact IH|contradiction].
Qed.

Lemma prefix_inv p s : String.prefix p s = true -> exists post, s = p +:+ post.
Proof.
  revert s. induction p as [|c p IH]; intros s.
  - intros _. exists s. reflexivity.
  - destruct s as [|c' s]; cbn [String.prefix]; [discriminate|].
    destruct (Ascii.ascii_dec c c') as [<-|]; [|discriminate].
    intros H. destruct (IH s H) as [post ->]. exists post. reflexivity.
Qed.

Lemma contains_intro sub pre post : contains sub (pre +:+ sub +:+ post) = true.
Proof.
  induction pre as [|c pre IH].
  - rewrite append_nil. destruct (sub +:+ post) eqn:Heq;
      cbn [contains]; rewrite <- Heq, prefix_intro; reflexivity.
  - rewrite append_cons. cbn [contains]. rewrite IH. apply orb_true_r.
Qed.

Lemma contains_inv sub s :
  contains sub s = true -> exists pre post, s = pre +:+ sub +:+ post.
Proof.
  induction s as [|c s IH]; cbn [contains]; intros H;
    apply orb_true_iff in H as [H|H]; try discriminate.
  - apply prefix_inv in H as [post ->]. exists "", post. reflexivity.
  - apply prefix_inv in H as [post ->]. exists "", post. reflexivity.
  - destruct (IH H) as (pre & post & ->). exists (String c pre), post. reflexivity.
Qed.

(** X12.  A URL is taken for a channel or playlist exactly when, letter case
    aside, one of the five patterns occurs somewhere in it: in the path, but
    as well in the query or the fragment; the rest of the URL, the host
    included, is not looked at. *)
Theorem channel_urls_are_those_with_a_pattern url :
  is_channel_url url = true <->
  exists p pre post,
    In p ["/channel/"; "/c/"; "/user/"; "/@"; "/playlist?"] /\
    lower url = pre +:+ p +:+ post.
Proof.
  unfold is_channel_url, any_in. rewrite existsb_exists. split.
  - intros (p & Hin & Hc). apply contains_inv in Hc as (pre & post & Heq).
    exists p, pre, post. split; [exact Hin|exact Heq].
  - intros (p & pre & post & Hin & Heq). exists p. split; [exact Hin|].
    rewrite Heq. apply contains_intro.
Qed.

End ChannelUrls.

(** A watch URL that carries a pattern in its query is processed as a
    channel; the same URL without it, as a video. *)
Example pattern_in_the_query :
  is_channel_url "https://www.youtube.com/watch?v=dQw4w9WgXcQ&ref=/c/x" = true /\
  is_channel_url "https://www.youtube.com/watch?v=dQw4w9WgXcQ" = false /\
  is_channel_url "HTTPS://WWW.YOUTUBE.COM/@KATUBE" = true.
Proof. repeat split; vm_compute; reflexivity. Qed.

(** ** What a poller sees of a channel job *)

Section Polls.

Import App.

Variable E : env.
Variable id : string.

Lemma visible_from_app h p evs rest :
  all_locked_from h evs = true -> (h = false -> p = None) ->
  Poll.visible_from h p (evs ++ rest)
    = Poll.visible_from h p evs ++ Poll.visible_from false None rest.
Proof.
  revert h p. induction evs as [|ev evs IH]; intros h p Hall Hp.
  - destruct h; [discriminate|]. rewrite (Hp eq_refl). reflexivity.
  - destruct ev as [| |j]; cbn in Hall |- *.
    + apply andb_true_iff in Hall as [_ Hall]. apply IH; [exact Hall|discriminate].
    + apply andb_true_iff in Hall as [Hh Hall].
      destruct p; cbn; rewrite IH by auto; reflexivity.
    + apply andb_true_iff in Hall as [Hh Hall]. rewrite Hh.
      apply IH; [exact Hall|discriminate].
Qed.

Lemma all_locked_from_app h evs rest :
  all_locked_from h evs = true ->
  all_locked_from h (evs ++ rest) = all_locked_from false rest.
Proof.
  revert h. induction evs as [|ev evs IH]; intros h Hall.
  - destruct h; [discriminate|reflexivity].
  - destruct ev as [| |j]; cbn in Hall |- *;
      apply andb_true_iff in Hall as [Hh Hall]; rewrite Hh, IH by exact Hall;
      reflexivity.
Qed.

Lemma last_cons_default {A} (x : A) l d : List.last (x :: l) d = List.last l x.
Proof.
  revert x d. induction l as [|y l IH]; intros x d; [reflexivity|].
  change (List.last (y :: l) d = List.last (y :: l) x). rewrite !IH. reflexivity.
Qed.

(** A block of writes under the lock shows its last write, if it has one. *)
Lemma writes_then_release ws p :
  Poll.visible_from true p (map Wrote ws ++ [Released])
    = match ws, p with
      | [], None => []
      | [], Some j => [j]
      | w :: ws', _ => [List.last ws' w]
      end /\
  all_locked_from true (map Wrote ws ++ [Released]) = true.
Proof.
  revert p. induction ws as [|w ws IH]; intros p.
  - destruct p; split; reflexivity.
  - cbn [map app Poll.visible_from all_locked_from andb].
    destruct (IH (Some w)) as [Hv Ha]. rewrite Hv, Ha.
    split; [|reflexivity]. destruct ws as [|w' ws']; [reflexivity|].
    rewrite last_cons_default. reflexivity.
Qed.

Lemma polled_well_mono j0 (P Q : JobStatus -> Prop) s :
  (forall j, P j -> Q j) -> polled_well id j0 P s -> polled_well id j0 Q s.
Proof.
  intros HPQ (evs & Hj & Ha & Hv & j & Hl & HP).
  exists evs. repeat split; auto. exists j. auto.
Qed.

(** *** Writes *)

Lemma writes_on_job (P Q : JobStatus -> Prop) f :
  (forall j, P j -> Q (f j)) -> writes id (on_job id f) P Q.
Proof.
  intros Hf s j Hj HP. unfold on_job. rewrite Hj.
  eexists tt, _, [f j]. split; [reflexivity|]. cbn.
  split; [reflexivity|]. split; [apply lookup_insert_eq|auto].
Qed.

Lemma last_app_default {A} (l1 l2 : list A) d :
  List.last (l1 ++ l2) d = List.last l2 (List.last l1 d).
Proof.
  revert d. induction l1 as [|x l1 IH]; intros d; [reflexivity|].
  change ((x :: l1) ++ l2) with (x :: (l1 ++ l2)).
  rewrite !last_cons_default. apply IH.
Qed.

Lemma writes_bind {A B} (m : M app_state A) (k : A -> M app_state B) P Q1 Q :
  writes id m P Q1 -> (forall a, writes id (k a) Q1 Q) -> writes id (bind m k) P Q.
Proof.
  intros Hm Hk s j Hj HP.
  destruct (Hm s j Hj HP) as (a & s1 & ws1 & Hrun1 & Hj1 & Hl1 & HQ1).
  destruct (Hk a s1 _ Hl1 HQ1) as (b & s2 & ws2 & Hrun2 & Hj2 & Hl2 & HQ2).
  exists b, s2, (ws1 ++ ws2). unfold bind. rewrite Hrun1.
  split; [exact Hrun2|]. rewrite last_app_default, map_app, app_assoc, <- Hj1.
  auto.
Qed.

(** [with job_lock: if job_id in active_jobs: body], for a registered job. *)
Lemma locked_block j0 (P Q : JobStatus -> Prop) body R :
  writes id body P Q ->
  (forall j, Q j -> Poll.outcome_recorded j = true) ->
  triple user (polled_well id j0 P) (locked_if_known id body)
    (fun _ => polled_well id j0 Q) R.
Proof.
  intros Hb Hok w r w' Hrun (evs & Hj & Ha & Hv & j & Hl & HP).
  unfold locked_if_known, lift_user, with_job_lock, bind, job_known, gets in Hrun.
  cbn [active_jobs record_event journal job_lock] in Hrun.
  rewrite bool_decide_eq_true_2 in Hrun by eauto. cbn [when] in Hrun.
  match type of Hrun with
  | context [body ?s1] =>
      destruct (Hb s1 j Hl HP) as (a & s2 & ws & Hrun2 & Hj2 & Hl2 & HQ)
  end.
  rewrite Hrun2 in Hrun. injection Hrun as <- <-.
  cbn [record_event journal active_jobs job_lock] in Hj2.
  assert (Hgoal : polled_well id j0 Q
            (record_event Released (AppState (active_jobs s2) false (journal s2)))).
  { exists (evs ++ Acquired :: map Wrote ws ++ [Released]).
    cbn [record_event journal active_jobs]. rewrite Hj2. cbn [journal].
    rewrite Hj. split; [rewrite <- !app_assoc; reflexivity|].
    destruct (writes_then_release ws None) as [Hvis Hall].
    unfold all_locked, Poll.visible in *.
    rewrite all_locked_from_app by exact Ha.
    rewrite visible_from_app by auto.
    cbn [all_locked_from Poll.visible_from negb andb]. rewrite Hall, Hvis.
    split; [reflexivity|]. split.
    - rewrite forallb_app, Hv. cbn [andb].
      destruct ws as [|x ws']; [reflexivity|]. cbn [forallb].
      rewrite andb_true_r. apply Hok.
      rewrite <- (last_cons_default x ws' j). exact HQ.
    - exists (List.last ws j). auto. }
  destruct w; exact Hgoal.
Qed.

(** A block that raises before it writes. *)
Lemma locked_raise j0 (P : JobStatus -> Prop) e :
  keeps (fun st => st) (polled_well id j0 P)
    (with_job_lock (known <- job_known id ;; when known (raise e))).
Proof.
  intros s r s' Hrun (evs & Hj & Ha & Hv & j & Hl & HP).
  unfold with_job_lock, bind, job_known, gets, when, raise in Hrun.
  cbn [active_jobs record_event journal job_lock] in Hrun.
  rewrite bool_decide_eq_true_2 in Hrun by eauto.
  injection Hrun as <- <-.
  assert (Hgoal : polled_well id j0 P
            (record_event Released
               (AppState (active_jobs s) false (journal s ++ [Acquired])))).
  { exists (evs ++ [Acquired; Released]). cbn [record_event journal active_jobs].
    rewrite Hj. split; [rewrite <- !app_assoc; reflexivity|].
    unfold all_locked, Poll.visible in *.
    rewrite all_locked_from_app by exact Ha. rewrite visible_from_app by auto.
    cbn. rewrite app_nil_r. repeat split; auto. exists j. auto. }
  exact Hgoal.
Qed.

Lemma keeps_locked_block j0 (P : JobStatus -> Prop) body :
  writes id body P P ->
  (forall j, P j -> Poll.outcome_recorded j = true) ->
  keeps user (polled_well id j0 P) (locked_if_known id body).
Proof. intros Hb Hok. apply locked_block; assumption. Qed.

Lemma running_recorded j : running j -> Poll.outcome_recorded j = true.
Proof. intros [_ Ht]. unfold Poll.outcome_recorded. rewrite Ht. reflexivity. Qed.

Lemma writes_update_running s p m :
  String.eqb s "completed" || String.eqb s "failed" = false ->
  writes id (on_job id (update s p m)) running running.
Proof. intros Hs. apply writes_on_job. intros j. apply update_running. exact Hs. Qed.

Lemma channel_progress_callback_polled j0 :
  callback_keeps (polled_well id j0 running) (Some (channel_progress_callback id)).
Proof.
  intros u s t i. unfold channel_progress_callback. cbv zeta.
  destruct (t =? 0)%nat; [apply locked_raise|].
  intros st r st' Hrun HP.
  pose proof (locked_block j0 running running
                (on_job id
                   (update "processing" (Z.min 90 (scaled i t 90))
                      ("Processando canal... " +:+
                         ("📹 Vídeo " +:+ pretty i +:+ "/" +:+ pretty t
                            +:+ " processado") +:+ " | ID: " +:+ video_id_of u)))
                (fun _ => polled_well id j0 running)
                (writes_update_running "processing" _ _ eq_refl) running_recorded
                (Scenario.fresh st)) as Hb.
  unfold locked_if_known, lift_user in Hb. cbn [user Scenario.fresh] in Hb.
  rewrite Hrun in Hb. specialize (Hb _ _ eq_refl HP).
  destruct r; exact Hb.
Qed.

#[local] Hint Resolve channel_progress_callback_polled : keeps.

Lemma process_channel_body_polled j0 job_url :
  triple user (polled_well id j0 running) (process_channel_body E id job_url)
    (fun _ => polled_well id j0 (fun _ => True))
    (fun _ => polled_well id j0 running).
Proof.
  assert (Hweak : forall (s : app_state),
            polled_well id j0 running s -> polled_well id j0 (fun _ => True) s)
    by (intros s; apply polled_well_mono; auto).
  unfold process_channel_body. cbv zeta.
  eapply (triple_bind _ _ _ _ (fun _ => polled_well id j0 running)).
  { destruct (is_channel_url job_url);
      apply keeps_locked_block;
      first [apply writes_update_running; reflexivity|apply running_recorded]. }
  intros _.
  eapply (triple_bind _ _ _ _ (fun _ => polled_well id j0 running));
    [change (keeps user (polled_well id j0 running) (new_pipeline E));
     solve [keeps_auto]|intros _].
  eapply (triple_bind _ _ _ _ (fun _ => polled_well id j0 running));
    [match goal with
     | |- triple ?pr _ ?m _ _ => change (keeps pr (polled_well id j0 running) m)
     end; solve [keeps_auto]|intros result].
  fold (succeeded result). destruct (succeeded result) eqn:Hs.
  2: { apply triple_ret. exact Hweak. }
  eapply (triple_bind _ _ _ _ (fun _ => polled_well id j0 running));
    [match goal with
     | |- triple ?pr _ ?m _ _ => change (keeps pr (polled_well id j0 running) m)
     end; solve [keeps_auto]|intros summary].
  eapply triple_bind with
    (Q1 := fun r s => succeeded r = true /\ polled_well id j0 running s).
  - destruct (truthy (dget_or "gcp_available" (VBool false) summary)).
    + eapply triple_bind with (Q1 := fun _ => polled_well id j0 running).
      * apply keeps_locked_block;
          [apply writes_update_running; reflexivity|apply running_recorded].
      * intros _. cbv zeta. apply triple_ret. intros u Hu. split; [|exact Hu].
        rewrite succeeded_dset by discriminate. exact Hs.
    + apply triple_ret. auto.
  - intros result'.
    eapply triple_conseq with
      (P' := fun s => succeeded result' = true /\ polled_well id j0 running s)
      (Q' := fun _ => polled_well id j0 (fun _ => True))
      (R' := fun _ => polled_well id j0 running); auto.
    intros s r s' Hrun [Hs' HI]. revert s r s' Hrun HI.
    change (triple user (polled_well id j0 running)
              (locked_if_known id (final_status id result') ;; ret result')
              (fun _ => polled_well id j0 (fun _ => True))
              (fun _ => polled_well id j0 running)).
    eapply triple_bind with
      (Q1 := fun _ => polled_well id j0
                        (fun j => is_Some (results j) /\ error j = None)).
    + apply locked_block.
      * unfold final_status. fold (succeeded result'). rewrite Hs'.
        eapply writes_bind with (Q1 := unsettled).
        -- cbv zeta. repeat case_match;
             apply writes_on_job; intros j [[Hr He] _]; split; assumption.
        -- intros _. apply writes_on_job. intros j [Hr He]. split; cbn; eauto.
      * intros j [[r Hr] He]. unfold Poll.outcome_recorded.
        rewrite Hr, He. apply orb_true_r.
    + intros _. apply triple_ret. intros u. apply polled_well_mono. auto.
Qed.

(** X25.  While [process_channel_background] runs a registered job that has
    nothing recorded, every write to the record is made under [job_lock],
    and a reader that takes the lock never sees a terminal record that has
    neither results nor an error: the final status and the outcome are written
    under one hold of the lock. *)
Theorem channel_job_is_polled_well job_url (w w' : world app_state) r :
  job_is id running (user w) ->
  process_channel_background E id job_url w = (r, w') ->
  exists evs,
    journal (user w') = journal (user w) ++ evs /\
    all_locked evs = true /\
    forallb Poll.outcome_recorded (Poll.visible evs) = true.
Proof.
  intros HI Hrun.
  set (j0 := journal (user w)).
  assert (Ht : triple user (polled_well id j0 running)
                 (process_channel_background E id job_url)
                 (fun _ => polled_well id j0 (fun _ => True))
                 (fun _ => polled_well id j0 (fun _ => True))).
  { unfold process_channel_background. eapply triple_try_catch.
    - apply process_channel_body_polled.
    - intros e.
      eapply triple_bind with (Q1 := fun _ => polled_well id j0 failed_with_error).
      + apply locked_block.
        * eapply writes_bind with
            (Q1 := fun j => status j = "failed" /\ progress j = 0 /\ unsettled j).
          -- apply writes_on_job. intros j [[Hr He] _]. repeat split; assumption.
          -- intros _. apply writes_on_job. intros j (Hst & Hp & Hr & He).
             repeat split; cbn; eauto.
        * intros j (_ & _ & [e' He] & Hr). unfold Poll.outcome_recorded.
          rewrite He, Hr. apply orb_true_r.
      + intros _. apply triple_ret. intros u. apply polled_well_mono. auto. }
  assert (H0 : polled_well id j0 running (user w)).
  { exists []. subst j0. rewrite app_nil_r. repeat split; auto. }
  specialize (Ht _ _ _ Hrun H0).
  assert (H1 : polled_well id j0 (fun _ => True) (user w')) by (destruct r; exact Ht).
  destruct H1 as (evs & Hj & Ha & Hv & _). exists evs. auto.
Qed.

End Polls.

Lemma channel_job_is_polled_well_witness :
  let w := Scenario.fresh (Scenario.submitted Scenario.channel_url) in
  let run :=
    App.process_channel_background (Scenario.working (Scenario.videos_from 1 2))
      "job-1" Scenario.channel_url w in
  exists evs,
    App.journal (user (snd run)) = App.journal (user w) ++ evs /\
    all_locked evs = true /\
    forallb Poll.outcome_recorded (Poll.visible evs) = true.
Proof.
  intros w run.
  apply (channel_job_is_polled_well (Scenario.working (Scenario.videos_from 1 2))
           "job-1" Scenario.channel_url w (snd run) (fst run)).
  - exists (App.new_job "job-1" Scenario.channel_url "2025-01-01T00:00:00").
    split; [vm_compute; reflexivity|split; [split; reflexivity|reflexivity]].
  - apply surjective_pairing.
Defined.

(** What the poller sees of that job. *)
Example channel_job_as_polled :
  let run :=
    App.process_channel_background (Scenario.working (Scenario.videos_from 1 2))
      "job-1" Scenario.channel_url
      (Scenario.fresh (Scenario.submitted Scenario.channel_url)) in
  map (fun j => (App.status j, App.progress j,
                 bool_decide (is_Some (App.results j))))
    (Poll.visible (App.journal (user (snd run)))) =
    [("downloading", 10, false); ("processing", 45, false);
     ("processing", 90, false); ("finalizing", 95, false);
     ("completed", 100, true)].
Proof. cbv zeta. vm_compute. reflexivity. Qed.

(** ** The two lists of a channel run *)

Section Lists.

Context {U : Type}.
Variable E : env.

Abbreviation W := (world U).
Abbreviation locals := (fun ls : (list dict * list dict) * W => fst ls).

(** The world's business leaves the locals alone. *)
Lemma keeps_lift_locals {A} I (m : M W A) : keeps locals I (lift m).
Proof.
  intros [l s] r [l' s'] Hrun HP. unfold lift in Hrun. cbn in *.
  destruct (m s) as [r1 s1]. injection Hrun as <- <- <-. destruct r1; exact HP.
Qed.

Lemma triple_modify_locals (P Q : list dict * list dict -> Prop) f R :
  (forall l, P l -> Q (f l)) ->
  triple locals P (modify_local (S := W) f) (fun _ => Q) R.
Proof. intros Hf [l s] r s' [= <- <-] HP. cbn. auto. Qed.

Lemma triple_item {S X} (pr : S -> X) (P : X -> Prop) k d :
  triple pr P (item k d) (fun v x => dget k d = Some v /\ P x) (fun _ => P).
Proof.
  unfold item. destruct (dget k d) as [v|].
  - apply triple_ret. auto.
  - apply triple_raise. auto.
Qed.

Lemma sorted_add_success r l :
  succeeded r = true -> sorted_by_success l ->
  sorted_by_success (fst l ++ [r], snd l).
Proof.
  intros Hr [Hd Hf]. split; cbn; [|exact Hf].
  apply Forall_app. split; [exact Hd|]. constructor; [exact Hr|constructor].
Qed.

Lemma sorted_add_failure r l :
  succeeded r = false -> sorted_by_success l ->
  sorted_by_success (fst l, snd l ++ [r]).
Proof.
  intros Hr [Hd Hf]. split; cbn; [exact Hd|].
  apply Forall_app. split; [exact Hf|]. constructor; [exact Hr|constructor].
Qed.

Lemma keeps_sorted_turn cb total i url :
  keeps locals sorted_by_success (process_one_video E cb total i url).
Proof.
  unfold process_one_video. apply keeps_try_catch.
  - eapply triple_bind with (Q1 := fun _ => sorted_by_success);
      [apply keeps_lift_locals|intros result].
    eapply triple_bind; [apply triple_item|intros success].
    eapply triple_bind with (Q1 := fun _ => sorted_by_success).
    + destruct (truthy success) eqn:Hs.
      * eapply triple_bind with (Q1 := fun _ => sorted_by_success).
        -- apply triple_modify_locals. intros l [Hget Hl].
           apply sorted_add_success; [|exact Hl].
           unfold succeeded, dget_or. rewrite Hget. exact Hs.
        -- intros _. apply keeps_bind; [apply keeps_item|].
           intros _. apply keeps_ret.
      * apply triple_modify_locals. intros l [Hget Hl].
        apply sorted_add_failure; [|exact Hl].
        unfold succeeded, dget_or. rewrite Hget. exact Hs.
    + intros _. apply keeps_lift_locals.
  - intros e. apply keeps_bind; [|intros _; apply keeps_lift_locals].
    apply triple_modify_locals. intros l Hl.
    apply sorted_add_failure; [reflexivity|exact Hl].
Qed.

(** X26.  Whatever the callback does, a Channel Result holds in
    [downloaded_videos] only results whose [success] is true and in
    [failed_videos] only results whose [success] is false, and its two counts
    are the lengths of these lists. *)
Theorem channel_lists_hold_what_they_say ch max_videos cb (w w' : W) d :
  download_channel_videos E ch max_videos cb w = (Ok d, w') ->
  dget "success" d = Some (VBool true) ->
  exists dl fl,
    dget "downloaded_videos" d = Some (VList (map VDict dl)) /\
    dget "failed_videos" d = Some (VList (map VDict fl)) /\
    dget "downloaded_count" d = Some (VInt (Z.of_nat (length dl))) /\
    dget "failed_count" d = Some (VInt (Z.of_nat (length fl))) /\
    Forall (fun v => succeeded v = true) dl /\
    Forall (fun v => succeeded v = false) fl.
Proof.
  intros H Hsucc. unfold download_channel_videos, bind, gets in H.
  destruct (session_dir w) as [sdir|]; [|discriminate].
  unfold try_catch, bind, ret in H.
  destruct (scan_channel E ch w) as [[[p|]|e] w1].
  2, 3: injection H as <- <-; discriminate.
  destruct (get_video_urls E p w1) as [[all_urls|e] w2].
  2: injection H as <- <-; discriminate.
  destruct all_urls as [|u0 rest]; [injection H as <- <-; discriminate|].
  fold (capped (u0 :: rest) max_videos) in H.
  set (urls := capped (u0 :: rest) max_videos) in *.
  unfold with_locals, bind, get_local in H.
  assert (H0 : sorted_by_success ([], [])) by (split; constructor).
  match type of H with
  | context [for_each ?xs ?body (?l0, w2)] =>
      pose proof (keeps_for_each locals sorted_by_success xs body
                    (fun iu => keeps_sorted_turn cb _ _ _)) as Hloop;
      destruct (for_each xs body (l0, w2)) as [[[]|e] [l w3]] eqn:Hrun;
      specialize (Hloop _ _ _ Hrun H0)
  end.
  2: injection H as <- <-; discriminate.
  cbn [fst snd] in H, Hloop.
  destruct (now E _ w3) as [[t|e] w4].
  2: injection H as <- <-; discriminate.
  destruct (write_file E _ w4) as [[[]|e] w5].
  2: injection H as <- <-; discriminate.
  destruct (write_video_list E _ _ _ w5) as [[[]|e] w6].
  2: injection H as <- <-; discriminate.
  injection H as <- <-. destruct Hloop as [Hd Hf].
  exists (fst l), (snd l). repeat split; assumption.
Qed.

End Lists.

Lemma channel_lists_hold_what_they_say_witness :
  let run :=
    download_channel_videos (Scenario.working (Scenario.videos_from 1 2))
      Scenario.channel_url 2500 (Some Scenario.picky) (Scenario.in_session tt) in
  let d := match fst run with Ok d => d | Raise _ => [] end in
  exists dl fl,
    dget "downloaded_videos" d = Some (VList (map VDict dl)) /\
    dget "failed_videos" d = Some (VList (map VDict fl)) /\
    dget "downloaded_count" d = Some (VInt (Z.of_nat (length dl))) /\
    dget "failed_count" d = Some (VInt (Z.of_nat (length fl))) /\
    Forall (fun v => succeeded v = true) dl /\
    Forall (fun v => succeeded v = false) fl.
Proof.
  intros run d.
  apply (channel_lists_hold_what_they_say
           (Scenario.working (Scenario.videos_from 1 2)) Scenario.channel_url 2500
           (Some Scenario.picky) (Scenario.in_session tt) (snd run) d).
  - vm_compute. reflexivity.
  - vm_compute. reflexivity.
Defined.

(** ** The counts of a channel run, whatever the callback does *)

Section Counts.

Context {U : Type}.
Variable E : env.

Abbreviation W := (world U).
Abbreviation locals := (fun ls : (list dict * list dict) * W => fst ls).

Lemma filed_add_success r l : filed (fst l ++ [r], snd l) = S (filed l).
Proof. unfold filed. cbn. rewrite length_app. cbn. lia. Qed.

Lemma filed_add_failure r l : filed (fst l, snd l ++ [r]) = S (filed l).
Proof. unfold filed. cbn. rewrite length_app. cbn. lia. Qed.

(** One turn of the loop files its video once, or twice when the [try] block
    raises after it has filed the video. *)
Lemma turn_files_once_or_twice cb total i url l (w : W) l' w' :
  process_one_video E cb total i url (l, w) = (Ok tt, (l', w')) ->
  (filed l + 1 <= filed l' <= filed l + 2)%nat.
Proof.
  intros Hrun.
  set (at_ := fun (n : nat) (x : list dict * list dict) => filed x = (filed l + n)%nat).
  assert (Ht : triple locals (at_ 0%nat) (process_one_video E cb total i url)
                 (fun _ x => at_ 1%nat x \/ at_ 2%nat x) (fun _ _ => True)).
  { unfold process_one_video.
    eapply triple_try_catch with (R1 := fun _ x => at_ 0%nat x \/ at_ 1%nat x).
    - eapply triple_bind with (Q1 := fun _ => at_ 0%nat).
      { eapply triple_conseq; [apply (keeps_lift_locals (at_ 0%nat))|auto..]. }
      intros result.
      eapply triple_bind with (Q1 := fun _ => at_ 0%nat).
      { eapply triple_conseq; [apply (keeps_item _ (at_ 0%nat))|auto..]. }
      intros success.
      eapply triple_bind with (Q1 := fun _ => at_ 1%nat).
      + destruct (truthy success).
        * eapply triple_bind with (Q1 := fun _ => at_ 1%nat).
          -- apply triple_modify_locals. intros x Hx. unfold at_ in *.
             rewrite filed_add_success. lia.
          -- intros _.
             eapply triple_conseq with (P' := at_ 1%nat) (Q' := fun _ => at_ 1%nat)
               (R' := fun _ => at_ 1%nat); auto.
             apply keeps_bind; [apply keeps_item|]. intros _. apply keeps_ret.
        * apply triple_modify_locals. intros x Hx. unfold at_ in *.
          rewrite filed_add_failure. lia.
      + intros _.
        eapply triple_conseq; [apply (keeps_lift_locals (at_ 1%nat))|auto..].
    - intros e.
      eapply triple_bind with (Q1 := fun _ x => at_ 1%nat x \/ at_ 2%nat x).
      + apply triple_modify_locals. intros x Hx. unfold at_ in *.
        rewrite filed_add_failure. lia.
      + intros _.
        eapply triple_conseq;
          [apply (keeps_lift_locals (fun x => at_ 1%nat x \/ at_ 2%nat x))|auto..]. }
  specialize (Ht _ _ _ Hrun). unfold at_ in Ht. cbn [fst] in Ht.
  assert (H0 : filed l = (filed l + 0)%nat) by lia.
  specialize (Ht H0). lia.
Qed.

Lemma loop_files_each_video cb total urls : forall k l (w : W) l' w',
  for_each (enumerate_from k urls)
    (fun iu => process_one_video E cb total (fst iu) (snd iu)) (l, w)
    = (Ok tt, (l', w')) ->
  (filed l + length urls <= filed l' <= filed l + 2 * length urls)%nat.
Proof.
  induction urls as [|u urls IH]; intros k l w l' w'.
  - cbn. intros [= <- <-]. lia.
  - cbn [enumerate_from for_each]. unfold bind. cbn [fst snd].
    destruct (process_one_video E cb total k u (l, w)) as [[[]|e] [l1 w1]] eqn:H1;
      [|discriminate].
    apply turn_files_once_or_twice in H1. intros H2. apply IH in H2.
    cbn [length]. lia.
Qed.

(** X27.  Whatever the callback does (even when it raises), in a Channel
    Result [downloaded_count + failed_count] is at least [total_videos] and at
    most twice [total_videos]: every video is filed, and none more than
    twice. *)
Theorem channel_counts_bracket_total ch max_videos cb (w w' : W) d :
  download_channel_videos E ch max_videos cb w = (Ok d, w') ->
  dget "success" d = Some (VBool true) ->
  exists total downloaded failed : nat,
    dget "total_videos" d = Some (VInt (Z.of_nat total)) /\
    dget "downloaded_count" d = Some (VInt (Z.of_nat downloaded)) /\
    dget "failed_count" d = Some (VInt (Z.of_nat failed)) /\
    (total <= downloaded + failed <= 2 * total)%nat.
Proof.
  intros H Hsucc. unfold download_channel_videos, bind, gets in H.
  destruct (session_dir w) as [sdir|]; [|discriminate].
  unfold try_catch, bind, ret in H.
  destruct (scan_channel E ch w) as [[[p|]|e] w1].
  2, 3: injection H as <- <-; discriminate.
  destruct (get_video_urls E p w1) as [[all_urls|e] w2].
  2: injection H as <- <-; discriminate.
  destruct all_urls as [|u0 rest]; [injection H as <- <-; discriminate|].
  fold (capped (u0 :: rest) max_videos) in H.
  set (urls := capped (u0 :: rest) max_videos) in *.
  unfold with_locals, bind, get_local, enumerate in H.
  match type of H with
  | context [for_each ?xs ?body (?l0, w2)] =>
      destruct (for_each xs body (l0, w2)) as [[[]|e] [l w3]] eqn:Hrun
  end.
  2: injection H as <- <-; discriminate.
  apply loop_files_each_video in Hrun. cbn [fst snd] in H.
  destruct (now E _ w3) as [[t|e] w4].
  2: injection H as <- <-; discriminate.
  destruct (write_file E _ w4) as [[[]|e] w5].
  2: injection H as <- <-; discriminate.
  destruct (write_video_list E _ _ _ w5) as [[[]|e] w6].
  2: injection H as <- <-; discriminate.
  injection H as <- <-.
  exists (length urls), (length (fst l)), (length (snd l)).
  repeat split; unfold filed in Hrun; cbn in Hrun; lia.
Qed.

End Counts.

Lemma channel_counts_bracket_total_witness :
  let run :=
    download_channel_videos (Scenario.working (Scenario.videos_from 1 2))
      Scenario.channel_url 2500 (Some Scenario.picky) (Scenario.in_session tt) in
  let d := match fst run with Ok d => d | Raise _ => [] end in
  exists total downloaded failed : nat,
    dget "total_videos" d = Some (VInt (Z.of_nat total)) /\
    dget "downloaded_count" d = Some (VInt (Z.of_nat downloaded)) /\
    dget "failed_count" d = Some (VInt (Z.of_nat failed)) /\
    (total <= downloaded + failed <= 2 * total)%nat.
Proof.
  intros run d.
  apply (channel_counts_bracket_total
           (Scenario.working (Scenario.videos_from 1 2)) Scenario.channel_url 2500
           (Some Scenario.picky) (Scenario.in_session tt) (snd run) d).
  - vm_compute. reflexivity.
  - vm_compute. reflexivity.
Defined.

(** ** The upload summary of a channel job *)

Section UploadSummary.

Import App.

Variable E : env.
Variable id : string.

Lemma process_url_leaves_a_session {U} u fn max_videos cb (w w' : world U) r :
  process_url E u fn max_videos cb w = (r, w') -> exists sd, session_dir w' = Some sd.
Proof.
  unfold process_url, bind, time_time, try_catch.
  destruct (process_url_body E _ u fn max_videos cb (next_tick w)) as [r0 w0] eqn:Hb.
  apply process_url_body_shape in Hb. cbv zeta in Hb. destruct Hb as [Hs _].
  injection Hs as _ Hsd. destruct r0; intros [= <- <-]; eauto.
Qed.

Lemma get_download_summary_available {U} (w : world U) sd :
  session_dir w = Some sd ->
  exists d, get_download_summary E w = (Ok d, w) /\
    dget_or "gcp_available" (VBool false) d = VBool (gcs_available E).
Proof.
  intros Hsd. unfold get_download_summary, bind, gets, glob, is_available, ret.
  rewrite Hsd. eexists. split; reflexivity.
Qed.

Lemma count_uploaded_le v : 0 <= count_uploaded v <= count_videos v.
Proof.
  destruct v; cbn; try lia. split; [lia|].
  apply Nat2Z.inj_le. induction l as [|x l IH]; cbn; [lia|].
  destruct (match x with VDict d => _ | _ => false end); cbn; lia.
Qed.

(** X28.  With the object store available, a successful result returned by
    [process_channel_background] carries under [gcp_upload] a summary counted
    from its [downloaded_videos]: [total_files] is their number,
    [uploaded_count] the number of those marked [uploaded_to_gcp],
    [failed_count] the difference, and [success] says that at least one was
    uploaded; so [0 <= uploaded_count <= total_files]. *)
Theorem channel_result_counts_its_uploads job_url (w w' : world app_state) d :
  gcs_available E = true ->
  process_channel_background E id job_url w = (Ok d, w') ->
  succeeded d = true ->
  let videos := dget_or "downloaded_videos" (VList []) d in
  let uploaded := count_uploaded videos in
  let total := count_videos videos in
  dget "gcp_upload" d =
    Some (VDict [("success", VBool (0 <? uploaded));
                 ("uploaded_count", VInt uploaded);
                 ("total_files", VInt total);
                 ("failed_count", VInt (total - uploaded))]) /\
  0 <= uploaded <= total.
Proof.
  intros Hav Hrun Hs. cbv zeta. split; [|apply count_uploaded_le].
  unfold process_channel_background, try_catch in Hrun.
  destruct (process_channel_body E id job_url w) as [[d0|e] w0] eqn:Hbody.
  2: { unfold bind in Hrun.
       destruct (locked_if_known id _ w0) as [[[]|e'] wz]; [|discriminate].
       injection Hrun as <- <-. discriminate. }
  injection Hrun as <- <-.
  unfold process_channel_body in Hbody. cbv zeta in Hbody.
  unfold bind at 1 in Hbody.
  destruct (locked_if_known id _ w) as [[[]|e] w1]; [|discriminate].
  unfold bind at 1 in Hbody.
  destruct (new_pipeline E w1) as [[[]|e] w2]; [|discriminate].
  unfold bind at 1 in Hbody.
  destruct (process_url E job_url None 2500 _ w2) as [[result|e] w3] eqn:Hpu;
    [|discriminate].
  fold (succeeded result) in Hbody. destruct (succeeded result) eqn:Hsr.
  2: { injection Hbody as <- <-. congruence. }
  apply process_url_leaves_a_session in Hpu as [sd Hsd].
  destruct (get_download_summary_available w3 sd Hsd) as (summary & Hsum & Hga).
  unfold bind at 1 in Hbody. rewrite Hsum in Hbody.
  rewrite Hga, Hav in Hbody. cbn [truthy] in Hbody.
  unfold bind at 1 in Hbody. unfold bind at 1 in Hbody.
  destruct (locked_if_known id _ w3) as [[[]|e] w4]; [|discriminate].
  unfold ret at 1 in Hbody. unfold bind at 1 in Hbody.
  destruct (locked_if_known id _ w4) as [[[]|e] w5]; [|discriminate].
  injection Hbody as <- <-.
  unfold dget_or. rewrite dget_dset_eq, dget_dset_ne by discriminate. reflexivity.
Qed.

End UploadSummary.

Lemma channel_result_counts_its_uploads_witness :
  let w := Scenario.fresh (Scenario.submitted Scenario.channel_url) in
  let run :=
    App.process_channel_background (Scenario.working (Scenario.videos_from 1 2))
      "job-1" Scenario.channel_url w in
  let d := match fst run with Ok d => d | Raise _ => [] end in
  let videos := dget_or "downloaded_videos" (VList []) d in
  let uploaded := App.count_uploaded videos in
  let total := App.count_videos videos in
  dget "gcp_upload" d =
    Some (VDict [("success", VBool (0 <? uploaded));
                 ("uploaded_count", VInt uploaded);
                 ("total_files", VInt total);
                 ("failed_count", VInt (total - uploaded))]) /\
  0 <= uploaded <= total.
Proof.
  intros w run d.
  apply (channel_result_counts_its_uploads
           (Scenario.working (Scenario.videos_from 1 2)) "job-1"
           Scenario.channel_url w (snd run) d).
  - reflexivity.
  - vm_compute. reflexivity.
  - vm_compute. reflexivity.
Defined.

(** ** A download that leaves no file *)

Section NoFile.

Context {U : Type}.
Variable E : env.

Ltac wsimp :=
  cbn [tick next_tick emit set_files files bucket log current_session session_dir
       user].

(** X29.  When the downloader returns a path at which there is no file, the
    video is still a success: its result has [file_size] 0 and is not marked
    uploaded, the sidecar is written, and the store is not contacted (the
    upload fails on the missing local file before any request is made). *)
Theorem download_without_a_file_is_a_success url fn up (w : world U) sdir vi a size :
  session_dir w = Some sdir ->
  youtube_get_video_info E (tick w) url = Ok vi ->
  youtube_download E (S (tick w)) url fn = Ok (a, None) ->
  files w !! a = None ->
  let vid := default "unknown" (vi_id vi) in
  let m := metadata_path_of sdir vid in
  os_write E (S (S (S (tick w)))) m = Ok size ->
  a <> m ->
  exists w',
    download_single_video E url fn up w
      = (Ok (result0 vid (default "Unknown" (vi_title vi)) url a m 0
               (default 0 (vi_duration vi))), w') /\
    log w' = log w ++ [EvDownload url a] /\
    bucket w' = bucket w /\
    files w' = <[m := size]> (files w).
Proof.
  intros Hsd Hinfo Hdl Hfile vid m Hwrite Hne.
  destruct w as [f b t lg cs sd u]. cbn in Hsd, Hinfo, Hdl, Hfile, Hwrite. subst sd.
  unfold download_single_video, bind, gets, try_catch. cbn [session_dir].
  unfold bind, get_video_info. wsimp. rewrite Hinfo. wsimp.
  unfold downloader_download. wsimp. rewrite Hdl. wsimp.
  unfold now, path_exists. wsimp. rewrite Hfile.
  unfold ret. fold vid. fold (metadata_path_of sdir vid). fold m.
  unfold write_file. wsimp. rewrite Hwrite.
  unfold is_available, ret, with_locals, when, get_local, bind.
  destruct (up && gcs_available E) eqn:Hup.
  - unfold upload_immediately, bind, lift, gets, now, upload_file, bind,
      is_available, ret, path_exists.
    cbn [fst snd]. wsimp.
    apply andb_true_iff in Hup as [_ Hav]. rewrite Hav. cbn [negb].
    wsimp. rewrite lookup_insert_ne by congruence. rewrite Hfile. cbn [negb fst snd].
    cbn [dget_or dget String.eqb Ascii.eqb Bool.eqb truthy fst snd].
    eexists. split; [reflexivity|]. cbn. auto.
  - cbn [fst snd]. eexists. split; [reflexivity|]. cbn. auto.
Qed.

End NoFile.

Lemma download_without_a_file_is_a_success_witness :
  exists w',
    download_single_video (Cases.fileless []) Scenario.video_url None true
      (Scenario.in_session tt)
      = (Ok (result0 "dQw4w9WgXcQ" "Title" Scenario.video_url
               "/data/audio/dQw4w9WgXcQ.flac"
               (metadata_path_of "/data/output/s1" "dQw4w9WgXcQ") 0 60), w') /\
    log w' = log (Scenario.in_session tt)
               ++ [EvDownload Scenario.video_url "/data/audio/dQw4w9WgXcQ.flac"] /\
    bucket w' = bucket (Scenario.in_session tt) /\
    files w' =
      <[metadata_path_of "/data/output/s1" "dQw4w9WgXcQ" := 256]>
        (files (Scenario.in_session tt)).
Proof.
  apply (download_without_a_file_is_a_success (Cases.fileless [])
           Scenario.video_url None true (Scenario.in_session tt) "/data/output/s1"
           (VideoInfo (Some "Title") (Some "dQw4w9WgXcQ") (Some 60))
           "/data/audio/dQw4w9WgXcQ.flac" 256).
  - reflexivity.
  - vm_compute. reflexivity.
  - vm_compute. reflexivity.
  - reflexivity.
  - reflexivity.
  - intros H. vm_compute in H. discriminate.
Defined.

(** ** The session a [/process] job works in *)

Section OwnSession.

Import App.

Variable E : env.
Variable id : string.
Hypothesis Hinit : forall t, pipeline_init_error E t = None.
Hypothesis Hmkdir : forall t p, os_mkdir_error E t p = None.

Abbreviation W := (world app_state).
Abbreviation registered := (fun w : W => job_is id (fun _ => True) (user w)).

Lemma process_url_in_own_session {U} u fn max_videos cb (w : world U) :
  exists d w',
    process_url E u fn max_videos cb w = (Ok d, w') /\
    exists ts, in_own_session ts d w'.
Proof.
  unfold process_url, bind, time_time, try_catch.
  destruct (process_url_body E _ u fn max_videos cb (next_tick w)) as [r w'] eqn:Hb.
  apply process_url_body_shape in Hb. cbv zeta in Hb. destruct Hb as [Hs Hd].
  injection Hs as Hcs _.
  destruct r as [d|e]; do 2 eexists; (split; [reflexivity|]);
    eexists; (split; [exact Hcs|]).
  - right. apply (Hd d eq_refl).
  - left. reflexivity.
Qed.

(** Over the whole world, a registered job stays registered. *)
Lemma registered_total {A} (m : M W A) :
  keeps user (job_is id (fun _ => True)) m ->
  (forall s, exists a s', m s = (Ok a, s')) ->
  triple (fun w : W => w) registered m (fun _ => registered) (fun _ _ => False).
Proof. intros Hk Ht. apply triple_total; [exact Hk|exact Ht]. Qed.

Lemma lift_on_job_total f (w : W) :
  registered w -> exists w', lift_user (on_job id f) w = (Ok tt, w') /\
    registered w' /\ current_session w' = current_session w /\
    (forall j, active_jobs (user w) !! id = Some j ->
               active_jobs (user w') !! id = Some (f j)).
Proof.
  intros (j & Hj & _). unfold lift_user, on_job. rewrite Hj.
  eexists. split; [reflexivity|]. destruct w; cbn in *.
  split; [exists (f j); split; [apply lookup_insert_eq|auto]|].
  split; [reflexivity|]. intros j' [= <-]. apply lookup_insert_eq.
Qed.

Section Tail.

Variable ts : string.
Variable result : dict.

Abbreviation here := (fun w : W => registered w /\ in_own_session ts result w).

Lemma here_on_job f :
  triple (fun w : W => w) here (lift_user (on_job id f)) (fun _ => here)
    (fun _ _ => False).
Proof.
  intros w r w' Hrun [Hreg [Hcs Hd]].
  destruct (lift_on_job_total f w Hreg) as (w1 & Hw1 & Hreg1 & Hcs1 & _).
  rewrite Hw1 in Hrun. injection Hrun as <- <-.
  split; [exact Hreg1|]. split; [congruence|exact Hd].
Qed.

Lemma here_now fmt :
  triple (fun w : W => w) here (now E fmt) (fun _ => here) (fun _ _ => False).
Proof.
  intros w r w' [= <- <-] [Hreg [Hcs Hd]]. destruct w; cbn in *.
  split; [exact Hreg|]. split; assumption.
Qed.

Lemma here_summary :
  triple (fun w : W => w) here (get_download_summary E) (fun _ => here)
    (fun _ _ => False).
Proof.
  intros w r w' Hrun H.
  unfold get_download_summary, bind, gets, glob, is_available, ret in Hrun.
  destruct (session_dir w); injection Hrun as <- <-; exact H.
Qed.

Lemma tail_in_own_session :
  triple (fun w : W => w) here
    (lift_user (on_job id (update "finalizing" 95 "Finalizando processamento...")) ;;
     download_summary <- get_download_summary E ;;
     let result := dset "download_summary" (VDict download_summary) result in
     (if truthy (dget_or "gcp_available" (VBool false) download_summary) then
        let is_video :=
          match dget "type" result with
          | Some (VStr t) => String.eqb t "video"
          | _ => false
          end in
        let downloaded_videos := dget_or "downloaded_videos" (VList []) result in
        let total_processed :=
          if is_video then 1 else count_videos downloaded_videos in
        let uploaded_count :=
          if is_video then
            (if truthy (dget_or "uploaded_to_gcp" (VBool false) result) then 1 else 0)
          else count_uploaded downloaded_videos in
        if uploaded_count =? total_processed then
          lift_user
            (on_job id
               (update "completed" 100
                  ("✅ Processamento concluído! " +:+ pretty uploaded_count
                     +:+ " arquivos enviados para GCP.")))
        else if 0 <? uploaded_count then
          lift_user
            (on_job id
               (update "completed" 100
                  ("⚠️ Processamento concluído! " +:+ pretty uploaded_count +:+ "/"
                     +:+ pretty total_processed +:+ " arquivos enviados para GCP.")))
        else
          lift_user
            (on_job id
               (update "completed" 100
                  "⚠️ Processamento concluído, mas uploads GCP falharam. Arquivos salvos localmente."))
      else
        lift_user
          (on_job id
             (update "completed" 100
                "Processamento concluído! GCP não configurado - arquivos salvos localmente."))) ;;
     t <- now E "datetime" ;;
     lift_user (on_job id (complete t result)))
    (fun _ w =>
       current_session w = Some ("download_session_" +:+ ts) /\
       exists j d, active_jobs (user w) !! id = Some j /\ results j = Some d /\
         (dget "type" d = Some (VStr "unknown") \/
          dget "session_name" d = Some (VStr ("download_session_" +:+ ts))))
    (fun _ _ => False).
Proof.
  eapply triple_bind; [apply here_on_job|intros ?].
  eapply triple_bind; [apply here_summary|intros summary]. cbv zeta.
  eapply triple_bind with (Q1 := fun _ => here).
  { repeat case_match; apply here_on_job. }
  intros _. eapply triple_bind; [apply here_now|intros t].
  intros w r w' Hrun [Hreg [Hcs Hd]].
  destruct (lift_on_job_total (complete t (dset "download_summary" (VDict summary) result))
              w Hreg) as (w1 & Hw1 & (j & Hj & _) & Hcs1 & Hset).
  rewrite Hw1 in Hrun. injection Hrun as <- <-.
  split; [congruence|].
  destruct Hreg as (j0 & Hj0 & _). specialize (Hset j0 Hj0).
  do 2 eexists. split; [exact Hset|]. split; [reflexivity|].
  rewrite !dget_dset_ne by discriminate. exact Hd.
Qed.

End Tail.

Lemma triple_exists_pre {S X A T} (pr : S -> X) (P : T -> X -> Prop) (m : M S A) Q R :
  (forall x, triple pr (P x) m Q R) -> triple pr (fun u => exists x, P x u) m Q R.
Proof. intros H s r s' Hrun [x HP]. exact (H x s r s' Hrun HP). Qed.


End OwnSession.


(** The job of that witness: the files went to the session of [process_url],
    although the options named another. *)
Example the_session_of_the_options_is_not_used :
  let run :=
    App.process_youtube_url_background (Scenario.working []) "job-1"
      Scenario.video_url (App.Options None (Some "my_session") None)
      (Scenario.fresh (Scenario.submitted Scenario.video_url)) in
  current_session (snd run) = Some "download_session_5" /\
  map fst (map_to_list (bucket (snd run))) ≡ₚ
    ["youtube_downloads/download_session_5/downloads/dQw4w9WgXcQ.flac";
     "youtube_downloads/download_session_5/metadata/dQw4w9WgXcQ_metadata.json"].
Proof.
  cbv zeta. split; [vm_compute; reflexivity|].
  vm_compute. first [reflexivity | apply perm_swap].
Qed.
